(** * SARIMAX: state-space dimensions, parameter transforms, initialisation
      and the maximum-likelihood driver

    A shallow embedding of
      - [statsmodels/tsa/statespace/sarimax.py]  (classes [SARIMAX], [SARIMAXResults])
      - [statsmodels/tsa/statespace/mlemodel.py] (classes [MLEModel], [MLEResults])

    Python integers are [Z]; numpy float arrays are lists over [R] (the real
    numbers idealise IEEE doubles: there is no NaN, no rounding and no
    overflow); Python exceptions are the [Raise] branch of [Py.result];
    dictionaries of keyword arguments are [gmap string _]. *)

From stdpp Require Import gmap strings list pretty.
From Stdlib Require Import ZArith Reals Lra Lia.

(** ** Python and numpy primitives used by the two source files *)

Module Py.

Inductive exn : Type :=
| ValueError (msg : string)
| NotImplementedError
| IndexError
| TypeError
| UnboundLocalError
| KeyError (key : string)
| LinAlgError.

Inductive result (A : Type) : Type :=
| Ok (a : A)
| Raise (e : exn).
Arguments Ok {A} a.
Arguments Raise {A} e.

#[global] Instance result_ret : MRet result := fun A a => Ok a.
#[global] Instance result_bind : MBind result := fun A B f r =>
  match r with
  | Ok a => f a
  | Raise e => Raise e
  end.

#[global] Instance result_fmap : FMap result := fun A B f r =>
  match r with
  | Ok a => Ok (f a)
  | Raise e => Raise e
  end.

Definition raises {A} (r : result A) : Prop := ∃ e, r = Raise e.

(** [bool(x)] for an integer [x]: zero is false, everything else true. *)
Definition truthy (x : Z) : bool := negb (x =? 0)%Z.

(** [slice.indices]: a slice bound [i] against a sequence of length [n]
    (step 1).  Negative bounds count from the end, all bounds are clipped. *)
Definition clip (n i : Z) : Z :=
  if (i <? 0)%Z then Z.max (i + n) 0 else Z.min i n.

(** Offset and length of [l[s:e]]; [None] is an omitted bound. *)
Definition slice_bounds (n : Z) (s e : option Z) : nat * nat :=
  let s' := match s with None => 0%Z | Some i => clip n i end in
  let e' := match e with None => n | Some i => clip n i end in
  (Z.to_nat s', Z.to_nat (e' - s')).

Section Sequences.
Context {A : Type}.

(** [l[s:e]] *)
Definition getslice (l : list A) (s e : option Z) : list A :=
  let '(o, k) := slice_bounds (Z.of_nat (length l)) s e in
  take k (drop o l).

(** [l[s:e] = rhs] on a numpy array: the right-hand side must have the
    length of the slice, or length one (broadcast). *)
Definition setslice (l : list A) (s e : option Z) (rhs : list A)
  : result (list A) :=
  let '(o, k) := slice_bounds (Z.of_nat (length l)) s e in
  if decide (length rhs = k) then Ok (take o l ++ rhs ++ drop (o + k) l)
  else match rhs with
       | [x] => Ok (take o l ++ replicate k x ++ drop (o + k) l)
       | _ => Raise (ValueError "could not broadcast input array")
       end.

(** Position of index [i] in a sequence of length [n], if in bounds. *)
Definition index (n : nat) (i : Z) : result nat :=
  let n' := Z.of_nat n in
  if ((- n' <=? i) && (i <? n'))%Z
  then Ok (Z.to_nat (if (i <? 0)%Z then i + n' else i))
  else Raise IndexError.

(** [l[i]] *)
Definition getitem (l : list A) (i : Z) : result A :=
  j ← index (length l) i;
  match l !! j with
  | Some x => Ok x
  | None => Raise IndexError
  end.

(** [l[i] = x] *)
Definition setitem (l : list A) (i : Z) (x : A) : result (list A) :=
  j ← index (length l) i;
  Ok (<[j := x]> l).
End Sequences.

(** [np.sum] of an integer vector. *)
Definition np_sum (l : list Z) : Z := foldr Z.add 0%Z l.

End Py.

Import Py.

(** ** sarimax.py : class SARIMAX *)

Module SARIMAX.

(** An AR/MA order: an integer count or explicit inclusion flags. *)
Inductive lag_order : Type :=
| LagInt (k : Z)
| LagFlags (flags : list Z).

(** The [trend] argument: [None], one of ['n'], ['c'], ['t'], ['ct'], or
    an iterable defining the trend polynomial. *)
Inductive trend_spec : Type :=
| TrendNone
| TrendN
| TrendC
| TrendT
| TrendCT
| TrendPoly (coefs : list Z).

(** Arguments of [SARIMAX.__init__].  [arg_exog] is the shape of
    [np.asarray(exog)]; the observations themselves do not enter any of
    the counts computed by the constructor. *)
Record ModelSpec : Type := {
  arg_exog : option (list Z);
  arg_order : lag_order * Z * lag_order;
  arg_seasonal_order : lag_order * Z * lag_order * Z;
  arg_trend : trend_spec;
  arg_measurement_error : bool;
  arg_time_varying_regression : bool;
  arg_mle_regression : bool;
  arg_simple_differencing : bool;
  arg_enforce_stationarity : bool;
  arg_enforce_invertibility : bool;
  arg_hamilton_representation : bool
}.

(** The attributes of a constructed model.  [k_diffuse_states] is the
    local variable of that name (the default of [loglikelihood_burn]);
    [initial_variance_kwarg] is the default the constructor puts into
    [kwargs] for the parent class. *)
Record Model : Type := {
  k_seasons : Z;
  measurement_error : bool;
  time_varying_regression : bool;
  mle_regression : bool;
  simple_differencing : bool;
  enforce_stationarity : bool;
  enforce_invertibility : bool;
  hamilton_representation : bool;
  polynomial_ar : list Z;
  polynomial_ma : list Z;
  polynomial_seasonal_ar : list Z;
  polynomial_seasonal_ma : list Z;
  trend : trend_spec;
  polynomial_trend : list Z;
  k_ar : Z;
  k_ar_params : Z;
  k_diff : Z;
  k_ma : Z;
  k_ma_params : Z;
  k_seasonal_ar : Z;
  k_seasonal_ar_params : Z;
  k_seasonal_diff : Z;
  k_seasonal_ma : Z;
  k_seasonal_ma_params : Z;
  _k_diff : Z;
  _k_seasonal_diff : Z;
  k_trend : Z;
  _k_order : Z;
  k_exog : Z;
  state_regression : bool;
  state_error : bool;
  k_params : Z;
  k_states : Z;
  k_posdef : Z;
  k_diffuse_states : Z;
  initial_variance_kwarg : option Z
}.

(** [np.r_[1., np.ones(k)]] or [np.r_[1., flags]] *)
Definition lag_polynomial (o : lag_order) : result (list Z) :=
  match o with
  | LagInt k =>
      if (k <? 0)%Z
      then Raise (ValueError "negative dimensions are not allowed")
      else Ok (1%Z :: replicate (Z.to_nat k) 1%Z)
  | LagFlags flags => Ok (1%Z :: flags)
  end.

(** [for i in range(len(flags)): poly[(i+1)*k_seasons] = flags[i]] *)
Fixpoint place_seasonal (s i : Z) (flags poly : list Z) : result (list Z) :=
  match flags with
  | [] => Ok poly
  | f :: rest =>
      poly' ← setitem poly ((i + 1) * s)%Z f;
      place_seasonal s (i + 1)%Z rest poly'
  end.

(** [np.r_[1., ([0]*(s-1) + [1]) * k]], or the explicit seasonal lags
    written at the multiples of [s]. *)
Definition seasonal_lag_polynomial (s : Z) (o : lag_order)
  : result (list Z) :=
  match o with
  | LagInt k =>
      Ok (1%Z :: mjoin (replicate (Z.to_nat k)
                          (replicate (Z.to_nat (s - 1)) 0%Z ++ [1%Z])))
  | LagFlags flags =>
      place_seasonal s 0 flags
        (1%Z :: replicate (Z.to_nat s * length flags) 0%Z)
  end.

Definition trend_polynomial (t : trend_spec) : list Z :=
  match t with
  | TrendNone | TrendN => []
  | TrendC => [1%Z]
  | TrendT => [0%Z; 1%Z]
  | TrendCT => [1%Z; 1%Z]
  | TrendPoly coefs => (λ c, if (0 <? c)%Z then 1%Z else 0%Z) <$> coefs
  end.

(** [exog.shape[1]] after a one-dimensional array was reshaped to a column. *)
Definition exog_columns (shape : list Z) : result Z :=
  let shape' := if decide (length shape = 1) then shape ++ [1%Z] else shape in
  match shape' !! 1 with
  | Some c => Ok c
  | None => Raise IndexError
  end.

Definition hamilton_message : string :=
  "The Hamilton representation is only available for models in which there is no differencing integrated into the state vector. Set `simple_differencing` to True or set `hamilton_representation` to False".

Definition time_varying_message : string :=
  "Models with time-varying regression coefficients must integrate the coefficients as part of the state vector, so that `mle_regression` must be set to False.".

(** [SARIMAX.__init__], up to the attributes that fix the dimensions of
    the representation and of the parameter vector. *)
Definition __init__ (a : ModelSpec) : result Model :=
  let '(p, d, q) := arg_order a in
  let '(P, D, Q, s) := arg_seasonal_order a in
  let k_seasons := s in
  if arg_time_varying_regression a && arg_mle_regression a
  then Raise (ValueError time_varying_message)
  else if arg_time_varying_regression a then Raise NotImplementedError
  else
  polynomial_ar ← lag_polynomial p;
  polynomial_ma ← lag_polynomial q;
  polynomial_seasonal_ar ← seasonal_lag_polynomial k_seasons P;
  polynomial_seasonal_ma ← seasonal_lag_polynomial k_seasons Q;
  let polynomial_trend := trend_polynomial (arg_trend a) in
  let k_ar := (Z.of_nat (length polynomial_ar) - 1)%Z in
  let k_ar_params := (np_sum polynomial_ar - 1)%Z in
  let k_diff := d in
  let k_ma := (Z.of_nat (length polynomial_ma) - 1)%Z in
  let k_ma_params := (np_sum polynomial_ma - 1)%Z in
  let k_seasonal_ar := (Z.of_nat (length polynomial_seasonal_ar) - 1)%Z in
  let k_seasonal_ar_params := (np_sum polynomial_seasonal_ar - 1)%Z in
  let k_seasonal_diff := D in
  let k_seasonal_ma := (Z.of_nat (length polynomial_seasonal_ma) - 1)%Z in
  let k_seasonal_ma_params := (np_sum polynomial_seasonal_ma - 1)%Z in
  let _k_diff := k_diff in
  let _k_seasonal_diff := k_seasonal_diff in
  if arg_hamilton_representation a
     && negb (arg_simple_differencing a
              || ((_k_diff =? _k_seasonal_diff)%Z
                  && (_k_seasonal_diff =? 0)%Z))
  then Raise (ValueError hamilton_message)
  else
  let k_trend := np_sum polynomial_trend in
  let _k_order :=
    if ((k_ar =? k_ma) && (k_ma =? 0))%Z then 0%Z
    else Z.max (k_ar + k_seasonal_ar) (k_ma + k_seasonal_ma + 1) in
  k_exog ← match arg_exog a with
            | None => Ok 0%Z
            | Some shape => exog_columns shape
            end;
  let exog_is_not_None := bool_decide (arg_exog a ≠ None) in
  let mle_regression :=
    arg_mle_regression a && exog_is_not_None && (0 <? k_exog)%Z in
  let state_regression :=
    negb mle_regression && exog_is_not_None && (0 <? k_exog)%Z in
  let measurement_error :=
    if state_regression && (_k_order =? 0)%Z then true
    else arg_measurement_error a in
  let k_states :=
    (_k_order
     + (if arg_simple_differencing a then 0
        else k_seasons * _k_seasonal_diff + _k_diff)
     + (if state_regression then k_exog else 0))%Z in
  let k_diffuse_states :=
    (k_states - (if arg_enforce_stationarity a then _k_order else 0))%Z in
  let k_posdef0 := Z.b2z (0 <? _k_order)%Z in
  let state_error := (0 <? k_posdef0)%Z in
  let k_posdef :=
    (k_posdef0 + (if state_regression && arg_time_varying_regression a
                  then k_exog else 0))%Z in
  let k_params :=
    (k_ar_params + k_ma_params
     + k_seasonal_ar_params + k_seasonal_ar_params
     + k_trend
     + Z.b2z measurement_error + 1
     + (if mle_regression then k_exog else 0))%Z in
  let differenced :=
    arg_simple_differencing a
    && ((0 <? _k_diff)%Z || (0 <? _k_seasonal_diff)%Z) in
  Ok {|
    k_seasons := k_seasons;
    measurement_error := measurement_error;
    time_varying_regression := arg_time_varying_regression a;
    mle_regression := mle_regression;
    simple_differencing := arg_simple_differencing a;
    enforce_stationarity := arg_enforce_stationarity a;
    enforce_invertibility := arg_enforce_invertibility a;
    hamilton_representation := arg_hamilton_representation a;
    polynomial_ar := polynomial_ar;
    polynomial_ma := polynomial_ma;
    polynomial_seasonal_ar := polynomial_seasonal_ar;
    polynomial_seasonal_ma := polynomial_seasonal_ma;
    trend := arg_trend a;
    polynomial_trend := polynomial_trend;
    k_ar := k_ar;
    k_ar_params := k_ar_params;
    k_diff := k_diff;
    k_ma := k_ma;
    k_ma_params := k_ma_params;
    k_seasonal_ar := k_seasonal_ar;
    k_seasonal_ar_params := k_seasonal_ar_params;
    k_seasonal_diff := k_seasonal_diff;
    k_seasonal_ma := k_seasonal_ma;
    k_seasonal_ma_params := k_seasonal_ma_params;
    _k_diff := if differenced then 0%Z else _k_diff;
    _k_seasonal_diff := if differenced then 0%Z else _k_seasonal_diff;
    k_trend := k_trend;
    _k_order := _k_order;
    k_exog := k_exog;
    state_regression := state_regression;
    state_error := state_error;
    k_params := k_params;
    k_states := k_states;
    k_posdef := k_posdef;
    k_diffuse_states := k_diffuse_states;
    initial_variance_kwarg :=
      if state_regression then Some (10 ^ 10)%Z else None
  |}.

(** The same arguments with [mle_regression=False]. *)
Definition without_mle (a : ModelSpec) : ModelSpec :=
  {| arg_exog := arg_exog a;
     arg_order := arg_order a;
     arg_seasonal_order := arg_seasonal_order a;
     arg_trend := arg_trend a;
     arg_measurement_error := arg_measurement_error a;
     arg_time_varying_regression := arg_time_varying_regression a;
     arg_mle_regression := false;
     arg_simple_differencing := arg_simple_differencing a;
     arg_enforce_stationarity := arg_enforce_stationarity a;
     arg_enforce_invertibility := arg_enforce_invertibility a;
     arg_hamilton_representation := arg_hamilton_representation a |}.

(** *** The parameter transforms *)

(** The write position of [transform_params] and [untransform_params]:
    the local variables [start] and [end] and the output array. *)
Record cursor : Type := {
  start : Z;
  end_ : Z;
  out : list R
}.

(** [end += k; out[start:end] = f(src[start:end]); start += k] *)
Definition segment (f : list R → list R) (k : Z) (src : list R) (c : cursor)
  : result cursor :=
  let e := (end_ c + k)%Z in
  out' ← setslice (out c) (Some (start c)) (Some e)
            (f (getslice src (Some (start c)) (Some e)));
  Ok {| start := start c + k; end_ := e; out := out' |}.

(** [out[start] = f(src[start])]; the cursor moves by one when [advance]. *)
Definition element (f : R → R) (advance : bool) (src : list R) (c : cursor)
  : result cursor :=
  x ← getitem src (start c);
  out' ← setitem (out c) (start c) (f x);
  Ok (if advance
      then {| start := start c + 1; end_ := end_ c + 1; out := out' |}
      else {| start := start c; end_ := end_ c; out := out' |}).

(** [x**2] and [x**0.5]. *)
Definition square (x : R) : R := (x ^ 2)%R.
Definition square_root (x : R) : R := sqrt x.

Definition retain (l : list R) : list R := l.

(** The blocks shared by both transforms.  [trend_block]: "Retain the
    trend parameters"; [exog_block]: "Retain any MLE regression
    coefficients"; [lag_block]: one of the four lag-polynomial segments,
    entered when [guard > 0] and mapped by [f] when its enforcement flag
    is set; [exog_variance_block], [measurement_variance_block] and
    [variance_block]: the variances, mapped by [var]. *)
Definition trend_block (self : Model) (src : list R) (c : cursor)
  : result cursor :=
  if (0 <? k_trend self)%Z then segment retain (k_trend self) src c
  else Ok c.

Definition exog_block (self : Model) (src : list R) (c : cursor)
  : result cursor :=
  if mle_regression self then segment retain (k_exog self) src c
  else Ok c.

Definition lag_block (guard : Z) (enforce : bool) (f : list R → list R)
    (k : Z) (src : list R) (c : cursor) : result cursor :=
  if (0 <? guard)%Z
  then (if enforce then segment f k src c else segment retain k src c)
  else Ok c.

Definition exog_variance_block (var : R → R) (self : Model) (src : list R)
    (c : cursor) : result cursor :=
  if state_regression self && time_varying_regression self
  then segment (fmap var) (k_exog self) src c
  else Ok c.

Definition measurement_variance_block (var : R → R) (self : Model)
    (src : list R) (c : cursor) : result cursor :=
  if measurement_error self then element var true src c else Ok c.

Definition variance_block (var : R → R) (self : Model) (src : list R)
    (c : cursor) : result cursor :=
  if state_error self then element var false src c else Ok c.

Section Transforms.
(** The two maps of [.tools] between unconstrained vectors and
    coefficients of a stationary (invertible) lag polynomial. *)
Variable constrain_stationary_univariate : list R → list R.
Variable unconstrain_stationary_univariate : list R → list R.

Definition transform_params (self : Model) (unconstrained : list R)
  : result (list R) :=
  let c := {| start := 0; end_ := 0;
              out := replicate (length unconstrained) 0%R |} in
  c ← trend_block self unconstrained c;
  c ← exog_block self unconstrained c;
  (* Transform the AR parameters (phi) to be stationary *)
  c ← lag_block (k_ar_params self) (enforce_stationarity self)
        constrain_stationary_univariate (k_ar_params self) unconstrained c;
  (* Transform the MA parameters (theta) to be invertible *)
  c ← lag_block (k_ma_params self) (enforce_invertibility self)
        constrain_stationary_univariate (k_ma_params self) unconstrained c;
  (* Transform the seasonal AR parameters to be stationary *)
  c ← lag_block (k_seasonal_ar self) (enforce_stationarity self)
        constrain_stationary_univariate (k_seasonal_ar_params self)
        unconstrained c;
  (* Transform the seasonal MA parameters to be invertible *)
  c ← lag_block (k_seasonal_ma_params self) (enforce_invertibility self)
        constrain_stationary_univariate (k_seasonal_ma_params self)
        unconstrained c;
  (* Transform the standard deviation parameters to be positive *)
  c ← exog_variance_block square self unconstrained c;
  c ← measurement_variance_block square self unconstrained c;
  c ← variance_block square self unconstrained c;
  Ok (out c).

Definition untransform_params (self : Model) (constrained : list R)
  : result (list R) :=
  let c := {| start := 0; end_ := 0;
              out := replicate (length constrained) 0%R |} in
  c ← trend_block self constrained c;
  c ← exog_block self constrained c;
  (* Transform the AR parameters (phi) to be stationary *)
  c ← lag_block (k_ar_params self) (enforce_stationarity self)
        unconstrain_stationary_univariate (k_ar_params self) constrained c;
  (* Transform the MA parameters (theta) to be invertible *)
  c ← lag_block (k_ma_params self) (enforce_invertibility self)
        unconstrain_stationary_univariate (k_ma_params self) constrained c;
  (* Transform the seasonal AR parameters to be stationary *)
  c ← lag_block (k_seasonal_ar self) (enforce_stationarity self)
        unconstrain_stationary_univariate (k_seasonal_ar_params self)
        constrained c;
  (* Transform the seasonal MA parameters to be invertible *)
  c ← lag_block (k_seasonal_ma_params self) (enforce_invertibility self)
        unconstrain_stationary_univariate (k_seasonal_ma_params self)
        constrained c;
  (* Untransform the standard deviation *)
  c ← exog_variance_block square_root self constrained c;
  c ← measurement_variance_block square_root self constrained c;
  c ← variance_block square_root self constrained c;
  Ok (out c).
End Transforms.

(** The walk both transforms perform, for a lag-polynomial map [f] and a
    variance map [var]. *)
Definition walk (f : list R → list R) (var : R → R)
    (self : Model) (src : list R) : result (list R) :=
  let c := {| start := 0; end_ := 0; out := replicate (length src) 0%R |} in
  c ← trend_block self src c;
  c ← exog_block self src c;
  c ← lag_block (k_ar_params self) (enforce_stationarity self) f
        (k_ar_params self) src c;
  c ← lag_block (k_ma_params self) (enforce_invertibility self) f
        (k_ma_params self) src c;
  c ← lag_block (k_seasonal_ar self) (enforce_stationarity self) f
        (k_seasonal_ar_params self) src c;
  c ← lag_block (k_seasonal_ma_params self) (enforce_invertibility self) f
        (k_seasonal_ma_params self) src c;
  c ← exog_variance_block var self src c;
  c ← measurement_variance_block var self src c;
  c ← variance_block var self src c;
  Ok (out c).

(** Lengths of the nine segments of the parameter vector, as the
    transforms consume them. *)
Definition len_trend (self : Model) : Z := k_trend self.
Definition len_exog (self : Model) : Z :=
  if mle_regression self then k_exog self else 0%Z.
Definition len_ar (self : Model) : Z := k_ar_params self.
Definition len_ma (self : Model) : Z := k_ma_params self.
Definition len_seasonal_ar (self : Model) : Z :=
  if (0 <? k_seasonal_ar self)%Z then k_seasonal_ar_params self else 0%Z.
Definition len_seasonal_ma (self : Model) : Z := k_seasonal_ma_params self.
Definition len_exog_variance (self : Model) : Z :=
  if state_regression self && time_varying_regression self
  then k_exog self else 0%Z.
Definition len_measurement_variance (self : Model) : Z :=
  Z.b2z (measurement_error self).
Definition len_variance (self : Model) : Z := Z.b2z (state_error self).

(** A vector cut into the nine segments of [self], in order. *)
Definition segmented (self : Model) (t x a b sa sb ev me sv : list R)
  : Prop :=
  Z.of_nat (length t) = len_trend self
  ∧ Z.of_nat (length x) = len_exog self
  ∧ Z.of_nat (length a) = len_ar self
  ∧ Z.of_nat (length b) = len_ma self
  ∧ Z.of_nat (length sa) = len_seasonal_ar self
  ∧ Z.of_nat (length sb) = len_seasonal_ma self
  ∧ Z.of_nat (length ev) = len_exog_variance self
  ∧ Z.of_nat (length me) = len_measurement_variance self
  ∧ Z.of_nat (length sv) = len_variance self.

(** A lag-polynomial segment after its block: mapped when enforced. *)
Definition through (enforce : bool) (f : list R → list R) (seg : list R)
  : list R :=
  if enforce then f seg else seg.

(** The cursor has consumed [seen] of [src] and written [produced];
    [rest] is still ahead and the output is zero there. *)
Definition laid_out (src : list R) (c : cursor) (seen produced rest : list R)
  : Prop :=
  src = seen ++ rest
  ∧ out c = produced ++ replicate (length rest) 0%R
  ∧ start c = Z.of_nat (length seen)
  ∧ end_ c = start c
  ∧ length produced = length seen.

(** As the specification words it: the sum of the segment lengths of
    the parameter vector in its fixed order. *)
Definition spec_segments_total (self : Model) : Z :=
  (k_trend self
   + (if mle_regression self then k_exog self else 0)
   + k_ar_params self + k_ma_params self
   + k_seasonal_ar_params self + k_seasonal_ma_params self
   + (if time_varying_regression self then k_exog self else 0)
   + (if measurement_error self then 1 else 0)
   + (if state_error self then 1 else 0))%Z.

(** As the specification words it: the three structural components of
    the state dimension, the order component vanishing when the combined
    (regular plus seasonal) AR and MA orders are both zero. *)
Definition spec_order_component (self : Model) : Z :=
  if ((k_ar self + k_seasonal_ar self =? 0)
      && (k_ma self + k_seasonal_ma self =? 0))%Z then 0%Z
  else Z.max (k_ar self + k_seasonal_ar self)
             (k_ma self + k_seasonal_ma self + 1).
Definition spec_differencing_component (self : Model) : Z :=
  if simple_differencing self then 0%Z
  else (k_diff self + k_seasons self * k_seasonal_diff self)%Z.
Definition spec_regression_component (self : Model) : Z :=
  if state_regression self then k_exog self else 0%Z.

(** *** The initialisation policy *)

(** Two-dimensional float arrays, as lists of rows.  The representation
    matrices are taken at their first (time-invariant) slice [[..., 0]]. *)
Abbreviation matrix := (list (list R)).

Definition np_zeros (n : nat) : list R := replicate n 0%R.
Definition np_eye (n : nat) : matrix :=
  (λ i, (λ j, if decide (i = j) then 1%R else 0%R) <$> seq 0 n) <$> seq 0 n.
Definition scale (M : matrix) (v : R) : matrix :=
  (λ row : list R, (λ x, x * v)%R <$> row) <$> M.
Definition rsum (l : list R) : R := foldr Rplus 0%R l.
Definition transpose (M : matrix) : matrix :=
  (λ j, (λ row, default 0%R (row !! j)) <$> M) <$> seq 0 (length (hd [] M)).
(** [np.dot] of two matrices of matching shapes. *)
Definition dot (A B : matrix) : matrix :=
  (λ row, (λ col, rsum (zip_with Rmult row col)) <$> transpose B) <$> A.

(** [M[r0:r1, c0:c1]] *)
Definition getblock (M : matrix) (r0 r1 c0 c1 : option Z) : matrix :=
  (λ row, getslice row c0 c1) <$> getslice M r0 r1.

(** [M[r0:r1, c0:c1] = B], with numpy's broadcasting of a single row or
    a single column. *)
Definition setblock (M : matrix) (r0 r1 c0 c1 : option Z) (B : matrix)
  : result matrix :=
  let '(o, k) := slice_bounds (Z.of_nat (length M)) r0 r1 in
  rows ← (if decide (length B = k) then Ok B
          else match B with
               | [r] => Ok (replicate k r)
               | _ => Raise (ValueError "could not broadcast input array")
               end);
  new ← mapM (λ rb, setslice rb.1 c0 c1 rb.2) (zip (take k (drop o M)) rows);
  Ok (take o M ++ new ++ drop (o + k) M).

(** The initial state distribution held by the parent class. *)
Inductive initialization : Type :=
| Known (initial_state : list R) (initial_state_cov : matrix)
| ApproximateDiffuse (variance : option R)
| Stationary.

(** A model object: its constructor-time attributes, the flag set by
    [initialize], and the parts of the representation that
    [initialize_state] reads and writes. *)
Record Statespace : Type := {
  model : Model;
  _manual_initialization : bool;
  initial_variance : R;
  transition : matrix;
  selection : matrix;
  state_cov : matrix;
  initial_distribution : option initialization
}.

Definition set_manual (self : Statespace) : Statespace :=
  {| model := model self;
     _manual_initialization := true;
     initial_variance := initial_variance self;
     transition := transition self;
     selection := selection self;
     state_cov := state_cov self;
     initial_distribution := initial_distribution self |}.

(** Modelled from the spec: the three initialisation methods of the
    parent class [Model] (module [.model], not part of the sources) --
    "Known: caller supplies exact initial mean/covariance",
    "Approximate diffuse: mean zero, covariance variance * I", and the
    purely stationary path.  Each records the requested distribution. *)
Definition super_initialize (i : initialization) (self : Statespace)
  : Statespace :=
  {| model := model self;
     _manual_initialization := _manual_initialization self;
     initial_variance := initial_variance self;
     transition := transition self;
     selection := selection self;
     state_cov := state_cov self;
     initial_distribution := Some i |}.

Definition initialize_known (self : Statespace)
    (initial_state : list R) (initial_state_cov : matrix) : Statespace :=
  super_initialize (Known initial_state initial_state_cov) (set_manual self).

Definition initialize_approximate_diffuse (self : Statespace)
    (variance : option R) : Statespace :=
  super_initialize (ApproximateDiffuse variance) (set_manual self).

Definition initialize_stationary (self : Statespace) : Statespace :=
  super_initialize Stationary (set_manual self).

(** The object as [__init__] leaves it: [initialize] clears the flag and
    a model without diffuse states takes the stationary initialisation. *)
Definition constructed (m : Model) (variance : R) (T R_ Q : matrix)
  : Statespace :=
  let self := {| model := m;
                 _manual_initialization := false;
                 initial_variance := variance;
                 transition := T;
                 selection := R_;
                 state_cov := Q;
                 initial_distribution := None |} in
  if (k_diffuse_states m =? 0)%Z then initialize_stationary self else self.

Section Initialization.
(** [scipy.linalg.solve_discrete_lyapunov] *)
Variable solve_discrete_lyapunov : matrix → matrix → result matrix.

Definition initialize_state (self : Statespace) (variance : option R)
  : result Statespace :=
  (* Check if a manual initialization has already been specified *)
  if _manual_initialization self then Ok self
  else
  (* If we're not enforcing stationarity, then we can't initialize a
     stationary component *)
  let self :=
    if negb (enforce_stationarity (model self))
    then initialize_approximate_diffuse self variance
    else self in
  let m := model self in
  (* Create initialized non-stationary components *)
  let variance :=
    match variance with
    | None => initial_variance self
    | Some v => v
    end in
  if (k_states m <? 0)%Z
  then Raise (ValueError "negative dimensions are not allowed")
  else
  let initial_state := np_zeros (Z.to_nat (k_states m)) in
  let initial_state_cov := scale (np_eye (Z.to_nat (k_states m))) variance in
  (* Offsets of the stationary component *)
  let '(start, end_) :=
    if state_regression m
    then (- (k_exog m + _k_order m),
          if 0 <? k_exog m then Some (- k_exog m) else None)%Z
    else ((- _k_order m)%Z, None) in
  (* Add in the initialized stationary components *)
  initial_state_cov ←
    (if (0 <? _k_order m)%Z
     then
       let selection_stationary :=
         getblock (selection self) (Some start) end_ None None in
       let selected_state_cov_stationary :=
         dot (dot selection_stationary (state_cov self))
             (transpose selection_stationary) in
       initial_state_cov_stationary ←
         solve_discrete_lyapunov
           (getblock (transition self) (Some start) end_ (Some start) end_)
           selected_state_cov_stationary;
       setblock initial_state_cov (Some start) end_ (Some start) end_
         initial_state_cov_stationary
     else Ok initial_state_cov);
  Ok (super_initialize (Known initial_state initial_state_cov) self).
End Initialization.

(** *** Starting parameters *)

(** The data held by the model object: the single row [endog[0, :]],
    the regressors and the cached trend columns. *)
Record Data : Type := {
  endog : list R;
  exog : option (list (list R));
  _trend_data : list (list R)
}.

(** A slot of the tuple returned by [_conditional_sum_squares]: the
    default Python list [[]], or numpy values. *)
Inductive estimate : Type :=
| Empty
| Values (a : list R).

(** What [np.r_[...]] contributes for a slot. *)
Definition np_r_ (e : estimate) : list R :=
  match e with
  | Empty => []
  | Values a => a
  end.

(** Unary minus: defined on arrays, a [TypeError] on a Python list. *)
Definition negative (e : estimate) : result (list R) :=
  match e with
  | Empty => Raise TypeError
  | Values a => Ok (Ropp <$> a)
  end.

(** [e == []] used as a condition. *)
Definition is_empty (e : estimate) : bool :=
  match e with
  | Empty => true
  | Values _ => false
  end.

Definition np_mean (l : list R) : R := (rsum l / INR (length l))%R.

(** [np.dot] of a matrix with a vector, and of two vectors. *)
Definition matvec (X : matrix) (b : list R) : list R :=
  (λ row, rsum (zip_with Rmult row b)) <$> X.
Definition inner (a b : list R) : R := rsum (zip_with Rmult a b).

(** [a - b] on arrays of equal length. *)
Definition subtract (a b : list R) : result (list R) :=
  if decide (length a = length b) then Ok (zip_with Rminus a b)
  else Raise (ValueError "operands could not be broadcast together").

Definition nonstationary_message : string :=
  "Non-stationary starting autoregressive parameters found with `enforce_stationarity` set to True.".
Definition noninvertible_message : string :=
  "non-invertible starting MA parameters found with `enforce_invertibility` set to True.".
Definition seasonal_noninvertible_message : string :=
  "non-invertible starting seasonal moving average parameters found with `enforce_invertibility` set to True.".
Definition trend_data_message : string :=
  "Trend data must be provided if `k_trend` > 0.".

Section StartParams.
(** From [.tools]: the root test and the differencing of a series and
    of a regressor matrix. *)
Variable is_invertible : list R → bool.
Variable diff : list R → Z → Z → Z → result (list R).
Variable diff_exog : matrix → Z → Z → Z → result matrix.
(** [np.linalg.pinv(X).dot(Y)] *)
Variable pinv_dot : matrix → list R → result (list R).
Variable isnan : R → bool.
(** The two regressions inside [_conditional_sum_squares]: the
    residuals of the AR(k) proxy model (built with [lagmat]), and the
    combined trend/AR/MA regression giving [(params, residuals)]; the
    offset [r] and the design matrices stay inside them. *)
Variable ar_proxy_residuals : list R → Z → result (list R).
Variable css_regression :
  list R → Z → list Z → Z → list Z → Z → option matrix →
  option (list R) → result (list R * list R).

Definition _conditional_sum_squares (endog : list R)
    (k_ar : Z) (polynomial_ar : list Z) (k_ma : Z) (polynomial_ma : list Z)
    (k_trend : Z) (trend_data : option matrix)
  : result (estimate * estimate * estimate * estimate) :=
  let k := (2 * k_ma)%Z in
  fitted ←
    (if (0 <? k_ar + k_ma + k_trend)%Z
     then
       residuals ← (if (0 <? k_ma)%Z
                    then Some <$> ar_proxy_residuals endog k
                    else Ok None);
       _ ← (match trend_data with
            | None => if (0 <? k_trend)%Z
                      then Raise (ValueError trend_data_message)
                      else Ok ()
            | Some _ => Ok ()
            end);
       Some <$> css_regression endog k_ar polynomial_ar k_ma polynomial_ma
                  k_trend trend_data residuals
     else Ok None);
  let params : result (list R) :=
    match fitted with
    | Some pr => Ok pr.1
    | None => Raise UnboundLocalError
    end in
  (* Get the params *)
  let offset := 0%Z in
  '(params_trend, offset) ←
    (if (0 <? k_trend)%Z
     then p ← params; x ← getitem p offset;
          Ok (Values [x], (offset + k_trend)%Z)
     else Ok (Empty, offset));
  '(params_ar, offset) ←
    (if (0 <? k_ar)%Z
     then p ← params;
          Ok (Values (getslice p (Some offset) (Some (k_ar + offset)%Z)),
              (offset + k_ar)%Z)
     else Ok (Empty, offset));
  '(params_ma, offset) ←
    (if (0 <? k_ma)%Z
     then p ← params;
          Ok (Values (getslice p (Some offset) (Some (k_ma + offset)%Z)),
              (offset + k_ma)%Z)
     else Ok (Empty, offset));
  let params_variance :=
    match fitted with
    | Some pr =>
        Values [np_mean (square <$> getslice pr.2 (Some k_ma) None)]
    | None => Empty
    end in
  Ok (params_trend, params_ar, params_ma, params_variance).

(** Lines 693-718 of [start_params]: differencing, the OLS regression
    on the regressors, and the removal of missing values.  Returns
    [(params_exog, endog, trend_data)]. *)
Definition prepare (self : Model) (d : Data)
  : result (estimate * list R * matrix) :=
  let trend_data := _trend_data d in
  '(endog, exog, trend_data) ←
    (if negb (simple_differencing self)
        && ((0 <? _k_diff self)%Z || (0 <? _k_seasonal_diff self)%Z)
     then
       endog ← diff (endog d) (_k_diff self) (_k_seasonal_diff self)
                 (k_seasons self);
       exog ← (match exog d with
               | Some x =>
                   x' ← diff_exog x (_k_diff self) (_k_seasonal_diff self)
                          (k_seasons self);
                   Ok (Ok x')
               | None => Ok (Raise UnboundLocalError)
               end);
       Ok (endog, exog,
           getslice trend_data None (Some (Z.of_nat (length endog))))
     else
       Ok (endog d,
           match exog d with
           | Some x => Ok x
           | None => Raise TypeError
           end,
           trend_data));
  (* Regression effects via OLS *)
  '(params_exog, endog) ←
    (if (0 <? k_exog self)%Z
     then x ← exog;
          b ← pinv_dot x endog;
          endog ← subtract endog (matvec x b);
          Ok (Values b, endog)
     else Ok (Empty, endog));
  let params_exog := if state_regression self then Empty else params_exog in
  let endog := List.filter (λ y, negb (isnan y)) endog in
  Ok (params_exog, endog, trend_data).

(** The property [start_params]. *)
Definition start_params (self : Model) (d : Data) : result (list R) :=
  '(params_exog, endog, trend_data) ← prepare self d;
  (* Non-seasonal ARMA component and trend *)
  '(params_trend, params_ar, params_ma, params_variance) ←
    _conditional_sum_squares endog (k_ar self) (polynomial_ar self)
      (k_ma self) (polynomial_ma self) (k_trend self) (Some trend_data);
  _ ← (if (0 <? k_ar self)%Z && enforce_stationarity self
       then a ← negative params_ar;
            if is_invertible a then Ok ()
            else Raise (ValueError nonstationary_message)
       else Ok ());
  _ ← (if (0 <? k_ma self)%Z && enforce_invertibility self
       then if is_invertible (np_r_ params_ma) then Ok ()
            else Raise (ValueError noninvertible_message)
       else Ok ());
  (* Seasonal Parameters *)
  '(_, params_seasonal_ar, params_seasonal_ma, params_seasonal_variance) ←
    _conditional_sum_squares endog (k_seasonal_ar self)
      (polynomial_seasonal_ar self) (k_seasonal_ma self)
      (polynomial_seasonal_ma self) 0 None;
  _ ← (if (0 <? k_seasonal_ar self)%Z && enforce_stationarity self
       then a ← negative params_seasonal_ar;
            if is_invertible a then Ok ()
            else Raise (ValueError nonstationary_message)
       else Ok ());
  _ ← (if (0 <? k_seasonal_ma self)%Z && enforce_invertibility self
       then if is_invertible (np_r_ params_seasonal_ma) then Ok ()
            else Raise (ValueError seasonal_noninvertible_message)
       else Ok ());
  (* Variances *)
  let params_exog_variance :=
    if state_regression self && time_varying_regression self
    then Values (replicate (Z.to_nat (k_exog self)) 1%R) else Empty in
  let params_variance :=
    if state_error self && is_empty params_variance
    then (if negb (is_empty params_seasonal_variance)
          then params_seasonal_variance
          else if (0 <? k_exog self)%Z then Values [inner endog endog]
          else Values [1%R])
    else params_variance in
  let params_measurement_variance :=
    if measurement_error self then Values [1%R] else Empty in
  (* Combine all parameters *)
  Ok (np_r_ params_trend ++ np_r_ params_exog ++ np_r_ params_ar
      ++ np_r_ params_ma ++ np_r_ params_seasonal_ar
      ++ np_r_ params_seasonal_ma ++ np_r_ params_exog_variance
      ++ np_r_ params_measurement_variance ++ np_r_ params_variance).

(** A slot violates the constraint that the enforcement flag asks for:
    the AR (MA) slot holds values that fail the root test. *)
Definition non_stationary (params_ar : estimate) : Prop :=
  match params_ar with
  | Values a => is_invertible (Ropp <$> a) = false
  | Empty => False
  end.
Definition non_invertible (params_ma : estimate) : Prop :=
  match params_ma with
  | Values a => is_invertible a = false
  | Empty => False
  end.
(** The slots the two conditional-sum-of-squares runs return for the
    prepared series, as [_conditional_sum_squares] cuts them from the
    regression result: by order, [params[offset:offset+k_ar]]. *)
Definition ar_estimates (self : Model) (endog : list R)
    (trend_data : matrix) (e : estimate) : Prop :=
  ∃ t ma v,
    _conditional_sum_squares endog (k_ar self) (polynomial_ar self)
      (k_ma self) (polynomial_ma self) (k_trend self) (Some trend_data)
    = Ok (t, e, ma, v).
Definition ma_estimates (self : Model) (endog : list R)
    (trend_data : matrix) (e : estimate) : Prop :=
  ∃ t ar v,
    _conditional_sum_squares endog (k_ar self) (polynomial_ar self)
      (k_ma self) (polynomial_ma self) (k_trend self) (Some trend_data)
    = Ok (t, ar, e, v).
Definition seasonal_ar_estimates (self : Model) (endog : list R)
    (e : estimate) : Prop :=
  ∃ t ma v,
    _conditional_sum_squares endog (k_seasonal_ar self)
      (polynomial_seasonal_ar self) (k_seasonal_ma self)
      (polynomial_seasonal_ma self) 0 None
    = Ok (t, e, ma, v).
Definition seasonal_ma_estimates (self : Model) (endog : list R)
    (e : estimate) : Prop :=
  ∃ t ar v,
    _conditional_sum_squares endog (k_seasonal_ar self)
      (polynomial_seasonal_ar self) (k_seasonal_ma self)
      (polynomial_seasonal_ma self) 0 None
    = Ok (t, ar, e, v).

(** Enforcement is requested and a slot violates it. *)
Definition infeasible (self : Model) (endog : list R)
    (trend_data : matrix) : Prop :=
  (enforce_stationarity self = true
   ∧ ((∃ e, ar_estimates self endog trend_data e ∧ non_stationary e)
      ∨ (∃ e, seasonal_ar_estimates self endog e ∧ non_stationary e)))
  ∨ (enforce_invertibility self = true
     ∧ ((∃ e, ma_estimates self endog trend_data e ∧ non_invertible e)
        ∨ (∃ e, seasonal_ma_estimates self endog e ∧ non_invertible e))).
End StartParams.

(** *** Indices and data cached by [initialize] *)

(** The indices of the exogenous variances, which [initialize] caches
    only for time-varying regression coefficients, are left out: the
    constructor refuses such models. *)

(** [np.nonzero(poly)[0]], counting positions from [i]. *)
Fixpoint nonzero_from (i : Z) (poly : list Z) : list Z :=
  match poly with
  | [] => []
  | x :: rest =>
      if (x =? 0)%Z then nonzero_from (i + 1) rest
      else i :: nonzero_from (i + 1) rest
  end.
Definition nonzero (poly : list Z) : list Z := nonzero_from 0 poly.

(** A lag polynomial of inclusion flags: the constant 1 followed by
    zeros and ones. *)
Definition boolean_polynomial (poly : list Z) : Prop :=
  head poly = Some 1%Z ∧ Forall (λ f, f = 0%Z ∨ f = 1%Z) poly.

(** "Cache the indexes of included polynomial orders (but we do not want
    the index of the constant term, so exclude the first index)". *)
Definition _polynomial_ar_idx (self : Model) : list Z :=
  getslice (nonzero (polynomial_ar self)) (Some 1%Z) None.
Definition _polynomial_ma_idx (self : Model) : list Z :=
  getslice (nonzero (polynomial_ma self)) (Some 1%Z) None.
Definition _polynomial_seasonal_ar_idx (self : Model) : list Z :=
  getslice (nonzero (polynomial_seasonal_ar self)) (Some 1%Z) None.
Definition _polynomial_seasonal_ma_idx (self : Model) : list Z :=
  getslice (nonzero (polynomial_seasonal_ma self)) (Some 1%Z) None.

(** [np.s_[start:stop, col]] and [np.s_[row, start:stop]]. *)
Inductive index_expression : Type :=
| RowsOfColumn (start stop col : Z)
| ColumnsOfRow (row start stop : Z).

(** Where [update] writes the reduced-form AR coefficients into the
    transition matrix. *)
Definition transition_ar_params_idx (self : Model) : index_expression :=
  let start_row := (_k_diff self + k_seasons self * _k_seasonal_diff self)%Z in
  let end_row := (start_row + k_ar self + k_seasonal_ar self)%Z in
  let col := (_k_diff self + k_seasons self * _k_seasonal_diff self)%Z in
  if negb (hamilton_representation self)
  then RowsOfColumn start_row end_row col
  else ColumnsOfRow col start_row end_row.

(** Where [update] writes the reduced-form MA coefficients: into the
    selection matrix, or into the design matrix in the Hamilton
    representation; [None] is an attribute that is not set. *)
Definition selection_ma_params_idx (self : Model) : option index_expression :=
  let start_row := (_k_diff self + k_seasons self * _k_seasonal_diff self)%Z in
  let start_row := (start_row + 1)%Z in
  let end_row := (start_row + k_ma self + k_seasonal_ma self)%Z in
  let col := 0%Z in
  if negb (hamilton_representation self)
  then Some (RowsOfColumn start_row end_row col)
  else None.
Definition design_ma_params_idx (self : Model) : option index_expression :=
  let start_row := (_k_diff self + k_seasons self * _k_seasonal_diff self)%Z in
  let start_row := (start_row + 1)%Z in
  let end_row := (start_row + k_ma self + k_seasonal_ma self)%Z in
  let col := 0%Z in
  if negb (hamilton_representation self)
  then None
  else Some (ColumnsOfRow col start_row end_row).

(** [range(a, b)] and [np.arange(a, b)]. *)
Definition range (a b : Z) : list Z :=
  (λ i, (a + Z.of_nat i)%Z) <$> seq 0 (Z.to_nat (b - a)).
Definition np_arange (a b : Z) : list R := IZR <$> range a b.

(** [M[:, j]] and [M[:, j] = v]. *)
Definition getcolumn (M : matrix) (j : Z) : result (list R) :=
  mapM (λ row, getitem row j) M.
Definition setcolumn (M : matrix) (j : Z) (v : list R) : result matrix :=
  if decide (length v = length M)
  then mapM (λ rv : list R * R, setitem rv.1 j rv.2) (zip M v)
  else Raise (ValueError "could not broadcast input array").

(** [for i in ...: M[:, i] = M[:, i-1] * M[:, 1]] *)
Fixpoint trend_powers (columns : list Z) (M : matrix) : result matrix :=
  match columns with
  | [] => Ok M
  | i :: rest =>
      a ← getcolumn M (i - 1);
      b ← getcolumn M 1;
      M' ← setcolumn M i (zip_with Rmult a b);
      trend_powers rest M'
  end.

(** "Cache the arrays for calculating the intercept from the trend
    components": the value [initialize] gives [_trend_data], for a sample
    of [nobs] observations. *)
Definition initialize_trend_data (self : Model) (nobs : nat) : result matrix :=
  if (k_trend self <? 0)%Z
  then Raise (ValueError "negative dimensions are not allowed")
  else
  let M := replicate nobs (replicate (Z.to_nat (k_trend self)) 1%R) in
  M ← (if (1 <? k_trend self)%Z
       then setcolumn M 1 (np_arange 1 (Z.of_nat nobs + 1))
       else Ok M);
  if (2 <? k_trend self)%Z then trend_powers (range 2 (k_trend self)) M
  else Ok M.

(** *** The fixed components of the representation *)

(** [l * k] for a Python list: [k] copies, none for [k <= 0]. *)
Definition times {A} (l : list A) (k : Z) : list A :=
  mjoin (replicate (Z.to_nat k) l).

(** [M.T] for an array [M] with [cols] columns. *)
Definition transpose_to (cols : nat) (M : matrix) : matrix :=
  (λ j, (λ row, default 0%R (row !! j)) <$> M) <$> seq 0 cols.

(** [np.c_[A, B]] of two matrices with the same number of rows. *)
Definition np_c_ (A B : matrix) : result matrix :=
  if decide (length A = length B) then Ok (zip_with app A B)
  else Raise (ValueError "all the input array dimensions except for the concatenation axis must match exactly").

(** The design: a vector, or with regression coefficients in the
    state the time-varying array [design[0, :, :]], one row per state and
    one column per observation. *)
Inductive design_array : Type :=
| DesignVector (v : list R)
| DesignTimeVarying (rows : matrix).

(** The property [initial_design], for a sample of [nobs] observations
    and the regressors [exog] (an array with [k_exog] columns). *)
Definition initial_design (self : Model) (nobs : nat) (exog : matrix)
  : result design_array :=
  let design : list R :=
    IZR <$> (times [1%Z] (_k_diff self)
             ++ times (times [0%Z] (k_seasons self - 1) ++ [1%Z])
                  (_k_seasonal_diff self)
             ++ times [1%Z] (Z.b2z (state_error self))
             ++ times [0%Z] (_k_order self - 1)) in
  if state_regression self
  then
    if (0 <? _k_order self)%Z
    then
      (* [np.repeat] and [np.reshape] give one row per design entry, its
         transpose one copy of [design] per observation *)
      rows ← np_c_ (replicate nobs design) exog;
      Ok (DesignTimeVarying
            (transpose_to (length design + Z.to_nat (k_exog self)) rows))
    else Ok (DesignTimeVarying (transpose_to (Z.to_nat (k_exog self)) exog))
  else Ok (DesignVector design).

(** [np.zeros((r, c))] *)
Definition np_zeros2 (r c : Z) : result matrix :=
  if ((r <? 0) || (c <? 0))%Z
  then Raise (ValueError "negative dimensions are not allowed")
  else Ok (replicate (Z.to_nat r) (replicate (Z.to_nat c) 0%R)).

(** [M[i, j] = x] *)
Definition setentry (M : matrix) (i j : Z) (x : R) : result matrix :=
  row ← getitem M i;
  row' ← setitem row j x;
  setitem M i row'.

(** [for i in ...: selection[-i, -i] = 1] *)
Fixpoint mark_diagonal (indices : list Z) (M : matrix) : result matrix :=
  match indices with
  | [] => Ok M
  | i :: rest =>
      M' ← setentry M (- i) (- i) 1%R;
      mark_diagonal rest M'
  end.

(** The property [initial_selection]: the selection matrix
    [selection[:, :, 0]]. *)
Definition initial_selection (self : Model) : result matrix :=
  if negb (state_regression self && time_varying_regression self)
  then
    if (0 <? k_posdef self)%Z
    then
      Ok ((λ x, [IZR x])
            <$> (times [0%Z]
                   (_k_diff self + k_seasons self * _k_seasonal_diff self)
                 ++ times [1%Z] (Z.b2z (0 <? _k_order self)%Z)
                 ++ times [0%Z] (_k_order self - 1)
                 ++ times [0%Z]
                      ((1 - Z.b2z (mle_regression self)) * k_exog self)))
    else np_zeros2 (k_states self) 0
  else
    selection ← np_zeros2 (k_states self) (k_posdef self);
    (* Typical state variance *)
    selection ← (if (0 <? _k_order self)%Z then setentry selection 0 0 1%R
                 else Ok selection);
    (* Time-varying regression coefficient variances *)
    mark_diagonal (reverse (range 1 (k_exog self + 1))) selection.

(** *** The parameters as [update] reads them *)

(** The local variables of [update] after "Extract the parameters";
    [None] is a variable left at its initial [None]. *)
Record extracted : Type := {
  params_trend : list R;
  params_exog : option (list R);
  params_ar : list R;
  params_ma : list R;
  params_seasonal_ar : list R;
  params_seasonal_ma : list R;
  params_exog_variance : option (list R);
  params_measurement_variance : option R;
  params_variance : option R
}.

(** Lines 1133-1163 of [update]. *)
Definition extract (self : Model) (params : list R) : result extracted :=
  let start := 0%Z in
  let end_ := 0%Z in
  let end_ := (end_ + k_trend self)%Z in
  let params_trend := getslice params (Some start) (Some end_) in
  let start := (start + k_trend self)%Z in
  let '(params_exog, start, end_) :=
    if mle_regression self
    then (Some (getslice params (Some start) (Some (end_ + k_exog self)%Z)),
          (start + k_exog self)%Z, (end_ + k_exog self)%Z)
    else (None, start, end_) in
  let end_ := (end_ + k_ar_params self)%Z in
  let params_ar := getslice params (Some start) (Some end_) in
  let start := (start + k_ar_params self)%Z in
  let end_ := (end_ + k_ma_params self)%Z in
  let params_ma := getslice params (Some start) (Some end_) in
  let start := (start + k_ma_params self)%Z in
  let end_ := (end_ + k_seasonal_ar_params self)%Z in
  let params_seasonal_ar := getslice params (Some start) (Some end_) in
  let start := (start + k_seasonal_ar_params self)%Z in
  let end_ := (end_ + k_seasonal_ma_params self)%Z in
  let params_seasonal_ma := getslice params (Some start) (Some end_) in
  let start := (start + k_seasonal_ma_params self)%Z in
  let '(params_exog_variance, start, end_) :=
    if state_regression self && time_varying_regression self
    then (Some (getslice params (Some start) (Some (end_ + k_exog self)%Z)),
          (start + k_exog self)%Z, (end_ + k_exog self)%Z)
    else (None, start, end_) in
  '(params_measurement_variance, start, end_) ←
    (if measurement_error self
     then x ← getitem params start; Ok (Some x, (start + 1)%Z, (end_ + 1)%Z)
     else Ok (None, start, end_));
  params_variance ←
    (if state_error self then Some <$> getitem params start else Ok None);
  Ok {| params_trend := params_trend;
        params_exog := params_exog;
        params_ar := params_ar;
        params_ma := params_ma;
        params_seasonal_ar := params_seasonal_ar;
        params_seasonal_ma := params_seasonal_ma;
        params_exog_variance := params_exog_variance;
        params_measurement_variance := params_measurement_variance;
        params_variance := params_variance |}.

(** *** Parameter names *)

(** [d[key]] on a dictionary. *)
Definition dict_getitem {V} (d : gmap string V) (key : string) : result V :=
  match d !! key with
  | Some v => Ok v
  | None => Raise (KeyError key)
  end.

Definition params_complete : list string :=
  ["trend"; "exog"; "ar"; "ma"; "seasonal_ar"; "seasonal_ma";
   "exog_variance"; "measurement_variance"; "variance"].

(** The property [model_orders]. *)
Definition model_orders (self : Model) : gmap string Z :=
  <["trend" := k_trend self]> (
  <["exog" := k_exog self]> (
  <["ar" := k_ar self]> (
  <["ma" := k_ma self]> (
  <["seasonal_ar" := k_seasonal_ar self]> (
  <["seasonal_ma" := k_seasonal_ma self]> (
  <["reduced_ar" := (k_ar self + k_seasonal_ar self)%Z]> (
  <["reduced_ma" := (k_ma self + k_seasonal_ma self)%Z]> (
  <["exog_variance" :=
      if state_regression self && time_varying_regression self
      then k_exog self else 0%Z]> (
  <["measurement_variance" := Z.b2z (measurement_error self)]> (
  <["variance" := Z.b2z (state_error self)]> ∅)))))))))).

(** [[order for order in complete if model_orders[order] > 0]] *)
Fixpoint positive_orders (model_orders : gmap string Z)
    (complete : list string) : result (list string) :=
  match complete with
  | [] => Ok []
  | order :: rest =>
      k ← dict_getitem model_orders order;
      tail ← positive_orders model_orders rest;
      Ok (if (0 <? k)%Z then order :: tail else tail)
  end.

(** [l.remove(x)] for an [x] that occurs in [l]. *)
Fixpoint list_remove (x : string) (l : list string) : list string :=
  match l with
  | [] => []
  | y :: rest => if decide (x = y) then rest else y :: list_remove x rest
  end.

(** The property [params_included]. *)
Definition params_included (self : Model) : result (list string) :=
  let model_orders := model_orders self in
  (* Get basic list from model orders *)
  params ← positive_orders model_orders params_complete;
  (* k_exog may be positive without associated parameters if it is in the
     state vector *)
  Ok (if bool_decide ("exog" ∈ params) && negb (mle_regression self)
      then list_remove "exog" params
      else params).

Section Names.
(** [self.exog_names], from the data, and [np.polymul]. *)
Variable exog_names : list string.
Variable np_polymul : list Z → list Z → list Z.

(** [template % i] for the templates that end in [%d]. *)
Definition lag_names (template : string) (indices : list Z) : list string :=
  (λ i, template +:+ pretty i) <$> indices.

(** [if c: names[key] = value] *)
Definition assign_if {V} (c : bool) (key : string) (value : V)
    (names : gmap string V) : gmap string V :=
  if c then <[key := value]> names else names.

(** The property [model_names], that is [_get_model_names(latex=False)]:
    the names by kind; [None] where the model has no parameter of that
    kind. *)
Definition model_names (self : Model)
  : gmap string (option (list string)) :=
  let names : gmap string (option (list string)) :=
    <["trend" := None]> (
    <["exog" := None]> (
    <["ar" := None]> (
    <["ma" := None]> (
    <["seasonal_ar" := None]> (
    <["seasonal_ma" := None]> (
    <["reduced_ar" := None]> (
    <["reduced_ma" := None]> (
    <["exog_variance" := None]> (
    <["measurement_variance" := None]> (
    <["variance" := None]> ∅)))))))))) in
  (* Trend *)
  let names :=
    assign_if (0 <? k_trend self)%Z "trend"
      (Some ((λ i, if (i =? 0)%Z then "intercept"
                   else if (i =? 1)%Z then "drift"
                   else "trend." +:+ pretty i)
               <$> nonzero (polynomial_trend self))) names in
  (* Exogenous coefficients *)
  let names := assign_if (0 <? k_exog self)%Z "exog" (Some exog_names) names in
  (* Autoregressive *)
  let names :=
    assign_if (0 <? k_ar self)%Z "ar"
      (Some (lag_names "ar.L"
               (getslice (nonzero (polynomial_ar self)) (Some 1%Z) None)))
      names in
  (* Moving Average *)
  let names :=
    assign_if (0 <? k_ma self)%Z "ma"
      (Some (lag_names "ma.L"
               (getslice (nonzero (polynomial_ma self)) (Some 1%Z) None)))
      names in
  (* Seasonal Autoregressive *)
  let names :=
    assign_if (0 <? k_seasonal_ar self)%Z "seasonal_ar"
      (Some (lag_names "ar.S.L"
               (getslice (nonzero (polynomial_seasonal_ar self))
                  (Some 1%Z) None))) names in
  (* Seasonal Moving Average *)
  let names :=
    assign_if (0 <? k_seasonal_ma self)%Z "seasonal_ma"
      (Some (lag_names "ma.S.L"
               (getslice (nonzero (polynomial_seasonal_ma self))
                  (Some 1%Z) None))) names in
  (* Reduced Form Autoregressive *)
  let names :=
    assign_if ((0 <? k_ar self)%Z || (0 <? k_seasonal_ar self)%Z)
      "reduced_ar"
      (let reduced_polynomial_ar :=
         Z.opp <$> np_polymul (polynomial_ar self)
                     (polynomial_seasonal_ar self) in
       Some (lag_names "ar.R.L"
               (getslice (nonzero reduced_polynomial_ar) (Some 1%Z) None)))
      names in
  (* Reduced Form Moving Average *)
  let names :=
    assign_if ((0 <? k_ma self)%Z || (0 <? k_seasonal_ma self)%Z)
      "reduced_ma"
      (let reduced_polynomial_ma :=
         np_polymul (polynomial_ma self) (polynomial_seasonal_ma self) in
       Some (lag_names "ma.R.L"
               (getslice (nonzero reduced_polynomial_ma) (Some 1%Z) None)))
      names in
  (* Exogenous variances *)
  let names :=
    assign_if (state_regression self && time_varying_regression self)
      "exog_variance"
      (Some ((λ exog_name, "var." +:+ exog_name) <$> exog_names)) names in
  (* Measurement error variance *)
  let names :=
    assign_if (measurement_error self) "measurement_variance"
      (Some ["var.measurment_error"]) names in
  (* State variance *)
  let names :=
    assign_if (state_error self) "variance" (Some ["sigma2"]) names in
  names.

(** [for name in names]: iterating over [None] is a [TypeError]. *)
Definition iterate (names : option (list string)) : result (list string) :=
  match names with
  | Some l => Ok l
  | None => Raise TypeError
  end.

(** The property [params_names]. *)
Definition params_names (self : Model) : result (list string) :=
  params_sort_order ← params_included self;
  let model_names := model_names self in
  mjoin <$> mapM (λ param, names ← dict_getitem model_names param;
                            iterate names)
               params_sort_order.
End Names.

End SARIMAX.

(** ** mlemodel.py : class MLEModel *)

Module MLEModel.

(** Values passed through [**kwargs]. *)
Inductive value : Type :=
| VBool (b : bool)
| VFloat (x : R).

(** [kwargs.setdefault(key, v)], [kwargs.get(key, d)], [del kwargs[key]] *)
Definition setdefault (key : string) (v : value) (kwargs : gmap string value)
  : gmap string value :=
  match kwargs !! key with
  | Some _ => kwargs
  | None => <[key := v]> kwargs
  end.
Definition get (key : string) (d : value) (kwargs : gmap string value)
  : value :=
  default d (kwargs !! key).
Definition del (key : string) (kwargs : gmap string value)
  : result (gmap string value) :=
  match kwargs !! key with
  | Some _ => Ok (delete key kwargs)
  | None => Raise (KeyError key)
  end.

(** One call of the generic optimiser [LikelihoodModel.fit], with the
    arguments [fit] hands over (the [callback] is passed on unchanged). *)
Record fit_call : Type := {
  call_start_params : list R;
  call_method : string;
  call_fargs : value * bool * bool;
  call_maxiter : Z;
  call_full_output : Z;
  call_disp : Z;
  call_kwargs : gmap string value
}.

(** The methods and collaborators [fit] and [loglike] reach through
    [self]: the overridable methods of the class, the optimiser of the
    parent class ([super_fit]), and the Kalman filter ([filter],
    [super_loglike]).  Each may change the object. *)
Class Interface (Self MLEFit Filtered : Type) : Type := {
  nobs : Self → Z;
  params : Self → option (list R);
  start_params : Self → result (list R);
  transform_params : Self → list R → result (list R);
  untransform_params : Self → list R → result (list R);
  update : Self → list R → bool → bool → result (list R * Self);
  super_fit : Self → fit_call → result (MLEFit * Self);
  mlefit_params : MLEFit → list R;
  filter : Self → bool → result (Filtered * Self);
  super_loglike : Self → gmap string value → result (R * Self)
}.

(** What [fit] returns: [self.params], or the results object with the
    optimiser's output attached. *)
Inductive fit_output (MLEFit Filtered : Type) : Type :=
| ReturnParams (p : option (list R))
| ReturnResults (res : Filtered) (mlefit : MLEFit).
Arguments ReturnParams {MLEFit Filtered} p.
Arguments ReturnResults {MLEFit Filtered} res mlefit.

Definition is_method (method name : string) : bool :=
  bool_decide (method = name).

Section Driver.
Context {Self MLEFit Filtered : Type} `{!Interface Self MLEFit Filtered}.

(** [MLEModel.fit]; the last component lists the optimiser calls made. *)
Definition fit (self : Self) (start : option (list R))
    (transformed : bool) (method : string) (maxiter full_output disp : Z)
    (return_params bfgs_tune : bool) (kwargs : gmap string value)
  : result (fit_output MLEFit Filtered * Self * list fit_call) :=
  '(start, transformed) ←
    (match start with
     | None => sp ← start_params self; Ok (sp, true)
     | Some sp => Ok (sp, transformed)
     end);
  (* Unconstrain the starting parameters *)
  start ← (if transformed : bool then untransform_params self start
           else Ok start);
  let kwargs :=
    if is_method method "lbfgs" || is_method method "bfgs"
    then setdefault "epsilon" (VFloat (1 / 100000))
           (setdefault "approx_grad" (VBool true) kwargs)
    else kwargs in
  (* Maximum likelihood estimation *)
  let fargs := (get "average_loglike" (VBool true) kwargs, false, false) in
  let first :=
    {| call_start_params := start; call_method := method;
       call_fargs := fargs; call_maxiter := maxiter;
       call_full_output := full_output; call_disp := disp;
       call_kwargs := kwargs |} in
  '(mlefit, self) ← super_fit self first;
  (* Optionally tune the maximum likelihood estimates using complex
     step gradient *)
  '(mlefit, self, calls) ←
    (if bfgs_tune && is_method method "lbfgs" || is_method method "bfgs"
     then
       let kwargs := <["approx_grad" := VBool false]> kwargs in
       kwargs ← del "epsilon" kwargs;
       let fargs :=
         (get "average_loglike" (VBool true) kwargs, false, false) in
       let second :=
         {| call_start_params := mlefit_params mlefit;
            call_method := method;
            call_fargs := fargs; call_maxiter := maxiter;
            call_full_output := full_output; call_disp := disp;
            call_kwargs := kwargs |} in
       '(mlefit, self) ← super_fit self second;
       Ok (mlefit, self, [first; second])
     else Ok (mlefit, self, [first]));
  (* Constrain the final parameters and update the model *)
  '(_, self) ← update self (mlefit_params mlefit) false true;
  if return_params
  then '(_, self) ← filter self true;
       Ok (ReturnParams (params self), self, calls)
  else '(res, self) ← filter self false;
       Ok (ReturnResults res mlefit, self, calls).

(** [MLEModel.loglike] *)
Definition loglike (self : Self) (new_params : option (list R))
    (average_loglike transformed set_params : bool)
    (kwargs : gmap string value) : result (R * Self) :=
  self ← (match new_params with
          | Some p => snd <$> update self p transformed set_params
          | None => Ok self
          end);
  let kwargs := setdefault "recreate" (VBool false) kwargs in
  '(loglike, self) ← super_loglike self kwargs;
  if average_loglike
  then Ok ((loglike / IZR (nobs self))%R, self)
  else Ok (loglike, self).
End Driver.

(** [MLEModel.update], the implementation of the base class, over the
    object's [transform_params] and the assignment to [self.params]. *)
Definition base_update {Self : Type}
    (transform : Self → list R → result (list R))
    (assign : Self → list R → Self)
    (self : Self) (new_params : list R) (transformed set_params : bool)
  : result (list R * Self) :=
  new_params ← (if transformed then Ok new_params
                else transform self new_params);
  Ok (new_params, if set_params then assign self new_params else self).

(** An object of the base class itself: the transforms are no-ops and
    [start_params] is whatever was assigned to it, if anything. *)
Record plain : Type := {
  plain_nobs : Z;
  plain_params : option (list R);
  _start_params : option (list R);
  plain_loglikelihood : R
}.

Definition plain_assign (self : plain) (p : list R) : plain :=
  {| plain_nobs := plain_nobs self;
     plain_params := Some p;
     _start_params := _start_params self;
     plain_loglikelihood := plain_loglikelihood self |}.

(** The base class with stand-ins for its collaborators: an optimiser
    that returns its starting point and a filter that reports the stored
    log-likelihood. *)
#[global] Instance plain_interface : Interface plain (list R) R := {|
  nobs := plain_nobs;
  params := plain_params;
  start_params := λ self,
    match _start_params self with
    | Some v => Ok v
    | None => Raise NotImplementedError
    end;
  transform_params := λ _ unconstrained, Ok unconstrained;
  untransform_params := λ _ constrained, Ok constrained;
  update := base_update (λ _ unconstrained, Ok unconstrained) plain_assign;
  super_fit := λ self call, Ok (call_start_params call, self);
  mlefit_params := λ mlefit, mlefit;
  filter := λ self _, Ok (plain_loglikelihood self, self);
  super_loglike := λ self _, Ok (plain_loglikelihood self, self)
|}.

End MLEModel.

(** ** mlemodel.py : class MLEResults *)

Module MLEResults.

(** [start] and [end] of a prediction: an observation number or a date. *)
Inductive time_index : Type :=
| Observation (t : Z)
| Date (label : string).

(** The attributes the information criteria read. *)
Record t : Type := {
  loglikelihood : list R;
  loglikelihood_burn : Z;
  params : list R;
  nobs : Z
}.

(** [self.loglikelihood[self.loglikelihood_burn:].sum()] *)
Definition llf (self : t) : R :=
  SARIMAX.rsum (getslice (loglikelihood self)
                  (Some (loglikelihood_burn self)) None).

(** [self.params.shape[0]] *)
Definition params_shape0 (self : t) : R := INR (length (params self)).

Definition aic (self : t) : R :=
  (-2 * llf self + 2 * params_shape0 self)%R.

Definition bic (self : t) : R :=
  (-2 * llf self + params_shape0 self * ln (IZR (nobs self)))%R.

Definition hqic (self : t) : R :=
  (-2 * llf self + 2 * ln (ln (IZR (nobs self))) * params_shape0 self)%R.

(** [MLEResults.forecast]: [self.predict(start=self.nobs,
    end=self.nobs+steps-1, ...)], the remaining arguments being passed
    on inside [predict]. *)
Definition forecast {A : Type}
    (predict : option time_index → option time_index → A)
    (nobs steps : Z) : A :=
  predict (Some (Observation nobs)) (Some (Observation (nobs + steps - 1))).

End MLEResults.

(** ** sarimax.py : class SARIMAXResults *)

Module SARIMAXResults.
Import MLEResults.

(** The attributes [predict] reads, copied from the model at
    construction. *)
Record t : Type := {
  model : SARIMAX.Model;
  nobs : Z
}.
Definition mle_regression (self : t) : bool :=
  SARIMAX.mle_regression (model self).
Definition state_regression (self : t) : bool :=
  SARIMAX.state_regression (model self).
Definition k_exog (self : t) : Z := SARIMAX.k_exog (model self).

(** The [exog] argument: an array with its shape. *)
Record ndarray : Type := {
  shape : list Z;
  values : list R
}.

Inductive warning : Type :=
| ExogIgnored.

Definition out_of_sample_message : string :=
  "Out-of-sample forecasting in a model with a regression component requires additional exogenous values via the `exog` argument".
Definition shape_message : string :=
  "Provided exogenous values are not of the appropriate shape.".

Section Predict.
Context {Forecast Kwargs : Type}.
(** From the time-series base class: resolution of [start] and [end],
    the latter giving [(end, out_of_sample)]. *)
Variable _get_predict_start : t → time_index → result Z.
Variable _get_predict_end : t → option time_index → result (Z * Z).
(** Lines 1451-1481: the model over the extended sample and its
    time-varying matrices, as the new [exog] and [kwargs]. *)
Variable extend : t → ndarray → Z → Kwargs → result (ndarray * Kwargs).
(** [predict] of the parent class. *)
Variable super_predict :
  t → time_index → option time_index → option ndarray → Z → R → Kwargs →
  result Forecast.

Definition predict (self : t) (start end_ : option time_index)
    (exog : option ndarray) (dynamic : Z) (alpha : R) (kwargs : Kwargs)
  : result (Forecast * list warning) :=
  let start := default (Observation 0) start in
  (* Handle end (e.g. date) *)
  _start ← _get_predict_start self start;
  '(_end, _out_of_sample) ← _get_predict_end self end_;
  (* Handle exogenous parameters *)
  if truthy _out_of_sample && mle_regression self || state_regression self
  then
    match exog with
    | None => Raise (ValueError out_of_sample_message)
    | Some x =>
        let required_exog_shape := [_out_of_sample; k_exog self] in
        if negb (bool_decide (shape x = required_exog_shape))
        then Raise (ValueError shape_message)
        else
          '(x', kwargs) ← extend self x _out_of_sample kwargs;
          f ← super_predict self start end_ (Some x') dynamic alpha kwargs;
          Ok (f, [])
    end
  else
    let warnings :=
      match exog with
      | Some _ => [ExogIgnored]
      | None => []
      end in
    f ← super_predict self start end_ exog dynamic alpha kwargs;
    Ok (f, warnings).

(** [SARIMAXResults.forecast]: through the parent's [forecast] back to
    [predict], with [exog] among the keyword arguments. *)
Definition forecast (self : t) (steps : Z) (exog : option ndarray)
    (alpha : R) (kwargs : Kwargs) : result (Forecast * list warning) :=
  MLEResults.forecast
    (λ start end_, predict self start end_ exog 0 alpha kwargs)
    (nobs self) steps.
End Predict.

(** "Distinguish parameters" in [SARIMAXResults.__init__]:
    [for name in self.params_included: end += self.model_orders[name];
     setattr(self, '_params_%s' % name, self.params[start:end]);
     start += self.model_orders[name]]; the attributes set are collected
    in a dictionary. *)
Fixpoint distinguish (model_orders : gmap string Z) (params : list R)
    (params_included : list string) (start end_ : Z)
    (attributes : gmap string (list R)) : result (gmap string (list R)) :=
  match params_included with
  | [] => Ok attributes
  | name :: rest =>
      k ← SARIMAX.dict_getitem model_orders name;
      let end_ := (end_ + k)%Z in
      let attributes :=
        <["_params_" +:+ name := getslice params (Some start) (Some end_)]>
          attributes in
      k ← SARIMAX.dict_getitem model_orders name;
      let start := (start + k)%Z in
      distinguish model_orders params rest start end_ attributes
  end.

(** The attributes [_params_<name>] of the results of a fit with the
    parameters [params]. *)
Definition distinguished (self : t) (params : list R)
  : result (gmap string (list R)) :=
  params_included ← SARIMAX.params_included (model self);
  distinguish (SARIMAX.model_orders (model self)) params params_included
    0 0 ∅.

(** The properties [arparams] and [maparams], over the attributes;
    [None] is an attribute that was never set. *)
Definition arparams (attributes : gmap string (list R)) : option (list R) :=
  attributes !! "_params_ar".
Definition maparams (attributes : gmap string (list R)) : option (list R) :=
  attributes !! "_params_ma".

End SARIMAXResults.

(** ** Concrete models and inputs *)

Module Examples.
Import SARIMAX.

(** The defaults of [SARIMAX.__init__]: [order=(1, 0, 0)],
    [seasonal_order=(0, 0, 0, 0)], no trend, no regressors. *)
Definition defaults : ModelSpec :=
  {| arg_exog := None;
     arg_order := (LagInt 1, 0%Z, LagInt 0);
     arg_seasonal_order := (LagInt 0, 0%Z, LagInt 0, 0%Z);
     arg_trend := TrendNone;
     arg_measurement_error := false;
     arg_time_varying_regression := false;
     arg_mle_regression := true;
     arg_simple_differencing := false;
     arg_enforce_stationarity := true;
     arg_enforce_invertibility := true;
     arg_hamilton_representation := false |}.

(** [order=(1, 0, 0), seasonal_order=(1, 0, 0, 4)] *)
Definition ar1_sar1_quarterly : ModelSpec :=
  {| arg_exog := None;
     arg_order := (LagInt 1, 0%Z, LagInt 0);
     arg_seasonal_order := (LagInt 1, 0%Z, LagInt 0, 4%Z);
     arg_trend := TrendNone;
     arg_measurement_error := false;
     arg_time_varying_regression := false;
     arg_mle_regression := true;
     arg_simple_differencing := false;
     arg_enforce_stationarity := true;
     arg_enforce_invertibility := true;
     arg_hamilton_representation := false |}.

(** [order=(0, 0, 0), seasonal_order=(1, 0, 0, 4)] *)
Definition sar1_quarterly : ModelSpec :=
  {| arg_exog := None;
     arg_order := (LagInt 0, 0%Z, LagInt 0);
     arg_seasonal_order := (LagInt 1, 0%Z, LagInt 0, 4%Z);
     arg_trend := TrendNone;
     arg_measurement_error := false;
     arg_time_varying_regression := false;
     arg_mle_regression := true;
     arg_simple_differencing := false;
     arg_enforce_stationarity := true;
     arg_enforce_invertibility := true;
     arg_hamilton_representation := false |}.

(** [order=(1, 0, 0), enforce_stationarity=False] *)
Definition ar1_unenforced : ModelSpec :=
  {| arg_exog := None;
     arg_order := (LagInt 1, 0%Z, LagInt 0);
     arg_seasonal_order := (LagInt 0, 0%Z, LagInt 0, 0%Z);
     arg_trend := TrendNone;
     arg_measurement_error := false;
     arg_time_varying_regression := false;
     arg_mle_regression := true;
     arg_simple_differencing := false;
     arg_enforce_stationarity := false;
     arg_enforce_invertibility := true;
     arg_hamilton_representation := false |}.

(** [order=(1, 0, 0)] with a [10 x 2] regressor matrix. *)
Definition ar1_two_regressors : ModelSpec :=
  {| arg_exog := Some [10%Z; 2%Z];
     arg_order := (LagInt 1, 0%Z, LagInt 0);
     arg_seasonal_order := (LagInt 0, 0%Z, LagInt 0, 0%Z);
     arg_trend := TrendNone;
     arg_measurement_error := false;
     arg_time_varying_regression := false;
     arg_mle_regression := true;
     arg_simple_differencing := false;
     arg_enforce_stationarity := true;
     arg_enforce_invertibility := true;
     arg_hamilton_representation := false |}.

Definition no_model : Model :=
  {| k_seasons := 0; measurement_error := false;
     time_varying_regression := false; mle_regression := false;
     simple_differencing := false; enforce_stationarity := false;
     enforce_invertibility := false; hamilton_representation := false;
     polynomial_ar := []; polynomial_ma := [];
     polynomial_seasonal_ar := []; polynomial_seasonal_ma := [];
     trend := TrendNone; polynomial_trend := [];
     k_ar := 0; k_ar_params := 0; k_diff := 0; k_ma := 0; k_ma_params := 0;
     k_seasonal_ar := 0; k_seasonal_ar_params := 0; k_seasonal_diff := 0;
     k_seasonal_ma := 0; k_seasonal_ma_params := 0;
     _k_diff := 0; _k_seasonal_diff := 0; k_trend := 0; _k_order := 0;
     k_exog := 0; state_regression := false; state_error := false;
     k_params := 0; k_states := 0; k_posdef := 0; k_diffuse_states := 0;
     initial_variance_kwarg := None |}.

(** The object a constructor call returns ([no_model] if it raises). *)
Definition constructed_from (a : ModelSpec) : Model :=
  match __init__ a with
  | Ok m => m
  | Raise _ => no_model
  end.

Definition defaults_model : Model :=
  Eval vm_compute in constructed_from defaults.
Definition ar1_unenforced_model : Model :=
  Eval vm_compute in constructed_from ar1_unenforced.
Definition ar1_two_regressors_model : Model :=
  Eval vm_compute in constructed_from ar1_two_regressors.

(** A root test for a single coefficient, and stand-ins for the numerical
    routines around [start_params] on a series that needs no differencing
    and whose regression returns the coefficient [3/2]. *)
Definition is_invertible1 (coefs : list R) : bool :=
  match coefs with
  | [x] => if Rlt_dec (Rabs x) 1 then true else false
  | _ => true
  end.
Definition no_diff (y : list R) (d D s : Z) : result (list R) := Ok y.
Definition no_diff_exog (x : list (list R)) (d D s : Z)
  : result (list (list R)) := Ok x.
Definition no_pinv_dot (x : list (list R)) (y : list R) : result (list R) :=
  Ok [].
Definition never_nan (y : R) : bool := false.
Definition no_proxy (y : list R) (k : Z) : result (list R) := Ok y.
Definition explosive_regression (y : list R) (k_ar : Z) (pa : list Z)
    (k_ma : Z) (pm : list Z) (k_trend : Z) (td : option (list (list R)))
    (res : option (list R)) : result (list R * list R) :=
  Ok ([(3 / 2)%R], y).
Definition short_series : Data :=
  {| endog := [1%R; 2%R; 3%R]; exog := None; _trend_data := [[]; []; []] |}.

(** A fitted AR(1) model with two regressors over ten observations, and
    the index resolution of the time-series base class for integer
    positions. *)
Definition fitted_with_regressors : SARIMAXResults.t :=
  {| SARIMAXResults.model := ar1_two_regressors_model;
     SARIMAXResults.nobs := 10 |}.
Definition predict_start_int (self : SARIMAXResults.t)
    (start : MLEResults.time_index) : result Z :=
  match start with
  | MLEResults.Observation t => Ok t
  | MLEResults.Date _ => Raise (ValueError "date index not available")
  end.
Definition predict_end_int (self : SARIMAXResults.t)
    (end_ : option MLEResults.time_index) : result (Z * Z) :=
  match end_ with
  | None => Ok ((SARIMAXResults.nobs self - 1)%Z, 0%Z)
  | Some (MLEResults.Observation t) =>
      if (SARIMAXResults.nobs self - 1 <? t)%Z
      then Ok ((SARIMAXResults.nobs self - 1)%Z,
               (t - (SARIMAXResults.nobs self - 1))%Z)
      else Ok (t, 0%Z)
  | Some (MLEResults.Date _) => Raise (ValueError "date index not available")
  end.

(** Results with an empty parameter vector over a hundred observations,
    and results of a one-parameter fit. *)
Definition no_parameters : MLEResults.t :=
  {| MLEResults.loglikelihood := [];
     MLEResults.loglikelihood_burn := 0;
     MLEResults.params := [];
     MLEResults.nobs := 100 |}.
Definition one_parameter : MLEResults.t :=
  {| MLEResults.loglikelihood := [(-1)%R; (-2)%R];
     MLEResults.loglikelihood_burn := 0;
     MLEResults.params := [1%R];
     MLEResults.nobs := 100 |}.

(** An object of the base class with assigned starting parameters. *)
Definition plain_model : MLEModel.plain :=
  {| MLEModel.plain_nobs := 10;
     MLEModel.plain_params := None;
     MLEModel._start_params := Some [1%R];
     MLEModel.plain_loglikelihood := (-5)%R |}.

(** [order=(1, 0, 0), hamilton_representation=True] *)
Definition ar1_hamilton : ModelSpec :=
  {| arg_exog := None;
     arg_order := (LagInt 1, 0%Z, LagInt 0);
     arg_seasonal_order := (LagInt 0, 0%Z, LagInt 0, 0%Z);
     arg_trend := TrendNone;
     arg_measurement_error := false;
     arg_time_varying_regression := false;
     arg_mle_regression := true;
     arg_simple_differencing := false;
     arg_enforce_stationarity := true;
     arg_enforce_invertibility := true;
     arg_hamilton_representation := true |}.

(** [order=(1, 1, 0), simple_differencing=True] *)
Definition ar1_differenced : ModelSpec :=
  {| arg_exog := None;
     arg_order := (LagInt 1, 1%Z, LagInt 0);
     arg_seasonal_order := (LagInt 0, 0%Z, LagInt 0, 0%Z);
     arg_trend := TrendNone;
     arg_measurement_error := false;
     arg_time_varying_regression := false;
     arg_mle_regression := true;
     arg_simple_differencing := true;
     arg_enforce_stationarity := true;
     arg_enforce_invertibility := true;
     arg_hamilton_representation := false |}.

(** [order=(1, 0, 0), trend='ct'] *)
Definition ar1_with_drift : ModelSpec :=
  {| arg_exog := None;
     arg_order := (LagInt 1, 0%Z, LagInt 0);
     arg_seasonal_order := (LagInt 0, 0%Z, LagInt 0, 0%Z);
     arg_trend := TrendCT;
     arg_measurement_error := false;
     arg_time_varying_regression := false;
     arg_mle_regression := true;
     arg_simple_differencing := false;
     arg_enforce_stationarity := true;
     arg_enforce_invertibility := true;
     arg_hamilton_representation := false |}.

Definition ar1_sar1_quarterly_model : Model :=
  Eval vm_compute in constructed_from ar1_sar1_quarterly.
Definition ar1_hamilton_model : Model :=
  Eval vm_compute in constructed_from ar1_hamilton.
Definition ar1_differenced_model : Model :=
  Eval vm_compute in constructed_from ar1_differenced.
Definition ar1_with_drift_model : Model :=
  Eval vm_compute in constructed_from ar1_with_drift.
(** The AR(1) model with two regressors and [mle_regression=False]. *)
Definition ar1_state_regressors_model : Model :=
  Eval vm_compute in constructed_from (without_mle ar1_two_regressors).

(** [order=(1, 0, 0), seasonal_order=(1, 0, 1, 4),
    enforce_stationarity=False] *)
Definition ar1_sarma_quarterly : ModelSpec :=
  {| arg_exog := None;
     arg_order := (LagInt 1, 0%Z, LagInt 0);
     arg_seasonal_order := (LagInt 1, 0%Z, LagInt 1, 4%Z);
     arg_trend := TrendNone;
     arg_measurement_error := false;
     arg_time_varying_regression := false;
     arg_mle_regression := true;
     arg_simple_differencing := false;
     arg_enforce_stationarity := false;
     arg_enforce_invertibility := true;
     arg_hamilton_representation := false |}.
Definition ar1_sarma_quarterly_model : Model :=
  Eval vm_compute in constructed_from ar1_sarma_quarterly.

(** A stand-in for the regression with one coefficient per column of its
    design matrix: [1/10] for every included AR lag, [3/2] for every
    included MA lag, and one residual per row; and five years of quarterly
    observations. *)
Definition lagged_regression (y : list R) (k_ar : Z) (pa : list Z)
    (k_ma : Z) (pm : list Z) (k_trend : Z) (td : option (list (list R)))
    (res : option (list R)) : result (list R * list R) :=
  Ok (replicate (Z.to_nat k_trend) 0%R
      ++ replicate (length (tail (nonzero pa))) (1 / 10)%R
      ++ replicate (length (tail (nonzero pm))) (3 / 2)%R,
      drop (Z.to_nat (Z.max (3 * k_ma) k_ar)) y).
Definition quarterly_series : Data :=
  {| endog := [1; 2; 3; 4; 1; 2; 3; 4; 1; 2; 3; 4; 1; 2; 3; 4; 1; 2; 3; 4]%R;
     exog := None;
     _trend_data := replicate 20 [] |}.

(** [order=(0, 0, 0), mle_regression=False] with a [10 x 2] regressor
    matrix: a regression whose two coefficients are the state. *)
Definition regression_in_state : ModelSpec :=
  {| arg_exog := Some [10%Z; 2%Z];
     arg_order := (LagInt 0, 0%Z, LagInt 0);
     arg_seasonal_order := (LagInt 0, 0%Z, LagInt 0, 0%Z);
     arg_trend := TrendNone;
     arg_measurement_error := false;
     arg_time_varying_regression := false;
     arg_mle_regression := false;
     arg_simple_differencing := false;
     arg_enforce_stationarity := true;
     arg_enforce_invertibility := true;
     arg_hamilton_representation := false |}.
Definition regression_in_state_model : Model :=
  Eval vm_compute in constructed_from regression_in_state.

(** [order=(1, 1, 0), seasonal_order=(0, 1, 0, 4)]: five differencing
    states in front of the AR(1) state. *)
Definition ar1_integrated_quarterly : ModelSpec :=
  {| arg_exog := None;
     arg_order := (LagInt 1, 1%Z, LagInt 0);
     arg_seasonal_order := (LagInt 0, 1%Z, LagInt 0, 4%Z);
     arg_trend := TrendNone;
     arg_measurement_error := false;
     arg_time_varying_regression := false;
     arg_mle_regression := true;
     arg_simple_differencing := false;
     arg_enforce_stationarity := true;
     arg_enforce_invertibility := true;
     arg_hamilton_representation := false |}.
Definition ar1_integrated_quarterly_model : Model :=
  Eval vm_compute in constructed_from ar1_integrated_quarterly.

(** Results over three observations whose first value falls into the
    burn-in. *)
Definition burnt_in : MLEResults.t :=
  {| MLEResults.loglikelihood := [(-10)%R; (-1)%R; (-2)%R];
     MLEResults.loglikelihood_burn := 1;
     MLEResults.params := [1%R];
     MLEResults.nobs := 3 |}.

(** An object whose parent class reports the [recreate] flag it is
    called with: 1 for [True], 0 otherwise. *)
Definition recreate_probe : MLEModel.Interface unit unit unit := {|
  MLEModel.nobs := λ _, 1%Z;
  MLEModel.params := λ _, None;
  MLEModel.start_params := λ _, Ok [];
  MLEModel.transform_params := λ _ unconstrained, Ok unconstrained;
  MLEModel.untransform_params := λ _ constrained, Ok constrained;
  MLEModel.update := λ self p _ _, Ok (p, self);
  MLEModel.super_fit := λ self _, Ok ((), self);
  MLEModel.mlefit_params := λ _, [];
  MLEModel.filter := λ self _, Ok ((), self);
  MLEModel.super_loglike := λ self kwargs,
    Ok (match kwargs !! "recreate" with
        | Some (MLEModel.VBool true) => 1%R
        | _ => 0%R
        end, self)
|}.

End Examples.

(** * Properties *)

Import SARIMAX.

(** ** The constructor *)

(** Case analysis of a successful constructor call: every step that can
    raise is resolved, and the hypothesis becomes the record equation. *)
Ltac init_inv H :=
  unfold __init__ in H;
  destruct (arg_order _) as [[? ?] ?];
  destruct (arg_seasonal_order _) as [[[? ?] ?] ?];
  repeat match type of H with
         | (if ?b then _ else _) = Ok _ =>
             let E := fresh "E" in destruct b eqn:E; [discriminate H|]
         | mbind _ ?r = Ok _ =>
             let E := fresh "E" in
             destruct r eqn:E; [|discriminate H]; cbn [mbind result_bind] in H
         end;
  injection H as H.

Lemma defaults_constructed :
  __init__ Examples.defaults = Ok Examples.defaults_model.
Proof. vm_compute. reflexivity. Qed.

Lemma ar1_unenforced_constructed :
  __init__ Examples.ar1_unenforced = Ok Examples.ar1_unenforced_model.
Proof. vm_compute. reflexivity. Qed.

Lemma ar1_two_regressors_constructed :
  __init__ Examples.ar1_two_regressors = Ok Examples.ar1_two_regressors_model.
Proof. vm_compute. reflexivity. Qed.

(** The count the constructor stores in [k_params], as it sums it. *)
Lemma k_params_as_summed a m :
  __init__ a = Ok m →
  k_params m =
    (k_ar_params m + k_ma_params m
     + k_seasonal_ar_params m + k_seasonal_ar_params m
     + k_trend m + Z.b2z (measurement_error m) + 1
     + (if mle_regression m then k_exog m else 0))%Z.
Proof. intros H. init_inv H. by subst m. Qed.

(** No constructed model has time-varying regression coefficients. *)
Lemma constructed_not_time_varying a m :
  __init__ a = Ok m → time_varying_regression m = false.
Proof.
  intros H. init_inv H. subst m. cbn.
  by destruct (arg_time_varying_regression _).
Qed.

(** How far [k_params] is from the segment sum: the seasonal AR count
    stands where the seasonal MA count belongs, and the state variance is
    counted whether or not the model has one. *)
Lemma k_params_excess a m :
  __init__ a = Ok m →
  k_params m =
    (spec_segments_total m
     + (k_seasonal_ar_params m - k_seasonal_ma_params m)
     + (1 - Z.b2z (state_error m)))%Z.
Proof.
  intros H. rewrite (k_params_as_summed a m H). unfold spec_segments_total.
  rewrite (constructed_not_time_varying a m H).
  destruct (measurement_error m), (state_error m), (mle_regression m); cbn; lia.
Qed.

(** C1 (evaluation): for [order=(1,0,0)], [seasonal_order=(1,0,0,4)] the
    constructor stores [k_params = 4], while the segments of the
    parameter vector (one AR coefficient, one seasonal AR coefficient and
    the state variance) sum to 3. *)
Theorem k_params_counts_seasonal_ar_twice :
  k_params <$> __init__ Examples.ar1_sar1_quarterly = Ok 4%Z
  ∧ spec_segments_total <$> __init__ Examples.ar1_sar1_quarterly = Ok 3%Z.
Proof. split; vm_compute; reflexivity. Qed.

(** The state dimension as the constructor computes it. *)
Lemma k_states_as_computed a m :
  __init__ a = Ok m →
  k_states m =
    (_k_order m
     + (if simple_differencing m then 0
        else k_seasons m * k_seasonal_diff m + k_diff m)
     + (if state_regression m then k_exog m else 0))%Z
  ∧ _k_order m =
      (if ((k_ar m =? k_ma m) && (k_ma m =? 0))%Z then 0
       else Z.max (k_ar m + k_seasonal_ar m) (k_ma m + k_seasonal_ma m + 1))%Z.
Proof. intros H. init_inv H. by subst m. Qed.

(** C3 (evaluation): for the purely seasonal model [order=(0,0,0)],
    [seasonal_order=(1,0,0,4)] the constructor gives [k_states = 0],
    while the three components sum to 4 (combined AR order 4, no
    differencing, no regression). *)
Theorem k_states_ignores_seasonal_order :
  k_states <$> __init__ Examples.sar1_quarterly = Ok 0%Z
  ∧ (λ m, spec_order_component m + spec_differencing_component m
          + spec_regression_component m)%Z
      <$> __init__ Examples.sar1_quarterly = Ok 4%Z.
Proof. split; vm_compute; reflexivity. Qed.

(** Every lag polynomial keeps its constant term, so the orders are
    non-negative. *)
Lemma lag_polynomial_length o l :
  lag_polynomial o = Ok l → 1 ≤ length l.
Proof.
  destruct o as [k|flags]; cbn.
  - destruct (k <? 0)%Z; [done|]. intros [= <-]. cbn. lia.
  - intros [= <-]. cbn. lia.
Qed.

Lemma setitem_length {A} (l l' : list A) i x :
  setitem l i x = Ok l' → length l' = length l.
Proof.
  unfold setitem. destruct (index (length l) i); cbn; [|done].
  intros [= <-]. apply length_insert.
Qed.

Lemma place_seasonal_length s flags : ∀ i poly poly',
  place_seasonal s i flags poly = Ok poly' → length poly' = length poly.
Proof.
  induction flags as [|f flags IH]; intros i poly poly'; cbn.
  - by intros [= <-].
  - destruct (setitem poly ((i + 1) * s) f) as [p|] eqn:E; cbn; [|done].
    intros H. rewrite (IH _ _ _ H). by eapply setitem_length.
Qed.

Lemma seasonal_lag_polynomial_length s o l :
  seasonal_lag_polynomial s o = Ok l → 1 ≤ length l.
Proof.
  destruct o as [k|flags]; cbn.
  - intros [= <-]. cbn. lia.
  - intros H. apply place_seasonal_length in H. rewrite H. cbn. lia.
Qed.

Lemma orders_nonnegative a m :
  __init__ a = Ok m →
  (0 ≤ k_ar m ∧ 0 ≤ k_ma m ∧ 0 ≤ k_seasonal_ar m ∧ 0 ≤ k_seasonal_ma m)%Z.
Proof.
  intros H. init_inv H. subst m. cbn.
  repeat match goal with
         | E : lag_polynomial _ = Ok _ |- _ =>
             apply lag_polynomial_length in E
         | E : seasonal_lag_polynomial _ _ = Ok _ |- _ =>
             apply seasonal_lag_polynomial_length in E
         end.
  lia.
Qed.

(** Where the constructor and the three components agree: whenever the
    model has a non-seasonal AR or MA order, or no seasonal order. *)
Lemma k_states_components a m :
  __init__ a = Ok m →
  (k_ar m ≠ 0 ∨ k_ma m ≠ 0 ∨ k_seasonal_ar m + k_seasonal_ma m = 0)%Z →
  k_states m =
    (spec_order_component m + spec_differencing_component m
     + spec_regression_component m)%Z.
Proof.
  intros H Hcase.
  destruct (k_states_as_computed a m H) as [-> ->].
  destruct (orders_nonnegative a m H) as (? & ? & ? & ?).
  unfold spec_order_component, spec_differencing_component,
    spec_regression_component.
  destruct (simple_differencing m), (state_regression m);
    repeat match goal with
           | |- context [(?x =? ?y)%Z] => destruct (Z.eqb_spec x y)
           end; cbn [andb]; lia.
Qed.

Lemma arguments_not_time_varying a m :
  __init__ a = Ok m → arg_time_varying_regression a = false.
Proof.
  intros H. unfold __init__ in H.
  destruct (arg_order a) as [[? ?] ?].
  destruct (arg_seasonal_order a) as [[[? ?] ?] ?].
  destruct (arg_time_varying_regression a); [|done].
  by destruct (arg_mle_regression a).
Qed.

(** The regression attributes as the constructor sets them. *)
Lemma regression_as_set a m :
  __init__ a = Ok m →
  match arg_exog a with
  | None => Ok 0%Z
  | Some shape => exog_columns shape
  end = Ok (k_exog m)
  ∧ mle_regression m =
      arg_mle_regression a && bool_decide (arg_exog a ≠ None)
      && (0 <? k_exog m)%Z
  ∧ state_regression m =
      negb (mle_regression m) && bool_decide (arg_exog a ≠ None)
      && (0 <? k_exog m)%Z.
Proof. intros H. init_inv H. by subst m. Qed.

Lemma no_regressors_no_columns a m :
  (arg_exog a = None
   ∨ ∃ shape, arg_exog a = Some shape ∧ exog_columns shape = Ok 0%Z) →
  __init__ a = Ok m →
  bool_decide (arg_exog a ≠ None) && (0 <? k_exog m)%Z = false.
Proof.
  intros Hexog H. destruct (regression_as_set a m H) as (Hk & _).
  destruct Hexog as [E|(shape & E & Hcols)]; rewrite E in *.
  - done.
  - replace (k_exog m) with 0%Z by congruence. apply andb_false_r.
Qed.

(** C10: a model constructed with [mle_regression=True] but without
    regressors ([exog] absent, or with zero columns) is the model
    constructed with [mle_regression=False]: the attribute is reset, the
    parameter count has no term for regression coefficients, and the
    regression block of both transforms leaves the cursor where it is. *)
Theorem mle_regression_needs_regressors a m :
  arg_mle_regression a = true →
  (arg_exog a = None
   ∨ ∃ shape, arg_exog a = Some shape ∧ exog_columns shape = Ok 0%Z) →
  __init__ a = Ok m →
  mle_regression m = false
  ∧ __init__ (without_mle a) = Ok m
  ∧ k_params m =
      (k_ar_params m + k_ma_params m
       + k_seasonal_ar_params m + k_seasonal_ar_params m
       + k_trend m + Z.b2z (measurement_error m) + 1)%Z
  ∧ len_exog m = 0%Z
  ∧ ∀ src c, exog_block m src c = Ok c.
Proof.
  intros Hmle Hexog H.
  pose proof (no_regressors_no_columns a m Hexog H) as Hnone.
  assert (mle_regression m = false) as Hoff.
  { destruct (regression_as_set a m H) as (_ & -> & _).
    by rewrite <- andb_assoc, Hnone, andb_false_r. }
  split; [done|]. split; [|split; [|split]].
  - destruct (regression_as_set a m H) as (Hk & _ & _).
    pose proof (arguments_not_time_varying a m H) as Htv.
    rewrite <- H. unfold __init__, without_mle. cbn.
    destruct (arg_order a) as [[? ?] ?].
    destruct (arg_seasonal_order a) as [[[? ?] ?] ?].
    rewrite Hmle, Hk, Htv. cbn [andb].
    repeat (match goal with
            | |- mbind _ ?r = mbind _ ?r =>
                destruct r; cbn [mbind result_bind]; [|done]
            | |- (if ?b then _ else _) = (if ?b then _ else _) =>
                destruct b; [done|]
            end).
    rewrite !Hnone. cbn [negb andb]. by rewrite ?Hnone.
  - rewrite (k_params_as_summed a m H), Hoff. lia.
  - unfold len_exog. by rewrite Hoff.
  - intros src c. unfold exog_block. by rewrite Hoff.
Qed.

Lemma mle_regression_needs_regressors_witness :
  mle_regression Examples.defaults_model = false
  ∧ __init__ (without_mle Examples.defaults) = Ok Examples.defaults_model.
Proof.
  pose proof (mle_regression_needs_regressors Examples.defaults
                Examples.defaults_model eq_refl (or_introl eq_refl)
                defaults_constructed) as (H1 & H2 & _).
  exact (conj H1 H2).
Defined.

(** ** Slices of concatenations *)

Section slices.
Context {A : Type}.
Implicit Types pre seg post rhs : list A.

Lemma slice_bounds_app (a b c : nat) :
  slice_bounds (Z.of_nat (a + b + c)) (Some (Z.of_nat a))
    (Some (Z.of_nat a + Z.of_nat b)%Z)
  = (a, b).
Proof.
  unfold slice_bounds, clip.
  destruct (Z.ltb_spec (Z.of_nat a) 0); [lia|].
  destruct (Z.ltb_spec (Z.of_nat a + Z.of_nat b) 0); [lia|].
  f_equal; lia.
Qed.

Lemma getslice_app pre seg post :
  getslice (pre ++ seg ++ post) (Some (Z.of_nat (length pre)))
    (Some (Z.of_nat (length pre) + Z.of_nat (length seg))%Z) = seg.
Proof.
  unfold getslice. rewrite !length_app, Nat.add_assoc, slice_bounds_app.
  by rewrite drop_app_length, take_app_length.
Qed.

Lemma setslice_app pre seg post rhs :
  length rhs = length seg →
  setslice (pre ++ seg ++ post) (Some (Z.of_nat (length pre)))
    (Some (Z.of_nat (length pre) + Z.of_nat (length seg))%Z) rhs
  = Ok (pre ++ rhs ++ post).
Proof.
  intros Hlen. unfold setslice.
  rewrite !length_app, Nat.add_assoc, slice_bounds_app.
  rewrite decide_True by done.
  rewrite take_app_length.
  assert (drop (length pre + length seg) (pre ++ seg ++ post) = post)
    as ->; [|done].
  rewrite app_assoc. apply drop_app_length'. by rewrite length_app.
Qed.

Lemma setslice_at pre seg post rhs (a b : nat) :
  a = length pre → b = length seg → length rhs = b →
  setslice (pre ++ seg ++ post) (Some (Z.of_nat a))
    (Some (Z.of_nat a + Z.of_nat b)%Z) rhs
  = Ok (pre ++ rhs ++ post).
Proof. intros -> -> H. by apply setslice_app. Qed.

Lemma index_app (a b : nat) : index (a + S b) (Z.of_nat a) = Ok a.
Proof.
  unfold index.
  destruct (Z.leb_spec (- Z.of_nat (a + S b)) (Z.of_nat a)); [|lia].
  destruct (Z.ltb_spec (Z.of_nat a) (Z.of_nat (a + S b))); [|lia].
  destruct (Z.ltb_spec (Z.of_nat a) 0); [lia|].
  cbn. by rewrite Nat2Z.id.
Qed.

Lemma getitem_app pre x post :
  getitem (pre ++ x :: post) (Z.of_nat (length pre)) = Ok x.
Proof.
  unfold getitem. rewrite length_app. cbn [length]. rewrite index_app.
  cbn. by rewrite list_lookup_middle.
Qed.

Lemma setitem_app pre x y post :
  setitem (pre ++ x :: post) (Z.of_nat (length pre)) y = Ok (pre ++ y :: post).
Proof.
  unfold setitem. rewrite length_app. cbn [length]. rewrite index_app.
  cbn. f_equal. rewrite insert_app_r_alt by lia.
  by rewrite Nat.sub_diag.
Qed.
End slices.


(** ** The parameter transforms *)

Lemma walk_transform cs m u : transform_params cs m u = walk cs square m u.
Proof. reflexivity. Qed.

Lemma walk_untransform ucs m c :
  untransform_params ucs m c = walk ucs square_root m c.
Proof. reflexivity. Qed.

Lemma segment_laid_out f k src c seen produced seg rest :
  laid_out src c seen produced (seg ++ rest) →
  k = Z.of_nat (length seg) →
  length (f seg) = length seg →
  ∃ c', segment f k src c = Ok c'
        ∧ laid_out src c' (seen ++ seg) (produced ++ f seg) rest.
Proof.
  intros (Hsrc & Hout & Hstart & Hend & Hlen) -> Hf.
  unfold segment. rewrite Hend, Hstart, Hsrc, Hout.
  rewrite getslice_app, length_app, replicate_add.
  rewrite (setslice_at _ _ _ _ (length seen) (length seg));
    [|done|by rewrite length_replicate|done].
  cbn. eexists; split; [done|].
  repeat split; cbn.
  - by rewrite <- app_assoc.
  - by rewrite <- app_assoc.
  - rewrite length_app. lia.
  - rewrite !length_app. lia.
Qed.

Lemma element_laid_out f advance src c seen produced x rest :
  laid_out src c seen produced (x :: rest) →
  ∃ c', element f advance src c = Ok c'
        ∧ out c' = produced ++ f x :: replicate (length rest) 0%R
        ∧ (advance = true →
           laid_out src c' (seen ++ [x]) (produced ++ [f x]) rest).
Proof.
  intros (Hsrc & Hout & Hstart & Hend & Hlen).
  unfold element. rewrite Hstart, Hsrc, Hout, getitem_app. cbn.
  rewrite <- Hlen, setitem_app. cbn.
  destruct advance; eexists; (split; [done|]); cbn; (split; [done|]); [|done].
  intros _. unfold laid_out; cbn. rewrite <- !app_assoc, !length_app. cbn.
  split_and!; [done|done|lia|lia|lia].
Qed.

Lemma laid_out_start src : 
  laid_out src
    {| start := 0; end_ := 0; out := replicate (length src) 0%R |} [] [] src.
Proof. by unfold laid_out. Qed.

Lemma guarded_segment_laid_out (g : bool) f k src c seen produced seg rest :
  laid_out src c seen produced (seg ++ rest) →
  (g = true → k = Z.of_nat (length seg)) →
  (g = false → seg = []) →
  length (f seg) = length seg →
  ∃ c', (if g then segment f k src c else Ok c) = Ok c'
        ∧ laid_out src c' (seen ++ seg) (produced ++ f seg) rest.
Proof.
  intros L Hk Hnil Hf. destruct g.
  - apply segment_laid_out; auto.
  - rewrite Hnil in * by done. apply nil_length_inv in Hf. rewrite Hf.
    exists c. by rewrite !app_nil_r.
Qed.

Lemma length_zero_nil {A} (l : list A) (k : Z) :
  Z.of_nat (length l) = k → (0 <? k)%Z = false → l = [].
Proof. intros <- H. apply nil_length_inv. lia. Qed.

Section layout.
Variable f : list R → list R.
Variable var : R → R.
Variable m : Model.
Hypothesis f_length : ∀ l, length (f l) = length l.

Local Ltac by_guard L Hk g h :=
  apply (guarded_segment_laid_out g h);
  [ exact L
  | let E := fresh in intros E; rewrite E in Hk; symmetry; exact Hk
  | let E := fresh in intros E; rewrite E in Hk; apply nil_length_inv; lia
  | try done ].

Lemma trend_block_laid_out src c seen produced seg rest :
  laid_out src c seen produced (seg ++ rest) →
  Z.of_nat (length seg) = len_trend m →
  ∃ c', trend_block m src c = Ok c'
        ∧ laid_out src c' (seen ++ seg) (produced ++ seg) rest.
Proof.
  unfold len_trend, trend_block. intros L Hk.
  apply (guarded_segment_laid_out (0 <? k_trend m)%Z retain); auto.
  intros E. apply nil_length_inv. lia.
Qed.

Lemma exog_block_laid_out src c seen produced seg rest :
  laid_out src c seen produced (seg ++ rest) →
  Z.of_nat (length seg) = len_exog m →
  ∃ c', exog_block m src c = Ok c'
        ∧ laid_out src c' (seen ++ seg) (produced ++ seg) rest.
Proof.
  unfold len_exog, exog_block. intros L Hk.
  by_guard L Hk (mle_regression m) retain.
Qed.

Lemma lag_block_laid_out guard enforce k src c seen produced seg rest :
  laid_out src c seen produced (seg ++ rest) →
  Z.of_nat (length seg) = (if (0 <? guard)%Z then k else 0%Z) →
  ∃ c', lag_block guard enforce f k src c = Ok c'
        ∧ laid_out src c' (seen ++ seg)
            (produced ++ through enforce f seg) rest.
Proof.
  intros L Hk. unfold lag_block, through. destruct enforce.
  - by_guard L Hk (0 <? guard)%Z f.
  - by_guard L Hk (0 <? guard)%Z retain.
Qed.

Lemma exog_variance_block_laid_out src c seen produced seg rest :
  laid_out src c seen produced (seg ++ rest) →
  Z.of_nat (length seg) = len_exog_variance m →
  ∃ c', exog_variance_block var m src c = Ok c'
        ∧ laid_out src c' (seen ++ seg) (produced ++ (var <$> seg)) rest.
Proof.
  unfold len_exog_variance, exog_variance_block. intros L Hk.
  by_guard L Hk (state_regression m && time_varying_regression m)
    (fmap (M:=list) var).
  by rewrite length_fmap.
Qed.

Lemma measurement_variance_block_laid_out src c seen produced seg rest :
  laid_out src c seen produced (seg ++ rest) →
  Z.of_nat (length seg) = len_measurement_variance m →
  ∃ c', measurement_variance_block var m src c = Ok c'
        ∧ laid_out src c' (seen ++ seg) (produced ++ (var <$> seg)) rest.
Proof.
  unfold len_measurement_variance, measurement_variance_block. intros L Hk.
  destruct (measurement_error m); cbn in Hk.
  - destruct seg as [|x [|??]]; cbn in Hk; try lia.
    destruct (element_laid_out var true _ _ _ _ _ _ L) as (c' & -> & _ & L').
    eauto.
  - assert (seg = []) as -> by (apply nil_length_inv; lia). exists c.
    by rewrite !app_nil_r.
Qed.

Lemma variance_block_out src c seen produced seg rest :
  laid_out src c seen produced (seg ++ rest) →
  Z.of_nat (length seg) = len_variance m →
  ∃ c', variance_block var m src c = Ok c'
        ∧ out c' = produced ++ (var <$> seg) ++ replicate (length rest) 0%R.
Proof.
  unfold len_variance, variance_block. intros L Hk.
  destruct (state_error m); cbn in Hk.
  - destruct seg as [|x [|??]]; cbn in Hk; try lia.
    destruct (element_laid_out var false _ _ _ _ _ _ L) as (c' & -> & Hout & _).
    eauto.
  - assert (seg = []) as -> by (apply nil_length_inv; lia). exists c.
    split; [done|]. by destruct L as (_ & -> & _).
Qed.

Theorem walk_layout (t x a b sa sb ev me sv rest : list R) :
  Z.of_nat (length t) = len_trend m →
  Z.of_nat (length x) = len_exog m →
  Z.of_nat (length a) = len_ar m →
  Z.of_nat (length b) = len_ma m →
  Z.of_nat (length sa) = len_seasonal_ar m →
  Z.of_nat (length sb) = len_seasonal_ma m →
  Z.of_nat (length ev) = len_exog_variance m →
  Z.of_nat (length me) = len_measurement_variance m →
  Z.of_nat (length sv) = len_variance m →
  walk f var m (t ++ x ++ a ++ b ++ sa ++ sb ++ ev ++ me ++ sv ++ rest)
  = Ok (t ++ x
        ++ through (enforce_stationarity m) f a
        ++ through (enforce_invertibility m) f b
        ++ through (enforce_stationarity m) f sa
        ++ through (enforce_invertibility m) f sb
        ++ (var <$> ev) ++ (var <$> me) ++ (var <$> sv)
        ++ replicate (length rest) 0%R).
Proof.
  intros Ht Hx Ha Hb Hsa Hsb Hev Hme Hsv. unfold walk.
  pose proof (laid_out_start
                (t ++ x ++ a ++ b ++ sa ++ sb ++ ev ++ me ++ sv ++ rest)) as L.
  destruct (trend_block_laid_out _ _ _ _ _ _ L Ht) as (c1 & -> & L1).
  cbn [mbind result_bind].
  destruct (exog_block_laid_out _ _ _ _ _ _ L1 Hx) as (c2 & -> & L2).
  cbn [mbind result_bind].
  destruct (lag_block_laid_out (k_ar_params m) (enforce_stationarity m)
              (k_ar_params m) _ _ _ _ a _ L2) as (c3 & -> & L3).
  { unfold len_ar in Ha. rewrite Ha. case_match; lia. }
  cbn [mbind result_bind].
  destruct (lag_block_laid_out (k_ma_params m) (enforce_invertibility m)
              (k_ma_params m) _ _ _ _ b _ L3) as (c4 & -> & L4).
  { unfold len_ma in Hb. rewrite Hb. case_match; lia. }
  cbn [mbind result_bind].
  destruct (lag_block_laid_out (k_seasonal_ar m) (enforce_stationarity m)
              (k_seasonal_ar_params m) _ _ _ _ sa _ L4) as (c5 & -> & L5).
  { exact Hsa. }
  cbn [mbind result_bind].
  destruct (lag_block_laid_out (k_seasonal_ma_params m)
              (enforce_invertibility m) (k_seasonal_ma_params m)
              _ _ _ _ sb _ L5) as (c6 & -> & L6).
  { unfold len_seasonal_ma in Hsb. rewrite Hsb. case_match; lia. }
  cbn [mbind result_bind].
  destruct (exog_variance_block_laid_out _ _ _ _ _ _ L6 Hev) as (c7 & -> & L7).
  cbn [mbind result_bind].
  destruct (measurement_variance_block_laid_out _ _ _ _ _ _ L7 Hme)
    as (c8 & -> & L8).
  cbn [mbind result_bind].
  destruct (variance_block_out _ _ _ _ _ _ L8 Hsv) as (c9 & -> & Hout).
  cbn [mbind result_bind]. rewrite Hout. cbn [app]. by rewrite <- !app_assoc.
Qed.
End layout.

Lemma square_root_square x : square_root (square x) = Rabs x.
Proof.
  unfold square_root, square.
  replace (x ^ 2)%R with (Rsqr x) by (unfold Rsqr; ring).
  apply sqrt_Rsqr_abs.
Qed.

Lemma fmap_square_root_square (l : list R) :
  square_root <$> (square <$> l) = Rabs <$> l.
Proof.
  induction l as [|y l IH]; [done|].
  by rewrite !fmap_cons, square_root_square, IH.
Qed.

Lemma through_length enforce f seg :
  (∀ l, length (f l) = length l) →
  length (through enforce f seg) = length seg.
Proof. intros Hf. destruct enforce; cbn; auto. Qed.

Lemma through_through enforce f g seg :
  through enforce g (through enforce f seg) = through enforce (g ∘ f) seg.
Proof. by destruct enforce. Qed.

(** C2 (amended): for every model and every vector cut into the nine
    segments of the model, [untransform_params (transform_params u)]
    returns the trend and regression segments of [u] unchanged, each
    lag-polynomial segment unchanged when its enforcement flag is off (and
    passed through the pair of stationarity maps when it is on), the
    absolute values of the three variance segments, and zeros beyond the
    last segment. *)
Theorem transform_roundtrip cs ucs m (t x a b sa sb ev me sv rest : list R) :
  (∀ l, length (cs l) = length l) →
  (∀ l, length (ucs l) = length l) →
  segmented m t x a b sa sb ev me sv →
  ∃ c,
    transform_params cs m
      (t ++ x ++ a ++ b ++ sa ++ sb ++ ev ++ me ++ sv ++ rest)
    = Ok c
    ∧ untransform_params ucs m c
      = Ok (t ++ x
            ++ through (enforce_stationarity m) (ucs ∘ cs) a
            ++ through (enforce_invertibility m) (ucs ∘ cs) b
            ++ through (enforce_stationarity m) (ucs ∘ cs) sa
            ++ through (enforce_invertibility m) (ucs ∘ cs) sb
            ++ (Rabs <$> ev) ++ (Rabs <$> me) ++ (Rabs <$> sv)
            ++ replicate (length rest) 0%R).
Proof.
  intros Hcs Hucs (Ht & Hx & Ha & Hb & Hsa & Hsb & Hev & Hme & Hsv).
  eexists. split.
  - rewrite walk_transform. by apply walk_layout.
  - rewrite walk_untransform, walk_layout;
      rewrite ?through_length, ?length_fmap; try done.
    rewrite !through_through, length_replicate.
    by rewrite !fmap_square_root_square.
Qed.

Lemma transform_roundtrip_witness :
  ∃ c,
    transform_params retain Examples.ar1_unenforced_model [(1 / 2)%R; 2%R]
    = Ok c
    ∧ untransform_params retain Examples.ar1_unenforced_model c
      = Ok [(1 / 2)%R; Rabs 2].
Proof.
  refine (transform_roundtrip retain retain Examples.ar1_unenforced_model
            [] [] [(1 / 2)%R] [] [] [] [] [] [2%R] []
            (λ _, eq_refl) (λ _, eq_refl) _).
  unfold segmented. repeat split.
Defined.

(** C2 (as stated) fails: on the AR(1) model constructed with
    [enforce_stationarity=False], the unconstrained vector [(1/2, -1)]
    comes back as [(1/2, 1)]: the state-variance entry has lost its sign. *)
Lemma roundtrip_loses_sign_of_variance :
  __init__ Examples.ar1_unenforced = Ok Examples.ar1_unenforced_model
  ∧ (c ← transform_params retain Examples.ar1_unenforced_model
           [(1 / 2)%R; (-1)%R];
     untransform_params retain Examples.ar1_unenforced_model c)
    = Ok [(1 / 2)%R; 1%R]
  ∧ [(1 / 2)%R; 1%R] ≠ [(1 / 2)%R; (-1)%R].
Proof.
  split; [exact ar1_unenforced_constructed|]. split.
  - assert (transform_params retain Examples.ar1_unenforced_model
              [(1 / 2)%R; (-1)%R] = Ok [(1 / 2)%R; square (-1)]) as ->.
    { refine (walk_layout retain square Examples.ar1_unenforced_model
                (λ _, eq_refl) [] [] [(1 / 2)%R] [] [] [] [] [] [(-1)%R] []
                _ _ _ _ _ _ _ _ _); reflexivity. }
    cbn [mbind result_bind].
    assert (untransform_params retain Examples.ar1_unenforced_model
              [(1 / 2)%R; square (-1)]
            = Ok [(1 / 2)%R; square_root (square (-1))]) as ->.
    { refine (walk_layout retain square_root Examples.ar1_unenforced_model
                (λ _, eq_refl) [] [] [(1 / 2)%R] [] [] [] [] []
                [square (-1)] []
                _ _ _ _ _ _ _ _ _); reflexivity. }
    rewrite square_root_square, Rabs_left by lra.
    do 3 f_equal. lra.
  - intros H. injection H as H. lra.
Qed.

(** ** The initialisation policy *)

(** A freshly constructed AR(1) model with [enforce_stationarity=False]
    has a diffuse state and is not manually initialised. *)
Lemma ar1_unenforced_not_manual v T R_ Q :
  _manual_initialization
    (constructed Examples.ar1_unenforced_model v T R_ Q) = false.
Proof. reflexivity. Qed.

(** Whatever the model, an automatic initialisation that returns leaves
    the known initialisation behind, never the approximate diffuse one. *)
Lemma initialize_state_ends_known solve self variance self' :
  _manual_initialization self = false →
  initialize_state solve self variance = Ok self' →
  ∃ initial_state initial_state_cov,
    initial_distribution self' = Some (Known initial_state initial_state_cov).
Proof.
  intros Hm H. unfold initialize_state in H. rewrite Hm in H.
  repeat match type of H with
         | (if ?b then _ else _) = Ok _ => destruct b; try discriminate H
         | (let '(_, _) := ?p in _) = Ok _ => destruct p
         | mbind _ ?r = Ok _ =>
             destruct r; cbn [mbind result_bind] in H; [|discriminate H]
         end;
    injection H as <-; cbn; eauto.
Qed.

(** C4 (evaluation): on the AR(1) model constructed with
    [enforce_stationarity=False] (transition [phi], selection [1], state
    covariance [s2], not manually initialised), [initialize_state] ends by
    installing the known initialisation whose covariance is the solution
    [p] of the Lyapunov solver, not [variance * I]. *)
Theorem initialize_state_falls_through
    (solve : matrix → matrix → result matrix) (phi s2 v p : R) :
  solve [[phi]] (dot (dot [[1%R]] [[s2]]) (transpose [[1%R]])) = Ok [[p]] →
  initial_distribution
    <$> initialize_state solve
          (constructed Examples.ar1_unenforced_model v [[phi]] [[1%R]] [[s2]])
          None
  = Ok (Some (Known [0%R] [[p]])).
Proof.
  intros Hsolve.
  lazy -[Rmult Rplus IZR mbind] in Hsolve |- *.
  rewrite Hsolve. reflexivity.
Qed.

Lemma initialize_state_falls_through_witness :
  initial_distribution
    <$> initialize_state (λ _ _, Ok [[(4 / 3)%R]])
          (constructed Examples.ar1_unenforced_model 1000000
             [[(1 / 2)%R]] [[1%R]] [[1%R]])
          None
  = Ok (Some (Known [0%R] [[(4 / 3)%R]])).
Proof.
  exact (initialize_state_falls_through (λ _ _, Ok [[(4 / 3)%R]])
           (1 / 2) 1 1000000 (4 / 3) eq_refl).
Defined.

(** ** The maximum-likelihood driver *)

Section driver_facts.
Import MLEModel.
Context {Self MLEFit Filtered : Type} `{!Interface Self MLEFit Filtered}.

(** Resolve the successive steps of a computation known to return. *)
Local Ltac steps H :=
  repeat match type of H with
         | mbind _ ?r = Ok _ =>
             let E := fresh "E" in
             destruct r as [?|] eqn:E; cbn [mbind result_bind] in H;
             [|discriminate H]
         | context [let '(_, _) := ?p in _] => destruct p
         | (if ?b then _ else _) = Ok _ => destruct b
         end.

Lemma setdefault_lookup key v (kwargs : gmap string value) :
  is_Some (setdefault key v kwargs !! key).
Proof.
  unfold setdefault. destruct (kwargs !! key) eqn:E.
  - by rewrite E.
  - by rewrite lookup_insert_eq.
Qed.

Lemma del_present key (kwargs : gmap string value) :
  is_Some (kwargs !! key) → del key kwargs = Ok (delete key kwargs).
Proof. intros [v E]. unfold del. by rewrite E. Qed.

(** The guard of the second pass, by method. *)
Lemma second_pass_guard bfgs_tune method :
  bfgs_tune && is_method method "lbfgs" || is_method method "bfgs"
  = (bfgs_tune && bool_decide (method = "lbfgs"))
    || bool_decide (method = "bfgs").
Proof. reflexivity. Qed.

(** The number of optimiser calls of a fit that returns, by the guard of
    the second pass as the code evaluates it. *)
Lemma fit_passes self start transformed method maxiter full_output disp
    return_params bfgs_tune kwargs out self' calls :
  fit self start transformed method maxiter full_output disp return_params
    bfgs_tune kwargs = Ok (out, self', calls) →
  length calls =
    if bfgs_tune && is_method method "lbfgs" || is_method method "bfgs"
    then 2 else 1.
Proof.
  intros H. unfold fit in H.
  destruct (bfgs_tune && is_method method "lbfgs" || is_method method "bfgs");
    steps H;
    repeat match goal with
           | E : mbind _ _ = Ok _ |- _ => steps E
           end;
    by simplify_eq.
Qed.

(** C5 (evaluation): with [method='bfgs'] and [bfgs_tune=False], a fit
    that returns has called the optimiser twice: the second call starts
    from the parameters the first one returned, with
    [approx_grad=False] and without [epsilon]. *)
Theorem untuned_bfgs_runs_second_pass self start transformed maxiter
    full_output disp return_params kwargs out self' calls :
  fit self start transformed "bfgs" maxiter full_output disp return_params
    false kwargs = Ok (out, self', calls) →
  ∃ first second s0 mlefit s1,
    calls = [first; second]
    ∧ super_fit s0 first = Ok (mlefit, s1)
    ∧ call_start_params second = mlefit_params mlefit
    ∧ call_method second = "bfgs"
    ∧ call_kwargs second !! "approx_grad" = Some (VBool false)
    ∧ call_kwargs second !! "epsilon" = None.
Proof.
  intros H. unfold fit in H.
  change (false && is_method "bfgs" "lbfgs" || is_method "bfgs" "bfgs")
    with true in H.
  change (is_method "bfgs" "lbfgs" || is_method "bfgs" "bfgs")
    with true in H.
  destruct (match start with
            | Some sp => Ok (sp, transformed)
            | None => start_params self ≫= λ sp, Ok (sp, true)
            end) as [[sp tr]|] eqn:E0;
    cbn [mbind result_bind] in H; [|discriminate H].
  destruct (if tr then untransform_params self sp else Ok sp)
    as [u|] eqn:E1; cbn [mbind result_bind] in H; [|discriminate H].
  match type of H with
  | mbind _ (super_fit self ?c) = _ => set (first := c) in *
  end.
  destruct (super_fit self first) as [[mlefit s1]|] eqn:E2;
    cbn [mbind result_bind] in H; [|discriminate H].
  rewrite del_present in H.
  2:{ rewrite lookup_insert_ne by done. apply setdefault_lookup. }
  cbn [mbind result_bind] in H.
  match type of H with
  | context [super_fit s1 ?c] => set (second := c) in *
  end.
  destruct (super_fit s1 second) as [[mlefit2 s2]|] eqn:E3;
    cbn [mbind result_bind] in H; [|discriminate H].
  assert (calls = [first; second]) as ->.
  { steps H; by simplify_eq. }
  exists first, second, self, mlefit, s1.
  split_and!; try done.
  - subst second. cbn. by rewrite lookup_delete_ne, lookup_insert_eq.
  - subst second. cbn. by rewrite lookup_delete_eq.
Qed.

(** C8: evaluated on the same object with the same arguments, the
    average log-likelihood is the log-likelihood divided by [nobs]. *)
Theorem average_loglike_divides_by_nobs self new_params transformed
    set_params kwargs :
  loglike self new_params true transformed set_params kwargs
  = (λ r, ((r.1 / IZR (nobs r.2))%R, r.2))
      <$> loglike self new_params false transformed set_params kwargs.
Proof.
  unfold loglike.
  destruct (match new_params with
            | Some p => snd <$> update self p transformed set_params
            | None => Ok self
            end) as [s|]; [|done].
  cbn [mbind result_bind].
  by destruct (super_loglike s _) as [[l s']|].
Qed.
End driver_facts.

(** On an object of the base class with assigned starting parameters the
    fit returns. *)
Lemma plain_fit_returns :
  ∃ r, MLEModel.fit Examples.plain_model None true "bfgs" 50 1 5
         false false ∅ = Ok r.
Proof.
  unfold MLEModel.fit.
  change (false && MLEModel.is_method "bfgs" "lbfgs"
          || MLEModel.is_method "bfgs" "bfgs") with true.
  change (MLEModel.is_method "bfgs" "lbfgs"
          || MLEModel.is_method "bfgs" "bfgs") with true.
  cbn [MLEModel.start_params MLEModel.untransform_params MLEModel.super_fit
       MLEModel.plain_interface Examples.plain_model MLEModel._start_params
       mbind result_bind MLEModel.call_start_params MLEModel.mlefit_params].
  rewrite del_present.
  2:{ rewrite lookup_insert_ne by done. apply setdefault_lookup. }
  cbn [mbind result_bind]. eauto.
Qed.

Lemma untuned_bfgs_runs_second_pass_witness :
  ∃ first second,
    snd <$> MLEModel.fit Examples.plain_model None true "bfgs" 50 1 5
              false false ∅
    = Ok [first; second]
    ∧ MLEModel.call_kwargs second !! "approx_grad"
      = Some (MLEModel.VBool false).
Proof.
  destruct plain_fit_returns as [[[out self'] calls] E].
  destruct (untuned_bfgs_runs_second_pass _ _ _ _ _ _ _ _ _ _ _ E)
    as (first & second & _ & _ & _ & -> & _ & _ & _ & Hgrad & _).
  exists first, second. by rewrite E.
Defined.

(** ** Information criteria *)

Section criteria.
Import MLEResults.
Local Open Scope R_scope.

Lemma exp_2_lt_100 : exp 2 < 100.
Proof.
  replace 2 with (1 + 1) by lra. rewrite exp_plus.
  pose proof exp_le_3. pose proof (exp_pos 1). nra.
Qed.

Lemma two_lt_ln n : exp 2 < n → 2 < ln n.
Proof.
  intros H. rewrite <- (ln_exp 2) at 1.
  apply ln_increasing; [apply exp_pos | exact H].
Qed.

(** C9 (amended): AIC and BIC are computed by their formulas over the
    number of fitted parameters, and AIC < BIC whenever [nobs > e^2] and
    the parameter vector is not empty. *)
Theorem aic_below_bic (self : t) :
  aic self = -2 * llf self + 2 * INR (length (params self))
  ∧ bic self
    = -2 * llf self + INR (length (params self)) * ln (IZR (nobs self))
  ∧ (exp 2 < IZR (nobs self) → params self ≠ [] → aic self < bic self).
Proof.
  split; [done|]. split; [done|].
  intros Hn Hp. unfold aic, bic, params_shape0.
  pose proof (two_lt_ln _ Hn) as Hln.
  assert (0 < INR (length (params self))) as Hk.
  { apply lt_0_INR. destruct (params self); [done|cbn; lia]. }
  nra.
Qed.

Lemma aic_below_bic_witness :
  aic Examples.one_parameter < bic Examples.one_parameter.
Proof.
  apply (aic_below_bic Examples.one_parameter).
  - exact exp_2_lt_100.
  - discriminate.
Defined.

(** With an empty parameter vector the two criteria coincide. *)
Lemma aic_eq_bic_without_parameters (self : t) :
  params self = [] → aic self = bic self.
Proof.
  intros Hp. unfold aic, bic, params_shape0. rewrite Hp. cbn. lra.
Qed.

(** C9 (as stated) fails: over a hundred observations ([100 > e^2]) and
    an empty parameter vector, AIC is not below BIC. *)
Lemma aic_not_below_bic_without_parameters :
  exp 2 < IZR (nobs Examples.no_parameters)
  ∧ ¬ aic Examples.no_parameters < bic Examples.no_parameters.
Proof.
  split; [exact exp_2_lt_100|].
  rewrite (aic_eq_bic_without_parameters Examples.no_parameters eq_refl).
  apply Rlt_irrefl.
Qed.
End criteria.

(** ** Starting parameters *)

Section start_params_facts.
Variable is_invertible : list R → bool.
Variable diff : list R → Z → Z → Z → result (list R).
Variable diff_exog : matrix → Z → Z → Z → result matrix.
Variable pinv_dot : matrix → list R → result (list R).
Variable isnan : R → bool.
Variable ar_proxy_residuals : list R → Z → result (list R).
Variable css_regression :
  list R → Z → list Z → Z → list Z → Z → option matrix →
  option (list R) → result (list R * list R).

(** A slot of the conditional-sum-of-squares result holds values exactly
    when its order is positive. *)
Lemma css_slots endog k_ar pa k_ma pm k_trend td t ar ma v :
  _conditional_sum_squares ar_proxy_residuals css_regression
    endog k_ar pa k_ma pm k_trend td = Ok (t, ar, ma, v) →
  (is_empty ar = negb (0 <? k_ar)%Z) ∧ (is_empty ma = negb (0 <? k_ma)%Z).
Proof.
  unfold _conditional_sum_squares. intros H.
  match type of H with
  | mbind _ ?r = _ =>
      destruct r as [fitted|]; cbn [mbind result_bind] in H;
      [|discriminate H]
  end.
  destruct fitted as [[p res]|], (0 <? k_trend)%Z, (0 <? k_ar)%Z,
    (0 <? k_ma)%Z;
    cbn [mbind result_bind fst] in H; try discriminate H;
    try (destruct (getitem p 0); cbn [mbind result_bind] in H;
         [|discriminate H]);
    by simplify_eq.
Qed.

(** A check that lets an estimate pass has tested it. *)
Lemma stationarity_check_passed k ar msg u :
  (if (0 <? k)%Z && true
   then a ← negative ar;
        if is_invertible a then Ok () else Raise (ValueError msg)
   else Ok ()) = Ok u →
  is_empty ar = negb (0 <? k)%Z →
  ¬ non_stationary is_invertible ar.
Proof.
  destruct ar as [|a]; cbn; [tauto|].
  intros H Hk. destruct (0 <? k)%Z; [|done]. cbn in H.
  destruct (is_invertible (Ropp <$> a)); [|done]. congruence.
Qed.

Lemma invertibility_check_passed k ma msg u :
  (if (0 <? k)%Z && true
   then if is_invertible (np_r_ ma) then Ok () else Raise (ValueError msg)
   else Ok ()) = Ok u →
  is_empty ma = negb (0 <? k)%Z →
  ¬ non_invertible is_invertible ma.
Proof.
  destruct ma as [|a]; cbn; [tauto|].
  intros H Hk. destruct (0 <? k)%Z; [|done]. cbn in H.
  destruct (is_invertible a); [|done]. congruence.
Qed.

(** What the four guards do test: when a slot cut from a regression
    result violates an enforced constraint, [start_params] raises instead
    of returning a starting point. *)
Theorem start_params_fails_fast self d params_exog endog trend_data :
  prepare diff diff_exog pinv_dot isnan self d
  = Ok (params_exog, endog, trend_data) →
  infeasible is_invertible ar_proxy_residuals css_regression
    self endog trend_data →
  raises (start_params is_invertible diff diff_exog pinv_dot isnan
            ar_proxy_residuals css_regression self d).
Proof.
  intros Hprep Hbad. unfold start_params, raises.
  rewrite Hprep. cbn [mbind result_bind].
  destruct (_conditional_sum_squares ar_proxy_residuals css_regression
              endog (k_ar self) (polynomial_ar self) (k_ma self)
              (polynomial_ma self) (k_trend self) (Some trend_data))
    as [[[[t ar] ma] v]|e1] eqn:E1; cbn [mbind result_bind]; [|eauto].
  destruct (css_slots _ _ _ _ _ _ _ _ _ _ _ E1) as [Har Hma].
  match goal with
  | |- ∃ e, mbind _ ?r = _ =>
      destruct r as [[]|] eqn:C1; cbn [mbind result_bind]; [|eauto]
  end.
  match goal with
  | |- ∃ e, mbind _ ?r = _ =>
      destruct r as [[]|] eqn:C2; cbn [mbind result_bind]; [|eauto]
  end.
  destruct (_conditional_sum_squares ar_proxy_residuals css_regression
              endog (k_seasonal_ar self) (polynomial_seasonal_ar self)
              (k_seasonal_ma self) (polynomial_seasonal_ma self) 0 None)
    as [[[[st sar] sma] sv]|e2] eqn:E2; cbn [mbind result_bind]; [|eauto].
  destruct (css_slots _ _ _ _ _ _ _ _ _ _ _ E2) as [Hsar Hsma].
  match goal with
  | |- ∃ e, mbind _ ?r = _ =>
      destruct r as [[]|] eqn:C3; cbn [mbind result_bind]; [|eauto]
  end.
  match goal with
  | |- ∃ e, mbind _ ?r = _ =>
      destruct r as [[]|] eqn:C4; cbn [mbind result_bind]; [|eauto]
  end.
  exfalso.
  destruct Hbad as [[Hes [(e & (? & ? & ? & He) & Hns)
                          |(e & (? & ? & ? & He) & Hns)]]
                   |[Hei [(e & (? & ? & ? & He) & Hni)
                          |(e & (? & ? & ? & He) & Hni)]]];
    rewrite ?E1, ?E2 in He; simplify_eq;
    rewrite ?Hes, ?Hei in *.
  - eapply stationarity_check_passed; [exact C1|exact Har|exact Hns].
  - eapply stationarity_check_passed; [exact C3|exact Hsar|exact Hns].
  - eapply invertibility_check_passed; [exact C2|exact Hma|exact Hni].
  - eapply invertibility_check_passed; [exact C4|exact Hsma|exact Hni].
Qed.

(** A regression result no longer than the AR order lies in the AR slot
    as a whole, and leaves the MA slot behind it empty. *)
Lemma short_result_slots (p : list R) (k_ar k_ma : Z) :
  (Z.of_nat (length p) ≤ k_ar)%Z → (0 ≤ k_ma)%Z →
  getslice p (Some 0%Z) (Some (k_ar + 0)%Z) = p
  ∧ getslice p (Some (0 + k_ar)%Z) (Some (k_ma + (0 + k_ar))%Z) = [].
Proof.
  intros Hp Hk. unfold getslice, slice_bounds, clip.
  repeat match goal with
         | |- context [(?x <? 0)%Z] => destruct (Z.ltb_spec x 0); [lia|]
         end.
  rewrite (Z.min_l 0), !(Z.min_r _ (Z.of_nat (length p))) by lia.
  split.
  - cbn [Z.to_nat drop]. apply take_ge. lia.
  - rewrite Z.sub_diag. apply take_0.
Qed.

(** C6: with a seasonal AR and a seasonal MA order the regression has one
    coefficient per included lag, fewer than the seasonal AR order: the
    seasonal AR slot takes them all and the seasonal MA slot stays empty.
    With [enforce_invertibility] on (and [enforce_stationarity] off)
    [start_params] then returns a starting point although the seasonal MA
    estimates [sma] are non-invertible. *)
Theorem start_params_skips_seasonal_ma self d params_exog endog trend_data
    t ar ma v proxy sar sma res :
  prepare diff diff_exog pinv_dot isnan self d
  = Ok (params_exog, endog, trend_data) →
  _conditional_sum_squares ar_proxy_residuals css_regression endog
    (k_ar self) (polynomial_ar self) (k_ma self) (polynomial_ma self)
    (k_trend self) (Some trend_data) = Ok (t, ar, ma, v) →
  ¬ non_invertible is_invertible ma →
  (0 < k_seasonal_ma self)%Z →
  ar_proxy_residuals endog (2 * k_seasonal_ma self) = Ok proxy →
  css_regression endog (k_seasonal_ar self) (polynomial_seasonal_ar self)
    (k_seasonal_ma self) (polynomial_seasonal_ma self) 0 None (Some proxy)
  = Ok (sar ++ sma, res) →
  Z.of_nat (length sar) = k_seasonal_ar_params self →
  Z.of_nat (length sma) = k_seasonal_ma_params self →
  (k_seasonal_ar_params self + k_seasonal_ma_params self
   ≤ k_seasonal_ar self)%Z →
  enforce_stationarity self = false →
  enforce_invertibility self = true →
  is_invertible [] = true →
  is_invertible sma = false →
  start_params is_invertible diff diff_exog pinv_dot isnan
    ar_proxy_residuals css_regression self d
  = Ok (np_r_ t ++ np_r_ params_exog ++ np_r_ ar ++ np_r_ ma
        ++ (sar ++ sma) ++ []
        ++ np_r_ (if state_regression self && time_varying_regression self
                  then Values (replicate (Z.to_nat (k_exog self)) 1%R)
                  else Empty)
        ++ np_r_ (if measurement_error self then Values [1%R] else Empty)
        ++ np_r_ (if state_error self && is_empty v
                  then Values [np_mean
                                 (square <$> getslice res
                                    (Some (k_seasonal_ma self)) None)]
                  else v)).
Proof.
  intros Hprep E1 Hma Hq Hproxy Hreg Hsar Hsma Hshort Hes Hei Hnil Hbad.
  assert (0 < k_seasonal_ar self)%Z as Hp.
  { destruct sma as [|x sma]; [congruence|]. cbn [length] in Hsma. lia. }
  destruct (short_result_slots (sar ++ sma) (k_seasonal_ar self)
              (k_seasonal_ma self)) as [Har_slot Hma_slot];
    [rewrite length_app; lia|lia|].
  assert (_conditional_sum_squares ar_proxy_residuals css_regression endog
            (k_seasonal_ar self) (polynomial_seasonal_ar self)
            (k_seasonal_ma self) (polynomial_seasonal_ma self) 0 None
          = Ok (Empty, Values (sar ++ sma), Values [],
                Values [np_mean
                          (square <$> getslice res
                             (Some (k_seasonal_ma self)) None)])) as E2.
  { unfold _conditional_sum_squares.
    destruct (Z.ltb_spec 0 (k_seasonal_ar self + k_seasonal_ma self + 0));
      [|lia].
    destruct (Z.ltb_spec 0 (k_seasonal_ma self)); [|lia].
    destruct (Z.ltb_spec 0 (k_seasonal_ar self)); [|lia].
    rewrite Hproxy. cbn [fmap result_fmap mbind result_bind].
    rewrite Hreg. change (0 <? 0)%Z with false.
    cbn [fmap result_fmap mbind result_bind fst snd].
    by rewrite Har_slot, Hma_slot. }
  unfold start_params. rewrite Hprep. cbn [mbind result_bind].
  rewrite E1. cbn [mbind result_bind]. rewrite Hes, Hei, !andb_false_r.
  cbn [mbind result_bind].
  assert ((if (0 <? k_ma self)%Z && true
           then if is_invertible (np_r_ ma) then Ok ()
                else Raise (ValueError noninvertible_message)
           else Ok ()) = Ok ()) as ->.
  { destruct ((0 <? k_ma self)%Z); [|done]. cbn [andb].
    destruct ma as [|a]; cbn [np_r_]; [by rewrite Hnil|].
    cbn in Hma. by destruct (is_invertible a). }
  cbn [mbind result_bind]. rewrite E2. cbn [mbind result_bind].
  destruct (Z.ltb_spec 0 (k_seasonal_ma self)); [|lia].
  cbn [andb np_r_]. rewrite Hnil. cbn [mbind result_bind is_empty negb].
  reflexivity.
Qed.
End start_params_facts.

Lemma start_params_fails_fast_witness :
  raises (start_params Examples.is_invertible1 Examples.no_diff
            Examples.no_diff_exog Examples.no_pinv_dot Examples.never_nan
            Examples.no_proxy Examples.explosive_regression
            Examples.defaults_model Examples.short_series).
Proof.
  apply (start_params_fails_fast _ _ _ _ _ _ _ Examples.defaults_model
           Examples.short_series Empty [1%R; 2%R; 3%R] [[]; []; []]).
  - reflexivity.
  - left. split; [reflexivity|]. left.
    exists (Values [(3 / 2)%R]). split.
    + by exists Empty, Empty,
        (Values [np_mean (square <$> [1%R; 2%R; 3%R])]).
    + cbn. destruct (Rlt_dec _ _) as [H|]; [|done].
      exfalso. revert H. rewrite Rabs_Ropp, Rabs_right; lra.
Defined.

Lemma ar1_sarma_quarterly_constructed :
  __init__ Examples.ar1_sarma_quarterly
  = Ok Examples.ar1_sarma_quarterly_model.
Proof. vm_compute. reflexivity. Qed.

Lemma start_params_skips_seasonal_ma_witness :
  ∃ variance,
    start_params Examples.is_invertible1 Examples.no_diff
      Examples.no_diff_exog Examples.no_pinv_dot Examples.never_nan
      Examples.no_proxy
      Examples.lagged_regression Examples.ar1_sarma_quarterly_model
      Examples.quarterly_series
    = Ok [(1 / 10)%R; (1 / 10)%R; (3 / 2)%R; variance].
Proof.
  eexists.
  etransitivity.
  - apply (start_params_skips_seasonal_ma Examples.is_invertible1
           Examples.no_diff Examples.no_diff_exog Examples.no_pinv_dot
           Examples.never_nan Examples.no_proxy Examples.lagged_regression
           Examples.ar1_sarma_quarterly_model Examples.quarterly_series
           Empty (endog Examples.quarterly_series) (replicate 20 [])
           Empty (Values [(1 / 10)%R]) Empty
           (Values [np_mean (square
                               <$> drop 1 (endog Examples.quarterly_series))])
           (endog Examples.quarterly_series)
           [(1 / 10)%R] [(3 / 2)%R]
           (drop 12 (endog Examples.quarterly_series))).
    + reflexivity.
    + reflexivity.
    + cbn. tauto.
    + reflexivity.
    + reflexivity.
    + reflexivity.
    + reflexivity.
    + reflexivity.
    + cbn. lia.
    + reflexivity.
    + reflexivity.
    + reflexivity.
    + cbn. destruct (Rlt_dec _ _) as [H|]; [|done].
      exfalso. revert H. rewrite Rabs_right; lra.
  - reflexivity.
Defined.

(** ** Prediction *)

Section predict_facts.
Import SARIMAXResults.
Context {Forecast Kwargs : Type}.
Variable _get_predict_start : t → MLEResults.time_index → result Z.
Variable _get_predict_end :
  t → option MLEResults.time_index → result (Z * Z).
Variable extend : t → ndarray → Z → Kwargs → result (ndarray * Kwargs).
Variable super_predict :
  t → MLEResults.time_index → option MLEResults.time_index →
  option ndarray → Z → R → Kwargs → result Forecast.

(** With state regression the error does not even depend on the
    horizon: [predict] without [exog] raises as soon as [start] and
    [end] resolve. *)
Lemma state_regression_needs_exog self start end_ dynamic alpha kwargs s e :
  state_regression self = true →
  _get_predict_start self (default (MLEResults.Observation 0) start) = Ok s →
  _get_predict_end self end_ = Ok e →
  predict _get_predict_start _get_predict_end extend super_predict
    self start end_ None dynamic alpha kwargs
  = Raise (ValueError out_of_sample_message).
Proof.
  intros Hreg Hs He. unfold predict. rewrite Hs, He. cbn [mbind result_bind].
  destruct e as [e oos]. by rewrite Hreg, orb_true_r.
Qed.

(** C7: in a model with a regression component, [predict] beyond the
    end of the sample without [exog] raises the out-of-sample error,
    and so does [forecast] for the corresponding number of steps. *)
Theorem out_of_sample_needs_exog self start end_ dynamic alpha kwargs
    s e out_of_sample :
  mle_regression self || state_regression self = true →
  _get_predict_start self (default (MLEResults.Observation 0) start) = Ok s →
  _get_predict_end self end_ = Ok (e, out_of_sample) →
  (0 < out_of_sample)%Z →
  predict _get_predict_start _get_predict_end extend super_predict
    self start end_ None dynamic alpha kwargs
  = Raise (ValueError out_of_sample_message)
  ∧ ∀ steps,
      start = Some (MLEResults.Observation (nobs self)) →
      end_ = Some (MLEResults.Observation (nobs self + steps - 1)) →
      forecast _get_predict_start _get_predict_end extend super_predict
        self steps None alpha kwargs
      = Raise (ValueError out_of_sample_message).
Proof.
  intros Hreg Hs He Hoos.
  assert (∀ dyn, predict _get_predict_start _get_predict_end extend super_predict
    self start end_ None dyn alpha kwargs
                 = Raise (ValueError out_of_sample_message)) as Hp.
  { intros dyn. unfold predict. rewrite Hs, He. cbn [mbind result_bind].
    assert (truthy out_of_sample = true) as ->.
    { unfold truthy. destruct (Z.eqb_spec out_of_sample 0); [lia|done]. }
    cbn [andb]. by rewrite Hreg. }
  split; [apply Hp|].
  intros steps -> ->. unfold forecast, MLEResults.forecast. apply Hp.
Qed.
End predict_facts.

Lemma out_of_sample_needs_exog_witness :
  SARIMAXResults.forecast (Forecast := list R) (Kwargs := unit)
    Examples.predict_start_int Examples.predict_end_int
    (λ _ x _ kw, Ok (x, kw)) (λ _ _ _ _ _ _ _, Ok [])
    Examples.fitted_with_regressors 5%Z None (1 / 20) ()
  = Raise (ValueError SARIMAXResults.out_of_sample_message).
Proof.
  refine (proj2 (out_of_sample_needs_exog
                   Examples.predict_start_int Examples.predict_end_int
                   (λ _ x _ kw, Ok (x, kw)) (λ _ _ _ _ _ _ _, Ok [])
                   Examples.fitted_with_regressors
                   (Some (MLEResults.Observation 10))
                   (Some (MLEResults.Observation 14)) 0%Z (1 / 20) ()
                   10%Z 9%Z 5%Z _ _ _ _) 5%Z _ _); reflexivity.
Defined.

(** * Further properties *)

(** ** More on the constructor *)

Lemma ar1_sar1_quarterly_constructed :
  __init__ Examples.ar1_sar1_quarterly = Ok Examples.ar1_sar1_quarterly_model.
Proof. reflexivity. Qed.

Lemma ar1_hamilton_constructed :
  __init__ Examples.ar1_hamilton = Ok Examples.ar1_hamilton_model.
Proof. reflexivity. Qed.

Lemma ar1_differenced_constructed :
  __init__ Examples.ar1_differenced = Ok Examples.ar1_differenced_model.
Proof. reflexivity. Qed.

Lemma ar1_with_drift_constructed :
  __init__ Examples.ar1_with_drift = Ok Examples.ar1_with_drift_model.
Proof. reflexivity. Qed.

Lemma ar1_state_regressors_constructed :
  __init__ (without_mle Examples.ar1_two_regressors)
  = Ok Examples.ar1_state_regressors_model.
Proof. reflexivity. Qed.

Lemma np_sum_replicate n x : np_sum (replicate n x) = (Z.of_nat n * x)%Z.
Proof.
  induction n as [|n IH]; [done|].
  unfold np_sum in *. cbn [replicate foldr]. rewrite IH. nia.
Qed.

Lemma np_sum_app l1 l2 : np_sum (l1 ++ l2) = (np_sum l1 + np_sum l2)%Z.
Proof.
  unfold np_sum. induction l1 as [|x l1 IH]; cbn [app foldr]; lia.
Qed.

Lemma join_replicate_S {A} n (l : list A) :
  mjoin (replicate (S n) l) = l ++ mjoin (replicate n l).
Proof. reflexivity. Qed.

Lemma seasonal_blocks_length n k :
  length (mjoin (replicate n (replicate k 0%Z ++ [1%Z]))) = n * (k + 1).
Proof.
  induction n as [|n IH]; [done|].
  rewrite join_replicate_S, !length_app, length_replicate, IH. cbn. lia.
Qed.

Lemma seasonal_blocks_sum n k :
  np_sum (mjoin (replicate n (replicate k 0%Z ++ [1%Z]))) = Z.of_nat n.
Proof.
  induction n as [|n IH]; [done|].
  rewrite join_replicate_S, !np_sum_app, np_sum_replicate, IH. cbn. lia.
Qed.

(** X1: with integer orders [(p, d, q)] and [(P, D, Q, s)], [s >= 1], the
    constructed model has the AR order [p] with [p] coefficients, the
    seasonal AR order [P * s] with [P] coefficients, and likewise for MA. *)
Theorem integer_orders_counts a m p d q P D Q s :
  arg_order a = (LagInt p, d, LagInt q) →
  arg_seasonal_order a = (LagInt P, D, LagInt Q, s) →
  (1 ≤ s)%Z → (0 ≤ P)%Z → (0 ≤ Q)%Z →
  __init__ a = Ok m →
  (0 ≤ p ∧ 0 ≤ q)%Z
  ∧ k_ar m = p ∧ k_ar_params m = p
  ∧ k_ma m = q ∧ k_ma_params m = q
  ∧ k_seasonal_ar m = (P * s)%Z ∧ k_seasonal_ar_params m = P
  ∧ k_seasonal_ma m = (Q * s)%Z ∧ k_seasonal_ma_params m = Q.
Proof.
  intros Ho Hs Hs1 HP HQ H. unfold __init__ in H. rewrite Ho, Hs in H.
  destruct (arg_time_varying_regression a && arg_mle_regression a);
    [discriminate H|].
  destruct (arg_time_varying_regression a); [discriminate H|].
  cbn [lag_polynomial seasonal_lag_polynomial] in H.
  destruct (Z.ltb_spec p 0); [discriminate H|].
  destruct (Z.ltb_spec q 0); [discriminate H|].
  cbn [mbind result_bind] in H.
  match type of H with
  | (if ?b then _ else _) = _ => destruct b; [discriminate H|]
  end.
  match type of H with
  | mbind _ ?r = _ => destruct r; cbn [mbind result_bind] in H; [|discriminate H]
  end.
  injection H as <-. cbn.
  rewrite !length_replicate, !seasonal_blocks_length, !np_sum_replicate,
    !seasonal_blocks_sum.
  replace (Z.to_nat (s - 1) + 1) with (Z.to_nat s) by lia.
  repeat split; lia.
Qed.

Lemma integer_orders_counts_witness :
  k_seasonal_ar Examples.ar1_sar1_quarterly_model = 4%Z
  ∧ k_seasonal_ar_params Examples.ar1_sar1_quarterly_model = 1%Z.
Proof.
  destruct (integer_orders_counts Examples.ar1_sar1_quarterly
              Examples.ar1_sar1_quarterly_model 1 0 0 1 0 0 4
              eq_refl eq_refl)
    as (_ & _ & _ & _ & _ & Hk & Hp & _);
    [lia|lia|lia|exact ar1_sar1_quarterly_constructed|].
  split; [exact Hk|exact Hp].
Defined.

(** X2: the two regression modes of a constructed model exclude each
    other, and one of them is on exactly when regressors with at least one
    column were supplied. *)
Theorem regression_modes a m :
  __init__ a = Ok m →
  mle_regression m && state_regression m = false
  ∧ (mle_regression m || state_regression m
     = bool_decide (arg_exog a ≠ None) && (0 <? k_exog m)%Z)
  ∧ (mle_regression m || state_regression m = true →
     mle_regression m = arg_mle_regression a).
Proof.
  intros H. destruct (regression_as_set a m H) as (_ & Hmle & Hstate).
  rewrite Hstate, Hmle.
  destruct (arg_mle_regression a), (bool_decide (arg_exog a ≠ None)),
    (0 <? k_exog m)%Z; done.
Qed.

Lemma regression_modes_witness :
  mle_regression Examples.ar1_two_regressors_model
  && state_regression Examples.ar1_two_regressors_model = false.
Proof.
  exact (proj1 (regression_modes Examples.ar1_two_regressors
                  Examples.ar1_two_regressors_model
                  ar1_two_regressors_constructed)).
Defined.

(** The differencing attributes as the constructor leaves them. *)
Lemma differencing_as_set a m :
  __init__ a = Ok m →
  simple_differencing m = arg_simple_differencing a
  ∧ hamilton_representation m = arg_hamilton_representation a
  ∧ k_diff m = (arg_order a).1.2
  ∧ k_seasonal_diff m = (arg_seasonal_order a).1.1.2
  ∧ _k_diff m =
      (if simple_differencing m
          && ((0 <? k_diff m)%Z || (0 <? k_seasonal_diff m)%Z)
       then 0%Z else k_diff m)
  ∧ _k_seasonal_diff m =
      (if simple_differencing m
          && ((0 <? k_diff m)%Z || (0 <? k_seasonal_diff m)%Z)
       then 0%Z else k_seasonal_diff m)
  ∧ (hamilton_representation m = true →
     simple_differencing m = true
     ∨ (k_diff m = 0%Z ∧ k_seasonal_diff m = 0%Z)).
Proof.
  intros H. unfold __init__ in H.
  destruct (arg_order a) as [[p d] q].
  destruct (arg_seasonal_order a) as [[[P D] Q] s].
  repeat match type of H with
         | (if ?b then _ else _) = Ok _ =>
             let E := fresh "E" in destruct b eqn:E; [discriminate H|]
         | mbind _ ?r = Ok _ =>
             let E := fresh "E" in
             destruct r eqn:E; [|discriminate H]; cbn [mbind result_bind] in H
         end.
  injection H as <-. cbn. split_and!; try done.
  intros Hh.
  match goal with
  | E : arg_hamilton_representation a && negb _ = false |- _ =>
      rewrite Hh in E; cbn [andb] in E;
      apply negb_false_iff, orb_true_iff in E as [Hsimple|Hzero]
  end; [by left|right].
  apply andb_true_iff in Hzero as [Hz1 Hz2]. apply Z.eqb_eq in Hz1, Hz2. lia.
Qed.

(** X3: a model in the Hamilton representation never carries
    differencing in its state: either simple differencing was requested or
    both differencing orders are zero, and in both cases (for non-negative
    orders) the internal orders [_k_diff] and [_k_seasonal_diff] are 0. *)
Theorem hamilton_has_no_state_differencing a m :
  __init__ a = Ok m →
  hamilton_representation m = true →
  (0 ≤ k_diff m)%Z → (0 ≤ k_seasonal_diff m)%Z →
  (simple_differencing m = true
   ∨ (k_diff m = 0%Z ∧ k_seasonal_diff m = 0%Z))
  ∧ _k_diff m = 0%Z ∧ _k_seasonal_diff m = 0%Z.
Proof.
  intros H Hh Hd HD.
  destruct (differencing_as_set a m H) as (_ & _ & _ & _ & -> & -> & Hham).
  specialize (Hham Hh). split; [done|].
  destruct Hham as [->|[-> ->]]; [|by rewrite andb_false_r].
  cbn [andb].
  destruct (Z.ltb_spec 0 (k_diff m)), (Z.ltb_spec 0 (k_seasonal_diff m));
    cbn; split; lia.
Qed.

Lemma hamilton_has_no_state_differencing_witness :
  _k_diff Examples.ar1_hamilton_model = 0%Z
  ∧ _k_seasonal_diff Examples.ar1_hamilton_model = 0%Z.
Proof.
  apply (hamilton_has_no_state_differencing Examples.ar1_hamilton
           Examples.ar1_hamilton_model ar1_hamilton_constructed eq_refl);
    cbn; lia.
Defined.

(** X4: with [simple_differencing=True] and non-negative differencing
    orders the constructed model keeps the requested orders in [k_diff]
    and [k_seasonal_diff], works internally with zero differencing, and has
    no differencing states. *)
Theorem simple_differencing_clears_orders a m :
  __init__ a = Ok m →
  simple_differencing m = true →
  (0 ≤ k_diff m)%Z → (0 ≤ k_seasonal_diff m)%Z →
  _k_diff m = 0%Z ∧ _k_seasonal_diff m = 0%Z
  ∧ k_states m =
      (_k_order m + (if state_regression m then k_exog m else 0))%Z.
Proof.
  intros H Hs Hd HD.
  destruct (differencing_as_set a m H) as (_ & _ & _ & _ & -> & -> & _).
  destruct (k_states_as_computed a m H) as [-> _].
  rewrite Hs. cbn [andb].
  destruct (Z.ltb_spec 0 (k_diff m)), (Z.ltb_spec 0 (k_seasonal_diff m));
    cbn; split_and!; lia.
Qed.

Lemma simple_differencing_clears_orders_witness :
  _k_diff Examples.ar1_differenced_model = 0%Z
  ∧ _k_seasonal_diff Examples.ar1_differenced_model = 0%Z
  ∧ k_states Examples.ar1_differenced_model = 1%Z.
Proof.
  apply (simple_differencing_clears_orders Examples.ar1_differenced
           Examples.ar1_differenced_model ar1_differenced_constructed
           eq_refl);
    cbn; lia.
Defined.

(** The error terms as the constructor sets them. *)
Lemma error_terms_as_set a m :
  __init__ a = Ok m →
  state_error m = (0 <? _k_order m)%Z
  ∧ k_posdef m = Z.b2z (state_error m)
  ∧ measurement_error m =
      (if state_regression m && (_k_order m =? 0)%Z then true
       else arg_measurement_error a).
Proof.
  intros H. init_inv H. subst m. cbn. rewrite ?andb_false_r.
  split_and!; rewrite ?Z.add_0_r.
  - by match goal with
       | |- context [Z.b2z (0 <? ?x)%Z] => destruct (0 <? x)%Z
       end.
  - by match goal with
       | |- context [Z.b2z (0 <? ?x)%Z] => destruct (0 <? x)%Z
       end.
  - done.
Qed.

(** X5: a constructed model has a state error exactly when it has a
    non-seasonal AR or MA order; then the order block has at least one state
    and the state covariance has exactly one positive-definite entry. *)
Theorem state_error_iff_arma a m :
  __init__ a = Ok m →
  (state_error m = true ↔ (0 < k_ar m ∨ 0 < k_ma m)%Z)
  ∧ (state_error m = true → (1 ≤ _k_order m)%Z ∧ k_posdef m = 1%Z)
  ∧ (state_error m = false → _k_order m = 0%Z ∧ k_posdef m = 0%Z).
Proof.
  intros H.
  destruct (error_terms_as_set a m H) as (Hse & Hpd & _).
  destruct (k_states_as_computed a m H) as [_ Hord].
  destruct (orders_nonnegative a m H) as (? & ? & ? & ?).
  rewrite Hpd, Hse, Hord.
  destruct (Z.eqb_spec (k_ar m) (k_ma m)), (Z.eqb_spec (k_ma m) 0);
    cbn [andb];
    repeat match goal with
           | |- context [(0 <? ?x)%Z] => destruct (Z.ltb_spec 0 x)
           end; cbn; split_and!; try split; intros; try done; lia.
Qed.

Lemma state_error_iff_arma_witness :
  state_error Examples.defaults_model = true
  ↔ (0 < k_ar Examples.defaults_model ∨ 0 < k_ma Examples.defaults_model)%Z.
Proof.
  exact (proj1 (state_error_iff_arma Examples.defaults
                  Examples.defaults_model defaults_constructed)).
Defined.

(** X6: a model whose regression coefficients live in the state always
    has an error term: without an order block the constructor turns the
    measurement error on, whatever was requested. *)
Theorem state_regression_has_error_term a m :
  __init__ a = Ok m →
  state_regression m = true →
  state_error m || measurement_error m = true
  ∧ (_k_order m = 0%Z → measurement_error m = true)
  ∧ initial_variance_kwarg m = Some (10 ^ 10)%Z.
Proof.
  intros H Hreg.
  destruct (error_terms_as_set a m H) as (Hse & _ & Hme).
  assert (initial_variance_kwarg m = Some (10 ^ 10)%Z) as Hiv.
  { init_inv H. subst m. cbn in *. by rewrite Hreg. }
  rewrite Hse, Hme, Hreg. cbn [andb].
  destruct (orders_nonnegative a m H) as (? & ? & ? & ?).
  destruct (k_states_as_computed a m H) as [_ Hord].
  split_and!; [|by intros ->|done].
  destruct (Z.eqb_spec (_k_order m) 0) as [->|Hne]; [done|].
  assert (0 < _k_order m)%Z as Hpos.
  { rewrite Hord in *. repeat case_match; lia. }
  apply Z.ltb_lt in Hpos. by rewrite Hpos.
Qed.

Lemma state_regression_has_error_term_witness :
  state_error Examples.ar1_state_regressors_model
  || measurement_error Examples.ar1_state_regressors_model = true
  ∧ initial_variance_kwarg Examples.ar1_state_regressors_model
    = Some (10 ^ 10)%Z.
Proof.
  destruct (state_regression_has_error_term
              (without_mle Examples.ar1_two_regressors)
              Examples.ar1_state_regressors_model
              ar1_state_regressors_constructed eq_refl)
    as (He & _ & Hv).
  split; [exact He|exact Hv].
Defined.

(** ** More on the initialisation policy *)

(** The number of diffuse states as the constructor computes it. *)
Lemma k_diffuse_states_as_computed a m :
  __init__ a = Ok m →
  k_diffuse_states m =
    (k_states m - (if enforce_stationarity m then _k_order m else 0))%Z.
Proof. intros H. init_inv H. by subst m. Qed.

(** X7: a model that enforces stationarity, keeps no regression
    coefficients in the state and no differencing in the state has no
    diffuse states; the constructor gives it the stationary initialisation,
    and [initialize_state] leaves that in place without calling the
    solver. *)
Theorem stationary_initialization_kept solve a m v T R_ Q variance :
  __init__ a = Ok m →
  enforce_stationarity m = true →
  state_regression m = false →
  (simple_differencing m = true
   ∨ (k_seasons m * k_seasonal_diff m + k_diff m = 0)%Z) →
  k_diffuse_states m = 0%Z
  ∧ initial_distribution (constructed m v T R_ Q) = Some Stationary
  ∧ initialize_state solve (constructed m v T R_ Q) variance
    = Ok (constructed m v T R_ Q).
Proof.
  intros H He Hr Hd.
  assert (k_diffuse_states m = 0%Z) as Hk.
  { rewrite (k_diffuse_states_as_computed a m H), He.
    destruct (k_states_as_computed a m H) as [-> _]. rewrite Hr.
    destruct Hd as [->| ->]; [lia|]. destruct (simple_differencing m); lia. }
  split; [done|]. unfold constructed. rewrite Hk. done.
Qed.

Lemma stationary_initialization_kept_witness :
  initialize_state (λ _ _, Raise LinAlgError)
    (constructed Examples.defaults_model 1000000 [[(1 / 2)%R]] [[1%R]]
       [[1%R]]) None
  = Ok (constructed Examples.defaults_model 1000000 [[(1 / 2)%R]] [[1%R]]
          [[1%R]]).
Proof.
  apply (stationary_initialization_kept _ Examples.defaults
           Examples.defaults_model);
    [exact defaults_constructed|reflexivity|reflexivity|by right].
Defined.

(** X8: without an order block the solver is never called: the state
    gets mean zero and covariance [variance * I], whatever the solver would
    return; a model that does not enforce stationarity has taken the
    approximate diffuse initialisation first. *)
Theorem initialize_state_without_order_block solve self variance :
  _manual_initialization self = false →
  (_k_order (model self) ≤ 0)%Z →
  (0 ≤ k_states (model self))%Z →
  initialize_state solve self variance
  = Ok (super_initialize
          (Known (np_zeros (Z.to_nat (k_states (model self))))
             (scale (np_eye (Z.to_nat (k_states (model self))))
                (default (initial_variance self) variance)))
          (if enforce_stationarity (model self) then self
           else initialize_approximate_diffuse self variance)).
Proof.
  intros Hm Ho Hs. unfold initialize_state. rewrite Hm.
  destruct (enforce_stationarity (model self)); cbn [negb];
    cbn [initialize_approximate_diffuse super_initialize set_manual model
         initial_variance];
    (destruct (Z.ltb_spec (k_states (model self)) 0); [lia|]);
    (destruct (Z.ltb_spec 0 (_k_order (model self))); [lia|]);
    destruct (state_regression (model self)), variance; reflexivity.
Qed.

Lemma regression_in_state_constructed :
  __init__ Examples.regression_in_state
  = Ok Examples.regression_in_state_model.
Proof. vm_compute. reflexivity. Qed.

Lemma initialize_state_without_order_block_witness :
  initial_distribution
    <$> initialize_state (λ _ _, Raise LinAlgError)
          (constructed Examples.regression_in_state_model 10000000000
             [[1%R; 0%R]; [0%R; 1%R]] [[]; []] [])
          None
  = Ok (Some (Known [0%R; 0%R]
                [[(1 * 10000000000)%R; (0 * 10000000000)%R];
                 [(0 * 10000000000)%R; (1 * 10000000000)%R]])).
Proof.
  rewrite (initialize_state_without_order_block _ _ None);
    [reflexivity|reflexivity|cbn; lia|cbn; lia].
Defined.

Section block_lengths.
Context {A : Type}.

Lemma slice_bounds_within (n : nat) s e o k :
  slice_bounds (Z.of_nat n) s e = (o, k) → o + k ≤ n.
Proof.
  unfold slice_bounds, clip. intros [= <- <-].
  destruct s as [s|], e as [e|];
    repeat match goal with
           | |- context [(?x <? ?y)%Z] => destruct (Z.ltb_spec x y)
           end; lia.
Qed.

Lemma setslice_length (l l' rhs : list A) s e :
  setslice l s e rhs = Ok l' → length l' = length l.
Proof.
  unfold setslice.
  destruct (slice_bounds _ s e) as [o k] eqn:Hb.
  apply slice_bounds_within in Hb. intros H.
  destruct (decide (length rhs = k)) as [Hk|_].
  - injection H as <-.
    rewrite !length_app, length_take, length_drop. lia.
  - destruct rhs as [|x [|]]; try discriminate H. injection H as <-.
    rewrite !length_app, length_take, length_drop, length_replicate. lia.
Qed.

Lemma mapM_result_Forall2 {B} (f : A → result B) l l' :
  mapM f l = Ok l' → Forall2 (λ x y, f x = Ok y) l l'.
Proof.
  revert l'. induction l as [|x l IH]; intros l' H; cbn in H.
  - injection H as <-. constructor.
  - destruct (f x) as [y|] eqn:Hy; [|discriminate H].
    cbn [mbind result_bind] in H.
    destruct (mapM f l) as [ys|] eqn:Hys; [|discriminate H].
    injection H as <-. constructor; [done|by apply IH].
Qed.
End block_lengths.

Lemma setblock_shape (M M' B : matrix) r0 r1 c0 c1 (n : nat) :
  setblock M r0 r1 c0 c1 B = Ok M' →
  Forall (λ row, length row = n) M →
  length M' = length M ∧ Forall (λ row, length row = n) M'.
Proof.
  unfold setblock. destruct (slice_bounds _ r0 r1) as [o k] eqn:Hb.
  apply slice_bounds_within in Hb. intros H HM.
  match type of H with
  | mbind _ ?r = _ => destruct r as [rows|] eqn:Hrows; [|discriminate H]
  end.
  cbn [mbind result_bind] in H.
  assert (length rows = k) as Hlen.
  { destruct (decide (length B = k)); [by injection Hrows as <-|].
    destruct B as [|r [|]]; try discriminate Hrows. injection Hrows as <-.
    by rewrite length_replicate. }
  match type of H with
  | mbind _ ?r = _ => destruct r as [new|] eqn:Hnew; [|discriminate H]
  end.
  injection H as <-. apply mapM_result_Forall2 in Hnew.
  assert (length new = k) as Hk.
  { rewrite <- (Forall2_length _ _ _ Hnew), length_zip, length_take,
      length_drop. lia. }
  split.
  - rewrite !length_app, length_take, length_drop. lia.
  - rewrite !Forall_app. split_and!.
    + by apply Forall_take.
    + assert (Forall (λ rb : list R * list R, length rb.1 = n)
                (zip (take k (drop o M)) rows)) as Hz.
      { apply Forall_forall. intros [r b] Hin. apply elem_of_zip_l in Hin.
        revert r Hin. apply Forall_forall. by apply Forall_take, Forall_drop. }
      clear Hk. induction Hnew as [|rb row l l' Hset _ IH]; [constructor|].
      inversion Hz as [|? ? Hrb Hl]; subst.
      constructor; [|by apply IH].
      by rewrite (setslice_length _ _ _ _ _ Hset).
    + by apply Forall_drop.
Qed.

Lemma np_eye_shape n v :
  length (scale (np_eye n) v) = n
  ∧ Forall (λ row, length row = n) (scale (np_eye n) v).
Proof.
  unfold scale, np_eye. split.
  - by rewrite !length_fmap, length_seq.
  - apply Forall_fmap, Forall_fmap, Forall_forall. intros i _. cbn.
    by rewrite !length_fmap, length_seq.
Qed.

(** X9: when the default initialisation succeeds, the initial state
    has [k_states] entries and its covariance is [k_states] x [k_states],
    whatever shape the solver returned; the default path leaves the flag
    [_manual_initialization] unset unless stationarity is not enforced. *)
Theorem initialize_state_dimensions solve self variance self' :
  _manual_initialization self = false →
  initialize_state solve self variance = Ok self' →
  ∃ initial_state initial_state_cov,
    initial_distribution self'
    = Some (Known initial_state initial_state_cov)
    ∧ length initial_state = Z.to_nat (k_states (model self))
    ∧ length initial_state_cov = Z.to_nat (k_states (model self))
    ∧ Forall (λ row, length row = Z.to_nat (k_states (model self)))
        initial_state_cov
    ∧ model self' = model self
    ∧ _manual_initialization self' = negb (enforce_stationarity (model self)).
Proof.
  intros Hm H. unfold initialize_state in H. rewrite Hm in H.
  set (self0 := if negb (enforce_stationarity (model self))
                then initialize_approximate_diffuse self variance
                else self) in H.
  assert (model self0 = model self) as Hmodel
    by (subst self0; by destruct (enforce_stationarity (model self))).
  assert (_manual_initialization self0
          = negb (enforce_stationarity (model self))) as Hflag
    by (subst self0; by destruct (enforce_stationarity (model self))).
  rewrite Hmodel in H. clearbody self0.
  destruct (k_states (model self) <? 0)%Z; [discriminate H|].
  match type of H with
  | (let '(_, _) := ?p in _) = _ => destruct p as [start end_]
  end.
  match type of H with
  | mbind _ ?r = _ => destruct r as [cov|] eqn:Hcov; [|discriminate H]
  end.
  injection H as <-.
  exists (np_zeros (Z.to_nat (k_states (model self)))), cov.
  destruct (np_eye_shape (Z.to_nat (k_states (model self)))
              (default (initial_variance self0) variance)) as [Hrows Hcols].
  assert (length cov = Z.to_nat (k_states (model self))
          ∧ Forall (λ row, length row = Z.to_nat (k_states (model self)))
              cov) as [? ?].
  { destruct (0 <? _k_order (model self))%Z.
    - match type of Hcov with
      | mbind _ ?r = _ => destruct r as [P|]; [|discriminate Hcov]
      end.
      cbn [mbind result_bind] in Hcov.
      destruct variance;
        apply setblock_shape with (n := Z.to_nat (k_states (model self)))
          in Hcov as [-> ?]; done.
    - injection Hcov as <-. by destruct variance. }
  split_and!; try done. unfold np_zeros. by rewrite length_replicate.
Qed.

Lemma initialize_state_dimensions_witness :
  ∃ initial_state initial_state_cov,
    Some (Known [0%R] [[(4 / 3)%R]])
    = Some (Known initial_state initial_state_cov)
    ∧ length initial_state = 1
    ∧ length initial_state_cov = 1.
Proof.
  destruct (initialize_state_dimensions (λ _ _, Ok [[(4 / 3)%R]])
              (constructed Examples.ar1_unenforced_model 1000000
                 [[(1 / 2)%R]] [[1%R]] [[1%R]])
              None
              (super_initialize (Known [0%R] [[(4 / 3)%R]])
                 (initialize_approximate_diffuse
                    (constructed Examples.ar1_unenforced_model 1000000
                       [[(1 / 2)%R]] [[1%R]] [[1%R]]) None))
              eq_refl eq_refl)
    as (s & P & Hd & Hs & HP & _).
  exists s, P. split_and!; [exact Hd|exact Hs|exact HP].
Defined.

(** ** More on the parameter transforms *)

Lemma segment_length f k src c c' :
  segment f k src c = Ok c' → length (out c') = length (out c).
Proof.
  unfold segment. intros H.
  destruct (setslice _ _ _ _) as [out'|] eqn:E; [|discriminate H].
  injection H as <-. cbn. by apply setslice_length in E.
Qed.

Lemma element_length f advance src c c' :
  element f advance src c = Ok c' → length (out c') = length (out c).
Proof.
  unfold element. intros H.
  destruct (getitem _ _) as [x|]; [|discriminate H].
  cbn [mbind result_bind] in H.
  destruct (setitem _ _ _) as [out'|] eqn:E; [|discriminate H].
  injection H as <-. apply setitem_length in E. by destruct advance.
Qed.

(** X10: both transforms return a vector as long as their argument,
    whatever the lag-polynomial maps return and whatever the model. *)
Theorem transforms_preserve_length cs ucs m src dst :
  transform_params cs m src = Ok dst ∨ untransform_params ucs m src = Ok dst →
  length dst = length src.
Proof.
  assert (∀ f var, walk f var m src = Ok dst → length dst = length src)
    as Hwalk.
  { intros f var H. unfold walk in H.
    unfold trend_block, exog_block, lag_block, exog_variance_block,
      measurement_variance_block, variance_block in H.
    repeat match type of H with
           | mbind _ ?r = Ok _ =>
               let E := fresh "E" in
               destruct r as [?|] eqn:E; [|discriminate H];
               cbn [mbind result_bind] in H
           end.
    injection H as <-.
    repeat match goal with
           | E : (if ?b then _ else _) = Ok _ |- _ => destruct b
           | E : segment _ _ _ _ = Ok _ |- _ => apply segment_length in E
           | E : element _ _ _ _ = Ok _ |- _ => apply element_length in E
           | E : Ok _ = Ok _ |- _ => injection E as <-
           end;
      cbn [out] in *; rewrite ?length_replicate in *; congruence. }
  intros [H|H]; [rewrite walk_transform in H|rewrite walk_untransform in H];
    eauto.
Qed.

Lemma transforms_preserve_length_witness :
  length [(1 / 2)%R; square 2] = length [(1 / 2)%R; 2%R].
Proof.
  apply (transforms_preserve_length retain retain
           Examples.ar1_unenforced_model).
  left.
  refine (walk_layout retain square Examples.ar1_unenforced_model
            (λ _, eq_refl) [] [] [(1 / 2)%R] [] [] [] [] [] [2%R] []
            _ _ _ _ _ _ _ _ _); reflexivity.
Defined.

(** The cursor after the eight blocks that precede the state variance. *)
Lemma walk_before_variance f var m (t x a b sa sb ev me rest : list R) :
  (∀ l, length (f l) = length l) →
  Z.of_nat (length t) = len_trend m →
  Z.of_nat (length x) = len_exog m →
  Z.of_nat (length a) = len_ar m →
  Z.of_nat (length b) = len_ma m →
  Z.of_nat (length sa) = len_seasonal_ar m →
  Z.of_nat (length sb) = len_seasonal_ma m →
  Z.of_nat (length ev) = len_exog_variance m →
  Z.of_nat (length me) = len_measurement_variance m →
  let src := t ++ x ++ a ++ b ++ sa ++ sb ++ ev ++ me ++ rest in
  ∃ c seen produced,
    laid_out src c seen produced rest
    ∧ walk f var m src = (c ← variance_block var m src c; Ok (out c)).
Proof.
  intros Hf Ht Hx Ha Hb Hsa Hsb Hev Hme src. unfold walk.
  pose proof (laid_out_start src) as L. subst src.
  destruct (trend_block_laid_out _ _ _ _ _ _ _ L Ht) as (c1 & -> & L1).
  cbn [mbind result_bind].
  destruct (exog_block_laid_out _ _ _ _ _ _ _ L1 Hx) as (c2 & -> & L2).
  cbn [mbind result_bind].
  destruct (lag_block_laid_out f Hf (k_ar_params m) (enforce_stationarity m)
              (k_ar_params m) _ _ _ _ a _ L2) as (c3 & -> & L3).
  { unfold len_ar in Ha. rewrite Ha. case_match; lia. }
  cbn [mbind result_bind].
  destruct (lag_block_laid_out f Hf (k_ma_params m) (enforce_invertibility m)
              (k_ma_params m) _ _ _ _ b _ L3) as (c4 & -> & L4).
  { unfold len_ma in Hb. rewrite Hb. case_match; lia. }
  cbn [mbind result_bind].
  destruct (lag_block_laid_out f Hf (k_seasonal_ar m) (enforce_stationarity m)
              (k_seasonal_ar_params m) _ _ _ _ sa _ L4) as (c5 & -> & L5).
  { exact Hsa. }
  cbn [mbind result_bind].
  destruct (lag_block_laid_out f Hf (k_seasonal_ma_params m)
              (enforce_invertibility m) (k_seasonal_ma_params m)
              _ _ _ _ sb _ L5) as (c6 & -> & L6).
  { unfold len_seasonal_ma in Hsb. rewrite Hsb. case_match; lia. }
  cbn [mbind result_bind].
  destruct (exog_variance_block_laid_out var _ _ _ _ _ _ _ L6 Hev)
    as (c7 & -> & L7).
  cbn [mbind result_bind].
  destruct (measurement_variance_block_laid_out var _ _ _ _ _ _ _ L7 Hme)
    as (c8 & -> & L8).
  cbn [mbind result_bind]. eauto.
Qed.

Lemma getitem_past_end {A} (l : list A) :
  getitem l (Z.of_nat (length l)) = Raise IndexError.
Proof.
  unfold getitem, index.
  destruct (Z.ltb_spec (Z.of_nat (length l)) (Z.of_nat (length l))); [lia|].
  by rewrite andb_false_r.
Qed.

(** X11: a parameter vector that holds every segment but the final
    state variance is rejected with [IndexError] by both transforms of a
    model with a state error. *)
Theorem missing_variance_raises cs ucs m (t x a b sa sb ev me : list R) :
  (∀ l, length (cs l) = length l) →
  (∀ l, length (ucs l) = length l) →
  segmented m t x a b sa sb ev me [0%R] →
  transform_params cs m (t ++ x ++ a ++ b ++ sa ++ sb ++ ev ++ me)
  = Raise IndexError
  ∧ untransform_params ucs m (t ++ x ++ a ++ b ++ sa ++ sb ++ ev ++ me)
    = Raise IndexError.
Proof.
  intros Hcs Hucs (Ht & Hx & Ha & Hb & Hsa & Hsb & Hev & Hme & Hsv).
  assert (state_error m = true) as Hse.
  { unfold len_variance in Hsv. by destruct (state_error m). }
  assert (∀ f var, (∀ l, length (f l) = length l) →
            walk f var m (t ++ x ++ a ++ b ++ sa ++ sb ++ ev ++ me)
            = Raise IndexError) as Hwalk.
  { intros f var Hf.
    destruct (walk_before_variance f var m t x a b sa sb ev me [] Hf
                Ht Hx Ha Hb Hsa Hsb Hev Hme)
      as (c & seen & produced & (Hsrc & _ & Hstart & _) & Hw).
    rewrite !app_nil_r in Hw, Hsrc. rewrite Hw.
    rewrite (app_nil_r seen) in Hsrc. rewrite <- Hsrc in Hstart.
    unfold variance_block, element.
    by rewrite Hse, Hstart, getitem_past_end. }
  rewrite walk_transform, walk_untransform. split; by apply Hwalk.
Qed.

Lemma missing_variance_raises_witness :
  transform_params retain Examples.ar1_unenforced_model [(1 / 2)%R]
  = Raise IndexError.
Proof.
  refine (proj1 (missing_variance_raises retain retain
                   Examples.ar1_unenforced_model
                   [] [] [(1 / 2)%R] [] [] [] [] []
                   (λ _, eq_refl) (λ _, eq_refl) _)).
  unfold segmented. repeat split.
Defined.

(** X12: [transform_params] after [untransform_params], segment by
    segment: for a vector cut into the segments of the model whose
    variance entries are non-negative, the trend and regression
    coefficients come back as they are, a lag segment comes back as it is
    when its constraint is not enforced and as [constrain (unconstrain
    seg)] when it is, and every variance [v] comes back as the square of
    its square root, [(v ** 0.5) ** 2]. *)
Theorem untransform_then_transform cs ucs m (t x a b sa sb ev me sv : list R) :
  (∀ l, length (cs l) = length l) →
  (∀ l, length (ucs l) = length l) →
  segmented m t x a b sa sb ev me sv →
  Forall (λ v, (0 <= v)%R) (ev ++ me ++ sv) →
  ∃ u,
    untransform_params ucs m (t ++ x ++ a ++ b ++ sa ++ sb ++ ev ++ me ++ sv)
    = Ok u
    ∧ transform_params cs m u
      = Ok (t ++ x
            ++ through (enforce_stationarity m) (cs ∘ ucs) a
            ++ through (enforce_invertibility m) (cs ∘ ucs) b
            ++ through (enforce_stationarity m) (cs ∘ ucs) sa
            ++ through (enforce_invertibility m) (cs ∘ ucs) sb
            ++ (square ∘ square_root <$> ev)
            ++ (square ∘ square_root <$> me)
            ++ (square ∘ square_root <$> sv)).
Proof.
  intros Hcs Hucs (Ht & Hx & Ha & Hb & Hsa & Hsb & Hev & Hme & Hsv) _.
  eexists. split.
  - rewrite walk_untransform.
    rewrite <- (app_nil_r sv) at 1. by apply walk_layout.
  - rewrite walk_transform. cbn [length replicate].
    rewrite walk_layout;
      rewrite ?through_length, ?length_fmap; try done.
    rewrite !through_through, <- !list_fmap_compose.
    by rewrite !app_nil_r.
Qed.

Lemma untransform_then_transform_witness :
  ∃ u,
    untransform_params retain Examples.ar1_unenforced_model
      [(1 / 2)%R; 2%R] = Ok u
    ∧ transform_params retain Examples.ar1_unenforced_model u
      = Ok [(1 / 2)%R; square (square_root 2)].
Proof.
  refine (untransform_then_transform retain retain
            Examples.ar1_unenforced_model
            [] [] [(1 / 2)%R] [] [] [] [] [] [2%R]
            (λ _, eq_refl) (λ _, eq_refl) _ _).
  - unfold segmented. repeat split.
  - repeat constructor. lra.
Defined.

(** ** More on the information criteria *)

Lemma getslice_suffix {A} (l : list A) (b : Z) :
  (0 ≤ b)%Z → getslice l (Some b) None = drop (Z.to_nat b) l.
Proof.
  intros Hb. unfold getslice, slice_bounds, clip.
  destruct (Z.ltb_spec b 0); [lia|].
  destruct (Z.min_spec b (Z.of_nat (length l))) as [[? ->]|[? ->]].
  - apply take_ge. rewrite length_drop. lia.
  - rewrite Nat2Z.id, Z.sub_diag, !drop_ge by lia. done.
Qed.

Section more_criteria.
Import MLEResults.
Local Open Scope R_scope.

Lemma two_ln_lt y : 0 < y → 2 * ln y < y.
Proof.
  intros Hy.
  pose proof (exp_ineq1_le (ln (y / 2))) as H.
  rewrite exp_ln in H by lra.
  unfold Rdiv in H. rewrite ln_mult, ln_Rinv in H by lra.
  assert (ln 2 < 1) as H2.
  { rewrite <- (ln_exp 1). apply ln_increasing; [lra|].
    pose proof (exp_ineq1 1). lra. }
  lra.
Qed.

Lemma exp_exp_1_lt_100 : exp (exp 1) < 100.
Proof.
  apply Rle_lt_trans with (exp 3).
  - destruct (Rle_lt_or_eq_dec _ _ exp_le_3) as [H| ->]; [|lra].
    left. by apply exp_increasing.
  - replace 3 with (1 + 1 + 1) by lra. rewrite !exp_plus.
    pose proof exp_le_3. pose proof (exp_pos 1). nra.
Qed.

(** X13: the Hannan-Quinn criterion lies between AIC and BIC for a
    non-empty parameter vector: below BIC as soon as [nobs > 1], above AIC
    as soon as [nobs > e^e]. *)
Theorem hqic_between_aic_and_bic (self : t) :
  params self ≠ [] →
  (1 < IZR (nobs self) → hqic self < bic self)
  ∧ (exp (exp 1) < IZR (nobs self) → aic self < hqic self).
Proof.
  intros Hp. unfold aic, bic, hqic, params_shape0.
  assert (0 < INR (length (params self))) as Hk.
  { apply lt_0_INR. destruct (params self); [done|cbn; lia]. }
  split; intros Hn.
  - assert (0 < ln (IZR (nobs self))) as Hln.
    { rewrite <- ln_1. apply ln_increasing; lra. }
    pose proof (two_ln_lt _ Hln). nra.
  - assert (exp 1 < ln (IZR (nobs self))) as Hln.
    { rewrite <- (ln_exp (exp 1)). apply ln_increasing; [apply exp_pos|done]. }
    assert (1 < ln (ln (IZR (nobs self)))) as Hlnln.
    { rewrite <- (ln_exp 1) at 1. apply ln_increasing; [apply exp_pos|done]. }
    nra.
Qed.

Lemma hqic_between_aic_and_bic_witness :
  aic Examples.one_parameter < hqic Examples.one_parameter
  ∧ hqic Examples.one_parameter < bic Examples.one_parameter.
Proof.
  destruct (hqic_between_aic_and_bic Examples.one_parameter) as [H1 H2];
    [discriminate|].
  split; [apply H2; exact exp_exp_1_lt_100|apply H1; cbn; lra].
Defined.

Lemma getslice_burn {A} (burnt kept : list A) :
  getslice (burnt ++ kept) (Some (Z.of_nat (length burnt))) None = kept.
Proof.
  rewrite getslice_suffix by lia. by rewrite Nat2Z.id, drop_app_length.
Qed.

(** X14: the log-likelihood is the sum of the per-observation values
    behind the burn-in alone: when the values are [burnt ++ kept] with
    [loglikelihood_burn] values in [burnt], [llf] is the sum of [kept], so
    results with other values in the burn-in have the same [llf]; and a
    burn-in that covers the sample leaves 0. *)
Theorem llf_skips_burn (self : t) :
  (∀ burnt kept : list R,
     loglikelihood self = burnt ++ kept →
     Z.of_nat (length burnt) = loglikelihood_burn self →
     llf self = rsum kept
     ∧ ∀ (other : t) (burnt' : list R),
         loglikelihood other = burnt' ++ kept →
         Z.of_nat (length burnt') = loglikelihood_burn other →
         llf other = llf self)
  ∧ ((Z.of_nat (length (loglikelihood self)) ≤ loglikelihood_burn self)%Z →
     llf self = 0).
Proof.
  assert (∀ r b k, loglikelihood r = b ++ k →
            Z.of_nat (length b) = loglikelihood_burn r →
            llf r = rsum k) as Hllf.
  { intros r b k Hr Hk. unfold llf. by rewrite Hr, <- Hk, getslice_burn. }
  split.
  - intros burnt kept Hl Hb. split; [by apply (Hllf self burnt)|].
    intros other burnt' Hl' Hb'.
    by rewrite (Hllf other burnt' kept), (Hllf self burnt kept).
  - intros Hlen. unfold llf.
    rewrite getslice_suffix by lia. by rewrite drop_ge by lia.
Qed.

Lemma llf_skips_burn_witness :
  llf Examples.burnt_in = rsum [-1; -2].
Proof.
  apply (proj1 (llf_skips_burn Examples.burnt_in) [-10] [-1; -2]);
    reflexivity.
Defined.
End more_criteria.

(** ** More on the maximum-likelihood driver *)

Section more_driver_facts.
Import MLEModel.
Context {Self MLEFit Filtered : Type} `{!Interface Self MLEFit Filtered}.

Lemma setdefault_spec key v (kwargs : gmap string value) key' :
  setdefault key v kwargs !! key'
  = if decide (key = key') then Some (default v (kwargs !! key))
    else kwargs !! key'.
Proof.
  unfold setdefault. destruct (kwargs !! key) eqn:E.
  - destruct (decide (key = key')) as [<-|]; by rewrite ?E.
  - destruct (decide (key = key')) as [<-|].
    + by rewrite lookup_insert_eq.
    + by rewrite lookup_insert_ne.
Qed.

(** X15: the first optimiser call of a fit that returns keeps every
    keyword argument of the caller; for the methods 'lbfgs' and 'bfgs' it
    adds [approx_grad=True] and [epsilon=1e-5] where the caller gave none,
    for every other method it passes [kwargs] on as they are; the averaging
    flag handed to the likelihood is the caller's [average_loglike],
    defaulting to [True]. *)
Theorem first_optimiser_call self start transformed method maxiter
    full_output disp return_params bfgs_tune kwargs out self' calls :
  fit self start transformed method maxiter full_output disp return_params
    bfgs_tune kwargs = Ok (out, self', calls) →
  ∃ first rest,
    calls = first :: rest
    ∧ call_method first = method
    ∧ (∀ key v, kwargs !! key = Some v → call_kwargs first !! key = Some v)
    ∧ (if is_method method "lbfgs" || is_method method "bfgs"
       then call_kwargs first !! "approx_grad"
            = Some (default (VBool true) (kwargs !! "approx_grad"))
            ∧ call_kwargs first !! "epsilon"
              = Some (default (VFloat (1 / 100000)) (kwargs !! "epsilon"))
       else call_kwargs first = kwargs)
    ∧ call_fargs first
      = (default (VBool true) (kwargs !! "average_loglike"), false, false).
Proof.
  intros H. unfold fit in H.
  destruct (match start with
            | Some sp => Ok (sp, transformed)
            | None => start_params self ≫= λ sp, Ok (sp, true)
            end) as [[sp tr]|] eqn:E0;
    cbn [mbind result_bind] in H; [|discriminate H].
  destruct (if tr then untransform_params self sp else Ok sp)
    as [u|] eqn:E1; cbn [mbind result_bind] in H; [|discriminate H].
  match type of H with
  | mbind _ (super_fit self ?c) = _ => set (first := c) in *
  end.
  destruct (super_fit self first) as [[mlefit s1]|] eqn:E2;
    cbn [mbind result_bind] in H; [|discriminate H].
  assert (∃ rest, calls = first :: rest) as [rest ->].
  { destruct (bfgs_tune && is_method method "lbfgs"
              || is_method method "bfgs").
    - destruct (del _ _) as [kw|]; cbn [mbind result_bind] in H;
        [|discriminate H].
      destruct (super_fit s1 _) as [[m2 s2]|]; cbn [mbind result_bind] in H;
        [|discriminate H].
      destruct (update s2 _ _ _) as [[? s3]|]; cbn [mbind result_bind] in H;
        [|discriminate H].
      destruct return_params;
        (destruct (filter s3 _) as [[? s4]|]; cbn [mbind result_bind] in H;
         [|discriminate H]);
        injection H as <- <- <-; eauto.
    - cbn [mbind result_bind] in H.
      destruct (update s1 _ _ _) as [[? s3]|]; cbn [mbind result_bind] in H;
        [|discriminate H].
      destruct return_params;
        (destruct (filter s3 _) as [[? s4]|]; cbn [mbind result_bind] in H;
         [|discriminate H]);
        injection H as <- <- <-; eauto. }
  exists first, rest. subst first. cbn [call_method call_kwargs call_fargs].
  split_and!; try done.
  - intros key v Hkey. destruct (_ || _); [|done].
    rewrite !setdefault_spec. repeat case_decide; subst; by rewrite ?Hkey.
  - destruct (_ || _); [|done].
    rewrite !setdefault_spec. split; repeat case_decide; subst; done.
  - unfold get. destruct (_ || _); [|done].
    rewrite !setdefault_spec. repeat case_decide; subst; done.
Qed.

(** X16: [loglike] hands the caller's keyword arguments to the parent
    class with [recreate] filled in only where the caller gave none: the
    parent receives the caller's [recreate] if there is one and [False]
    otherwise, and every other keyword argument as the caller gave it. *)
Theorem loglike_recreate_default (self : Self) new_params average_loglike
    transformed set_params kwargs :
  ∃ passed,
    passed !! "recreate" = Some (default (VBool false) (kwargs !! "recreate"))
    ∧ (∀ key, key ≠ "recreate" → passed !! key = kwargs !! key)
    ∧ loglike self new_params average_loglike transformed set_params kwargs
      = (self ← (match new_params with
                 | Some p => snd <$> update self p transformed set_params
                 | None => Ok self
                 end);
         '(loglike, self) ← super_loglike self passed;
         if average_loglike
         then Ok ((loglike / IZR (nobs self))%R, self)
         else Ok (loglike, self)).
Proof.
  exists (setdefault "recreate" (VBool false) kwargs). split_and!.
  - rewrite setdefault_spec. by rewrite decide_True.
  - intros key Hkey. rewrite setdefault_spec. by rewrite decide_False.
  - reflexivity.
Qed.
End more_driver_facts.

Lemma loglike_recreate_default_witness :
  fst <$> @MLEModel.loglike unit unit unit Examples.recreate_probe ()
            None false true true {["recreate" := MLEModel.VBool true]}
  = Ok 1%R
  ∧ fst <$> @MLEModel.loglike unit unit unit Examples.recreate_probe ()
              None false true true ∅
    = Ok 0%R.
Proof.
  split.
  - destruct (@loglike_recreate_default unit unit unit
                Examples.recreate_probe () None false true true
                {["recreate" := MLEModel.VBool true]})
      as (passed & Hrecreate & _ & ->).
    cbn. rewrite Hrecreate. by rewrite lookup_singleton_eq.
  - destruct (@loglike_recreate_default unit unit unit
                Examples.recreate_probe () None false true true ∅)
      as (passed & Hrecreate & _ & ->).
    cbn. rewrite Hrecreate. by rewrite lookup_empty.
Defined.

Lemma first_optimiser_call_witness :
  ∃ first rest,
    snd <$> MLEModel.fit Examples.plain_model None true "bfgs" 50 1 5
              false false ∅
    = Ok (first :: rest)
    ∧ MLEModel.call_kwargs first !! "approx_grad"
      = Some (MLEModel.VBool true).
Proof.
  destruct plain_fit_returns as [[[out self'] calls] E].
  destruct (first_optimiser_call _ _ _ _ _ _ _ _ _ _ _ _ _ E)
    as (first & rest & -> & _ & _ & [Hgrad _] & _).
  exists first, rest. by rewrite E.
Defined.

(** ** More on prediction *)

Section more_predict_facts.
Import SARIMAXResults.
Context {Forecast Kwargs : Type}.
Variable _get_predict_start : t → MLEResults.time_index → result Z.
Variable _get_predict_end :
  t → option MLEResults.time_index → result (Z * Z).
Variable extend : t → ndarray → Z → Kwargs → result (ndarray * Kwargs).
Variable super_predict :
  t → MLEResults.time_index → option MLEResults.time_index →
  option ndarray → Z → R → Kwargs → result Forecast.

(** X17: when no regressors are needed -- the coefficients are not in
    the state, and either the model has no regression or the prediction
    stays in the sample -- [predict] hands its arguments to the parent
    class unchanged, [exog] included, and warns exactly when an [exog] was
    supplied. *)
Theorem predict_without_required_exog self start end_ exog dynamic alpha
    kwargs s e out_of_sample :
  state_regression self = false →
  mle_regression self = false ∨ out_of_sample = 0%Z →
  _get_predict_start self (default (MLEResults.Observation 0) start) = Ok s →
  _get_predict_end self end_ = Ok (e, out_of_sample) →
  predict _get_predict_start _get_predict_end extend super_predict
    self start end_ exog dynamic alpha kwargs
  = (λ f, (f, match exog with Some _ => [ExogIgnored] | None => [] end))
      <$> super_predict self (default (MLEResults.Observation 0) start) end_
            exog dynamic alpha kwargs.
Proof.
  intros Hs Hm Hstart Hend. unfold predict.
  rewrite Hstart, Hend. cbn [mbind result_bind]. rewrite Hs, orb_false_r.
  assert (truthy out_of_sample && mle_regression self = false) as ->.
  { destruct Hm as [->| ->]; [apply andb_false_r|done]. }
  destruct exog; by destruct (super_predict _ _ _ _ _ _ _).
Qed.

(** X18: when regressors are needed, an [exog] whose shape is not
    [(out_of_sample, k_exog)] is rejected before the parent class is
    reached, and one of that shape is never reported as ignored. *)
Theorem predict_checks_exog_shape self start end_ x dynamic alpha kwargs
    s e out_of_sample :
  truthy out_of_sample && mle_regression self || state_regression self
  = true →
  _get_predict_start self (default (MLEResults.Observation 0) start) = Ok s →
  _get_predict_end self end_ = Ok (e, out_of_sample) →
  (shape x ≠ [out_of_sample; k_exog self] →
   predict _get_predict_start _get_predict_end extend super_predict
     self start end_ (Some x) dynamic alpha kwargs
   = Raise (ValueError shape_message))
  ∧ (shape x = [out_of_sample; k_exog self] →
     predict _get_predict_start _get_predict_end extend super_predict
       self start end_ (Some x) dynamic alpha kwargs
     = '(x', kwargs') ← extend self x out_of_sample kwargs;
       f ← super_predict self (default (MLEResults.Observation 0) start)
             end_ (Some x') dynamic alpha kwargs';
       Ok (f, [])).
Proof.
  intros Hreq Hstart Hend. unfold predict.
  rewrite Hstart, Hend. cbn [mbind result_bind]. rewrite Hreq.
  split; intros Hshape.
  - by rewrite bool_decide_eq_false_2.
  - by rewrite bool_decide_eq_true_2.
Qed.
End more_predict_facts.

Lemma predict_without_required_exog_witness :
  SARIMAXResults.predict (Forecast := list R) (Kwargs := unit)
    Examples.predict_start_int Examples.predict_end_int
    (λ _ x _ kw, Ok (x, kw)) (λ _ _ _ _ _ _ _, Ok [])
    Examples.fitted_with_regressors None None
    (Some {| SARIMAXResults.shape := [1%Z; 2%Z];
             SARIMAXResults.values := [0%R; 0%R] |}) 0 (1 / 20) ()
  = Ok ([], [SARIMAXResults.ExogIgnored]).
Proof.
  exact (predict_without_required_exog Examples.predict_start_int
           Examples.predict_end_int (λ _ x _ kw, Ok (x, kw))
           (λ _ _ _ _ _ _ _, Ok []) Examples.fitted_with_regressors
           None None
           (Some {| SARIMAXResults.shape := [1%Z; 2%Z];
                    SARIMAXResults.values := [0%R; 0%R] |})
           0%Z (1 / 20)%R () 0%Z 9%Z 0%Z
           eq_refl (or_intror eq_refl) eq_refl eq_refl).
Defined.

Lemma predict_checks_exog_shape_witness :
  SARIMAXResults.predict (Forecast := list R) (Kwargs := unit)
    Examples.predict_start_int Examples.predict_end_int
    (λ _ x _ kw, Ok (x, kw)) (λ _ _ _ _ _ _ _, Ok [])
    Examples.fitted_with_regressors None
    (Some (MLEResults.Observation 14))
    (Some {| SARIMAXResults.shape := [5%Z; 3%Z];
             SARIMAXResults.values := [] |}) 0 (1 / 20) ()
  = Raise (ValueError SARIMAXResults.shape_message).
Proof.
  apply (predict_checks_exog_shape Examples.predict_start_int
           Examples.predict_end_int (λ _ x _ kw, Ok (x, kw))
           (λ _ _ _ _ _ _ _, Ok []) Examples.fitted_with_regressors
           None (Some (MLEResults.Observation 14))
           {| SARIMAXResults.shape := [5%Z; 3%Z];
              SARIMAXResults.values := [] |}
           0%Z (1 / 20)%R () 0%Z 9%Z 5%Z eq_refl eq_refl eq_refl).
  discriminate.
Defined.

(** ** The parameters as [update] reads them *)

Lemma getslice_between {A} (pre seg post : list A) (s e : Z) :
  s = Z.of_nat (length pre) →
  e = (s + Z.of_nat (length seg))%Z →
  getslice (pre ++ seg ++ post) (Some s) (Some e) = seg.
Proof. intros -> ->. apply getslice_app. Qed.

(** X19: [update] reads the parameter vector in the layout the
    transforms write: for a vector cut into the nine segments of the model
    (the seasonal AR guard of the transforms agreeing with the unguarded
    read of [update]), it extracts exactly these segments, and leaves unset
    what the model does not have. *)
Theorem update_reads_transform_layout m (t x a b sa sb ev me sv rest : list R) :
  segmented m t x a b sa sb ev me sv →
  len_seasonal_ar m = k_seasonal_ar_params m →
  extract m (t ++ x ++ a ++ b ++ sa ++ sb ++ ev ++ me ++ sv ++ rest)
  = Ok {| params_trend := t;
          params_exog := if mle_regression m then Some x else None;
          params_ar := a;
          params_ma := b;
          params_seasonal_ar := sa;
          params_seasonal_ma := sb;
          params_exog_variance :=
            if state_regression m && time_varying_regression m
            then Some ev else None;
          params_measurement_variance := head me;
          params_variance := head sv |}.
Proof.
  intros (Ht & Hx & Ha & Hb & Hsa & Hsb & Hev & Hme & Hsv) Hguard.
  unfold len_trend, len_exog, len_ar, len_ma, len_seasonal_ma,
    len_exog_variance, len_measurement_variance, len_variance in *.
  rewrite Hguard in Hsa. clear Hguard.
  set (params := t ++ x ++ a ++ b ++ sa ++ sb ++ ev ++ me ++ sv ++ rest).
  unfold extract.
  assert (getslice params (Some 0%Z) (Some (0 + k_trend m)%Z) = t) as ->.
  { apply (getslice_between []); cbn [length]; lia. }
  set (c1 := if mle_regression m
             then (Some (getslice params (Some (0 + k_trend m)%Z)
                           (Some (0 + k_trend m + k_exog m)%Z)),
                   (0 + k_trend m + k_exog m)%Z,
                   (0 + k_trend m + k_exog m)%Z)
             else (None, (0 + k_trend m)%Z, (0 + k_trend m)%Z)).
  assert (c1 = (if mle_regression m then Some x else None,
                Z.of_nat (length (t ++ x)), Z.of_nat (length (t ++ x))))
    as ->.
  { subst c1. rewrite length_app. destruct (mle_regression m).
    - unfold params. rewrite (getslice_between t x) by lia.
      do 2 f_equal; lia.
    - assert (x = []) as -> by (apply nil_length_inv; lia).
      cbn [length]. do 2 f_equal; lia. }
  cbv beta iota zeta.
  assert (getslice params (Some (Z.of_nat (length (t ++ x))))
            (Some (Z.of_nat (length (t ++ x)) + k_ar_params m)%Z) = a) as ->.
  { unfold params. rewrite (app_assoc t x).
    apply getslice_between; lia. }
  assert (getslice params
            (Some (Z.of_nat (length (t ++ x)) + k_ar_params m)%Z)
            (Some (Z.of_nat (length (t ++ x)) + k_ar_params m
                   + k_ma_params m)%Z) = b) as ->.
  { unfold params. rewrite (app_assoc t x), (app_assoc _ a).
    apply getslice_between; rewrite ?length_app; lia. }
  assert (getslice params
            (Some (Z.of_nat (length (t ++ x)) + k_ar_params m
                   + k_ma_params m)%Z)
            (Some (Z.of_nat (length (t ++ x)) + k_ar_params m
                   + k_ma_params m + k_seasonal_ar_params m)%Z) = sa) as ->.
  { unfold params. rewrite (app_assoc t x), (app_assoc _ a), (app_assoc _ b).
    apply getslice_between; rewrite ?length_app; lia. }
  assert (getslice params
            (Some (Z.of_nat (length (t ++ x)) + k_ar_params m
                   + k_ma_params m + k_seasonal_ar_params m)%Z)
            (Some (Z.of_nat (length (t ++ x)) + k_ar_params m
                   + k_ma_params m + k_seasonal_ar_params m
                   + k_seasonal_ma_params m)%Z) = sb) as ->.
  { unfold params.
    rewrite (app_assoc t x), (app_assoc _ a), (app_assoc _ b),
      (app_assoc _ sa).
    apply getslice_between; rewrite ?length_app; lia. }
  set (pre := ((((t ++ x) ++ a) ++ b) ++ sa) ++ sb).
  assert (params = pre ++ ev ++ me ++ sv ++ rest)
    as Hp5 by (subst params pre; by rewrite <- !app_assoc).
  set (s5 := (Z.of_nat (length (t ++ x)) + k_ar_params m + k_ma_params m
              + k_seasonal_ar_params m + k_seasonal_ma_params m)%Z).
  assert (s5 = Z.of_nat (length pre)) as Hs5
    by (subst s5 pre; rewrite !length_app; lia).
  set (c2 := if state_regression m && time_varying_regression m
             then (Some (getslice params (Some s5) (Some (s5 + k_exog m)%Z)),
                   (s5 + k_exog m)%Z, (s5 + k_exog m)%Z)
             else (None, s5, s5)).
  assert (c2 = (if state_regression m && time_varying_regression m
                then Some ev else None,
                Z.of_nat (length (pre ++ ev)), Z.of_nat (length (pre ++ ev))))
    as ->.
  { subst c2. rewrite length_app.
    destruct (state_regression m && time_varying_regression m).
    - rewrite Hp5, (getslice_between pre ev) by lia. do 2 f_equal; lia.
    - assert (ev = []) as -> by (apply nil_length_inv; lia).
      cbn [length]. do 2 f_equal; lia. }
  cbv beta iota zeta.
  assert (params = (pre ++ ev) ++ me ++ sv ++ rest)
    as Hp6 by (rewrite Hp5; by rewrite <- !app_assoc).
  destruct (measurement_error m), (state_error m); cbn [Z.b2z] in Hme, Hsv;
    destruct me as [|y [|]]; try (cbn in Hme; lia);
    destruct sv as [|z [|]]; try (cbn in Hsv; lia);
    rewrite ?Hp6; cbn [app head];
    rewrite ?getitem_app; cbn [mbind result_bind fmap result_fmap];
    rewrite ?getitem_app; cbn [mbind result_bind fmap result_fmap];
    try reflexivity.
  replace (Z.of_nat (length (pre ++ ev)) + 1)%Z
    with (Z.of_nat (length ((pre ++ ev) ++ [y])))
    by (rewrite (length_app _ [y]); cbn; lia).
  replace ((pre ++ ev) ++ y :: z :: rest)
    with (((pre ++ ev) ++ [y]) ++ z :: rest) by (by rewrite <- app_assoc).
  by rewrite getitem_app.
Qed.

Lemma update_reads_transform_layout_witness :
  extract Examples.ar1_unenforced_model [(1 / 2)%R; 2%R]
  = Ok {| params_trend := []; params_exog := None;
          params_ar := [(1 / 2)%R]; params_ma := [];
          params_seasonal_ar := []; params_seasonal_ma := [];
          params_exog_variance := None;
          params_measurement_variance := None;
          params_variance := Some 2%R |}.
Proof.
  refine (update_reads_transform_layout Examples.ar1_unenforced_model
            [] [] [(1 / 2)%R] [] [] [] [] [] [2%R] [] _ eq_refl).
  unfold segmented. repeat split.
Defined.

(** ** The fixed components of the representation *)

Lemma times_length {A} (l : list A) k :
  length (times l k) = Z.to_nat k * length l.
Proof.
  unfold times. induction (Z.to_nat k) as [|n IH]; [done|].
  rewrite join_replicate_S, length_app, IH. lia.
Qed.

(** The differencing block of the state, after the constructor. *)
Lemma state_differencing a m :
  __init__ a = Ok m →
  (0 ≤ k_diff m)%Z → (0 ≤ k_seasonal_diff m)%Z →
  (_k_diff m = if simple_differencing m then 0 else k_diff m)%Z
  ∧ (_k_seasonal_diff m
     = if simple_differencing m then 0 else k_seasonal_diff m)%Z.
Proof.
  intros H Hd HD.
  destruct (differencing_as_set a m H) as (_ & _ & _ & _ & -> & -> & _).
  destruct (simple_differencing m); cbn [andb]; [|done].
  destruct (Z.ltb_spec 0 (k_diff m)), (Z.ltb_spec 0 (k_seasonal_diff m));
    cbn; split; lia.
Qed.

(** Regressors in the state of a constructed model. *)
Lemma state_regression_columns a m :
  __init__ a = Ok m →
  ((if state_regression m then k_exog m else 0)
   = Z.max 0 ((1 - Z.b2z (mle_regression m)) * k_exog m))%Z.
Proof.
  intros H. destruct (regression_as_set a m H) as (Hk & Hmle & Hstate).
  rewrite Hstate.
  destruct (mle_regression m); cbn [negb andb Z.b2z]; [lia|].
  destruct (arg_exog a) as [shape|]; cbn.
  - destruct (Z.ltb_spec 0 (k_exog m)); lia.
  - injection Hk as <-. done.
Qed.

Lemma order_block_nonnegative a m :
  __init__ a = Ok m → (0 ≤ _k_order m)%Z.
Proof.
  intros H. destruct (k_states_as_computed a m H) as [_ ->].
  destruct (orders_nonnegative a m H) as (? & ? & ? & ?).
  case_match; lia.
Qed.

(** X20: the selection matrix of a constructed model has one row per
    state and one column per positive-definite entry of the state
    covariance, for non-negative differencing orders and period. *)
Theorem initial_selection_shape a m :
  __init__ a = Ok m →
  (0 ≤ k_diff m)%Z → (0 ≤ k_seasonal_diff m)%Z → (0 ≤ k_seasons m)%Z →
  ∃ selection,
    initial_selection m = Ok selection
    ∧ Z.of_nat (length selection) = k_states m
    ∧ Forall (λ row, Z.of_nat (length row) = k_posdef m) selection.
Proof.
  intros H Hd HD Hs.
  destruct (state_differencing a m H Hd HD) as [Hkd HkD].
  pose proof (state_regression_columns a m H) as Hreg.
  destruct (error_terms_as_set a m H) as (Hse & Hpd & _).
  pose proof (order_block_nonnegative a m H) as Hord.
  destruct (k_states_as_computed a m H) as [Hstates _].
  unfold initial_selection.
  rewrite (constructed_not_time_varying a m H), andb_false_r. cbn [negb].
  rewrite Hpd, Hse in *.
  destruct (Z.ltb_spec 0 (_k_order m)) as [Ho|Ho]; cbn [Z.b2z].
  - eexists. split; [reflexivity|]. split.
    + rewrite length_fmap, !length_app, !times_length. cbn [length].
      rewrite Hstates, Hkd, HkD, Hreg.
      destruct (simple_differencing m); nia.
    + apply Forall_fmap, Forall_forall. by intros.
  - assert (_k_order m = 0%Z) as Ho0 by lia.
    unfold np_zeros2.
    assert (0 ≤ k_states m)%Z as Hnn.
    { rewrite Hstates, Hreg. destruct (simple_differencing m); nia. }
    destruct (Z.ltb_spec (k_states m) 0); [lia|]. cbn.
    eexists. split; [reflexivity|]. split.
    + rewrite length_replicate. lia.
    + by apply Forall_replicate.
Qed.

Lemma initial_selection_shape_witness :
  ∃ selection,
    initial_selection Examples.ar1_two_regressors_model = Ok selection
    ∧ Z.of_nat (length selection) = 1%Z.
Proof.
  destruct (initial_selection_shape Examples.ar1_two_regressors
              Examples.ar1_two_regressors_model
              ar1_two_regressors_constructed)
    as (selection & Hs & Hrows & _); [cbn; lia|cbn; lia|cbn; lia|].
  exists selection. split; [exact Hs|exact Hrows].
Defined.

Lemma transpose_to_shape cols (M : matrix) :
  length (transpose_to cols M) = cols
  ∧ Forall (λ row, length row = length M) (transpose_to cols M).
Proof.
  unfold transpose_to. split.
  - by rewrite length_fmap, length_seq.
  - apply Forall_fmap, Forall_forall. intros j _. cbn.
    by rewrite length_fmap.
Qed.

(** X21: the design of a constructed model has one entry per state:
    a vector of [k_states] entries, or with regression coefficients in the
    state [k_states] rows of one entry per observation.  This needs a
    period of at least 1 where the state carries seasonal differences, and,
    with regression coefficients in the state, an order block or no
    differencing in the state. *)
Theorem initial_design_shape a m (exog : matrix) :
  __init__ a = Ok m →
  (0 ≤ k_diff m)%Z → (0 ≤ k_seasonal_diff m)%Z →
  (_k_seasonal_diff m = 0 ∨ 1 ≤ k_seasons m)%Z →
  (state_regression m = true →
   (0 < _k_order m ∨ (_k_diff m = 0 ∧ _k_seasonal_diff m = 0))%Z) →
  ∃ design,
    initial_design m (length exog) exog = Ok design
    ∧ match design with
      | DesignVector v =>
          state_regression m = false ∧ Z.of_nat (length v) = k_states m
      | DesignTimeVarying rows =>
          state_regression m = true
          ∧ Z.of_nat (length rows) = k_states m
          ∧ Forall (λ row, length row = length exog) rows
      end.
Proof.
  intros H Hd HD Hs Hreg.
  destruct (state_differencing a m H Hd HD) as [Hkd HkD].
  destruct (error_terms_as_set a m H) as (Hse & _ & _).
  pose proof (order_block_nonnegative a m H) as Hord.
  destruct (k_states_as_computed a m H) as [Hstates _].
  destruct (regression_as_set a m H) as (_ & _ & Hstate).
  assert (state_regression m = true → (0 < k_exog m)%Z) as Hexog.
  { rewrite Hstate. intros [_ ?%Z.ltb_lt]%andb_true_iff. done. }
  set (design :=
         IZR <$> (times [1%Z] (_k_diff m)
                  ++ times (times [0%Z] (k_seasons m - 1) ++ [1%Z])
                       (_k_seasonal_diff m)
                  ++ times [1%Z] (Z.b2z (state_error m))
                  ++ times [0%Z] (_k_order m - 1))).
  assert (Z.of_nat (length design)
          = (_k_order m
             + (if simple_differencing m then 0
                else k_seasons m * k_seasonal_diff m + k_diff m))%Z)
    as Hlen.
  { subst design.
    rewrite length_fmap, !length_app, !times_length, length_app,
      times_length. cbn [length]. rewrite Hse.
    destruct (Z.ltb_spec 0 (_k_order m)); cbn [Z.b2z];
      rewrite Hkd, HkD in *; destruct (simple_differencing m); nia. }
  unfold initial_design. fold design.
  destruct (state_regression m) eqn:Hsr.
  - specialize (Hreg eq_refl). specialize (Hexog eq_refl).
    destruct (Z.ltb_spec 0 (_k_order m)) as [Ho|Ho].
    + unfold np_c_. rewrite length_replicate.
      destruct (decide (length exog = length exog)); [|done].
      cbn [mbind result_bind]. eexists. split; [reflexivity|].
      destruct (transpose_to_shape (length design + Z.to_nat (k_exog m))
                  (zip_with app (replicate (length exog) design) exog))
        as [-> Hrows].
      split_and!; [done|lia|].
      by rewrite length_zip_with, length_replicate, Nat.min_id in Hrows.
    + eexists. split; [reflexivity|].
      destruct (transpose_to_shape (Z.to_nat (k_exog m)) exog) as [-> Hrows].
      split_and!; [done| |done].
      destruct Hreg as [?|[Hz1 Hz2]]; [lia|].
      rewrite Hkd, HkD in *. destruct (simple_differencing m); nia.
  - eexists. split; [reflexivity|]. split; [done|]. lia.
Qed.

Lemma initial_design_shape_witness :
  ∃ design,
    initial_design Examples.defaults_model 0 [] = Ok design
    ∧ match design with
      | DesignVector v => Z.of_nat (length v) = 1%Z
      | DesignTimeVarying _ => False
      end.
Proof.
  destruct (initial_design_shape Examples.defaults Examples.defaults_model
              [] defaults_constructed)
    as (design & Hd & Hshape);
    [cbn; lia|cbn; lia|by left|discriminate|].
  exists design. split; [exact Hd|].
  destruct design as [v|rows]; [exact (proj2 Hshape)|].
  destruct Hshape as [Hsr _]. discriminate Hsr.
Defined.

(** ** Indices and data cached by [initialize] *)

Lemma nonzero_from_boolean i poly :
  Forall (λ f, f = 0%Z ∨ f = 1%Z) poly →
  Z.of_nat (length (nonzero_from i poly)) = np_sum poly
  ∧ Forall (λ j, i ≤ j < i + Z.of_nat (length poly))%Z (nonzero_from i poly).
Proof.
  intros Hb. revert i.
  induction Hb as [|f poly Hf _ IH]; intros i; [by split|].
  destruct (IH (i + 1)%Z) as [IHlen IHin].
  assert (Forall (λ j, i ≤ j < i + Z.of_nat (length (f :: poly)))%Z
            (nonzero_from (i + 1) poly)) as Hin.
  { eapply Forall_impl; [exact IHin|]. cbn [length]. intros; lia. }
  unfold np_sum in *. cbn [foldr].
  destruct Hf as [-> | ->]; cbn [nonzero_from Z.eqb].
  - split; [lia|done].
  - split; [cbn [length]; lia|]. constructor; [cbn [length]; lia|done].
Qed.

Lemma polynomial_idx_boolean poly :
  boolean_polynomial poly →
  Z.of_nat (length (getslice (nonzero poly) (Some 1%Z) None))
  = (np_sum poly - 1)%Z
  ∧ Forall (λ j, 1 ≤ j ≤ Z.of_nat (length poly) - 1)%Z
      (getslice (nonzero poly) (Some 1%Z) None).
Proof.
  intros [Hhead Hb]. destruct poly as [|c rest]; [done|].
  injection Hhead as ->. apply Forall_cons in Hb as [_ Hb].
  rewrite getslice_suffix by lia. cbn.
  destruct (nonzero_from_boolean 1 rest Hb) as [Hlen Hin].
  unfold np_sum in *. cbn [foldr].
  change (drop (Z.to_nat 1) (0%Z :: nonzero_from (0 + 1) rest))
    with (nonzero_from 1 rest).
  split; [lia|].
  eapply Forall_impl; [exact Hin|]. cbn. intros; lia.
Qed.

(** X22: where a lag polynomial of a constructed model consists of
    inclusion flags (the constant 1, then zeros and ones), the index list
    [initialize] caches for [update] has as many entries as the model has
    coefficients of that kind, each a lag between 1 and the order. *)
Theorem cached_indices_match_counts a m :
  __init__ a = Ok m →
  (boolean_polynomial (polynomial_ar m) →
   Z.of_nat (length (_polynomial_ar_idx m)) = k_ar_params m
   ∧ Forall (λ j, 1 ≤ j ≤ k_ar m)%Z (_polynomial_ar_idx m))
  ∧ (boolean_polynomial (polynomial_ma m) →
     Z.of_nat (length (_polynomial_ma_idx m)) = k_ma_params m
     ∧ Forall (λ j, 1 ≤ j ≤ k_ma m)%Z (_polynomial_ma_idx m))
  ∧ (boolean_polynomial (polynomial_seasonal_ar m) →
     Z.of_nat (length (_polynomial_seasonal_ar_idx m))
     = k_seasonal_ar_params m
     ∧ Forall (λ j, 1 ≤ j ≤ k_seasonal_ar m)%Z
         (_polynomial_seasonal_ar_idx m))
  ∧ (boolean_polynomial (polynomial_seasonal_ma m) →
     Z.of_nat (length (_polynomial_seasonal_ma_idx m))
     = k_seasonal_ma_params m
     ∧ Forall (λ j, 1 ≤ j ≤ k_seasonal_ma m)%Z
         (_polynomial_seasonal_ma_idx m)).
Proof.
  intros H. init_inv H. subst m.
  unfold _polynomial_ar_idx, _polynomial_ma_idx, _polynomial_seasonal_ar_idx,
    _polynomial_seasonal_ma_idx. cbn.
  split_and!; intros Hb; by apply polynomial_idx_boolean.
Qed.

Lemma cached_indices_match_counts_witness :
  Z.of_nat (length (_polynomial_ar_idx Examples.defaults_model)) = 1%Z.
Proof.
  apply (cached_indices_match_counts Examples.defaults
           Examples.defaults_model defaults_constructed).
  split; [reflexivity|]. repeat constructor; by right.
Defined.

Lemma ar1_integrated_quarterly_constructed :
  __init__ Examples.ar1_integrated_quarterly
  = Ok Examples.ar1_integrated_quarterly_model.
Proof. vm_compute. reflexivity. Qed.

(** X23: in a constructed model with a state error the state is made of
    [_k_diff + k_seasons * _k_seasonal_diff] differencing states, the
    [_k_order] states of the order block and the regression states, in
    this order; the blocks that [update] fills with the reduced-form AR and
    MA coefficients start at the first position behind the differencing
    states (the AR block, in the row or column of that position) and one
    position further (the MA block), have [k_ar + k_seasonal_ar] and
    [k_ma + k_seasonal_ma] entries, and end within the order block. *)
Theorem coefficient_blocks_within_states a m :
  __init__ a = Ok m →
  state_error m = true →
  (0 ≤ k_diff m)%Z → (0 ≤ k_seasonal_diff m)%Z → (0 ≤ k_seasons m)%Z →
  let differencing := (_k_diff m + k_seasons m * _k_seasonal_diff m)%Z in
  let regression := (if state_regression m then k_exog m else 0)%Z in
  (0 ≤ differencing ∧ 0 ≤ regression)%Z
  ∧ k_states m = (differencing + _k_order m + regression)%Z
  ∧ transition_ar_params_idx m
    = (if hamilton_representation m
       then ColumnsOfRow differencing differencing
              (differencing + (k_ar m + k_seasonal_ar m))
       else RowsOfColumn differencing
              (differencing + (k_ar m + k_seasonal_ar m)) differencing)
  ∧ (if hamilton_representation m
     then selection_ma_params_idx m = None
          ∧ design_ma_params_idx m
            = Some (ColumnsOfRow 0 (differencing + 1)
                      (differencing + 1 + (k_ma m + k_seasonal_ma m)))
     else selection_ma_params_idx m
          = Some (RowsOfColumn (differencing + 1)
                    (differencing + 1 + (k_ma m + k_seasonal_ma m)) 0)
          ∧ design_ma_params_idx m = None)
  ∧ (0 ≤ k_ar m + k_seasonal_ar m ≤ _k_order m)%Z
  ∧ (0 ≤ k_ma m + k_seasonal_ma m
     ∧ 1 + (k_ma m + k_seasonal_ma m) ≤ _k_order m)%Z.
Proof.
  intros H Hse Hd HD Hs differencing regression.
  destruct (state_differencing a m H Hd HD) as [Hkd HkD].
  destruct (k_states_as_computed a m H) as [Hstates Hord].
  destruct (orders_nonnegative a m H) as (? & ? & ? & ?).
  destruct (error_terms_as_set a m H) as (Hse' & _ & _).
  rewrite Hse in Hse'. symmetry in Hse'. apply Z.ltb_lt in Hse'.
  assert (k_ar m + k_seasonal_ar m ≤ _k_order m
          ∧ k_ma m + k_seasonal_ma m + 1 ≤ _k_order m)%Z as [Har Hma].
  { rewrite Hord in *. case_match; lia. }
  assert (0 ≤ regression)%Z as Hreg.
  { subst regression. rewrite (state_regression_columns a m H). lia. }
  assert (differencing
          = if simple_differencing m then 0
            else k_seasons m * k_seasonal_diff m + k_diff m)%Z as Hdiff.
  { subst differencing. rewrite Hkd, HkD.
    destruct (simple_differencing m); lia. }
  unfold transition_ar_params_idx, selection_ma_params_idx,
    design_ma_params_idx. cbv zeta. fold differencing.
  split; [|split; [|split; [|split]]].
  - split; [|done]. rewrite Hdiff. destruct (simple_differencing m); nia.
  - rewrite Hstates, Hdiff. subst regression. lia.
  - destruct (hamilton_representation m); cbn [negb]; f_equal; lia.
  - destruct (hamilton_representation m); cbn [negb]; split; try done;
      apply f_equal; f_equal; lia.
  - lia.
Qed.

Lemma coefficient_blocks_within_states_witness :
  k_states Examples.ar1_integrated_quarterly_model = 6%Z
  ∧ transition_ar_params_idx Examples.ar1_integrated_quarterly_model
    = RowsOfColumn 5 6 5
  ∧ selection_ma_params_idx Examples.ar1_integrated_quarterly_model
    = Some (RowsOfColumn 6 6 0).
Proof.
  destruct (coefficient_blocks_within_states
              Examples.ar1_integrated_quarterly
              Examples.ar1_integrated_quarterly_model
              ar1_integrated_quarterly_constructed)
    as (_ & Hstates & Har & Hma & _);
    [reflexivity|cbn; lia|cbn; lia|cbn; lia|].
  split; [exact Hstates|]. split; [exact Har|exact (proj1 Hma)].
Defined.

Lemma mapM_result_fmap {A B C} (f : B → result C) (h : A → B) (g : A → C) l :
  (∀ x, x ∈ l → f (h x) = Ok (g x)) → mapM f (h <$> l) = Ok (g <$> l).
Proof.
  induction l as [|x l IH]; intros Hf; [done|].
  cbn. rewrite (Hf x) by left. cbn [mbind result_bind].
  rewrite IH by (intros; apply Hf; by right). done.
Qed.

Lemma getitem_fmap_seq {A} (f : nat → A) (k c : nat) :
  c < k → getitem (f <$> seq 0 k) (Z.of_nat c) = Ok (f c).
Proof.
  intros Hc. unfold getitem, index. rewrite length_fmap, length_seq.
  destruct (Z.leb_spec (- Z.of_nat k) (Z.of_nat c)); [|lia].
  destruct (Z.ltb_spec (Z.of_nat c) (Z.of_nat k)); [|lia].
  destruct (Z.ltb_spec (Z.of_nat c) 0); [lia|].
  cbn [andb mbind result_bind]. rewrite Nat2Z.id.
  by rewrite list_lookup_fmap, lookup_seq_lt.
Qed.

Lemma setitem_fmap_seq {A} (f : nat → A) (k c : nat) (x : A) :
  c < k →
  setitem (f <$> seq 0 k) (Z.of_nat c) x
  = Ok ((λ i, if decide (i = c) then x else f i) <$> seq 0 k).
Proof.
  intros Hc. unfold setitem, index. rewrite length_fmap, length_seq.
  destruct (Z.leb_spec (- Z.of_nat k) (Z.of_nat c)); [|lia].
  destruct (Z.ltb_spec (Z.of_nat c) (Z.of_nat k)); [|lia].
  destruct (Z.ltb_spec (Z.of_nat c) 0); [lia|].
  cbn [andb mbind result_bind]. rewrite Nat2Z.id. f_equal.
  apply list_eq. intros i.
  destruct (decide (i = c)) as [->|Hne].
  - rewrite list_lookup_insert_eq by (by rewrite length_fmap, length_seq).
    rewrite list_lookup_fmap, lookup_seq_lt by done. cbn.
    by rewrite decide_True.
  - rewrite list_lookup_insert_ne by done.
    rewrite !list_lookup_fmap. destruct (seq 0 k !! i) as [j|] eqn:Hj; [|done].
    apply lookup_seq in Hj as [Hj _]. cbn in Hj. subst j.
    cbn. by rewrite decide_False.
Qed.

(** The trend data while its columns are being filled: the columns
    below [j] hold the powers of the time index, the others ones. *)
Lemma trend_data_filled (k nobs j : nat) :
  let filled (j : nat) : matrix :=
    (λ t, (λ i, if decide (i < j) then (IZR (Z.of_nat t + 1) ^ i)%R
                else 1%R) <$> seq 0 k) <$> seq 0 nobs in
  2 ≤ j →
  trend_powers (range (Z.of_nat j) (Z.of_nat k)) (filled j)
  = Ok (filled k).
Proof.
  intros filled Hj.
  remember (k - j) as n eqn:Hn. revert j Hj Hn.
  induction n as [|n IH]; intros j Hj Hn.
  - unfold range. replace (Z.to_nat (Z.of_nat k - Z.of_nat j)) with 0 by lia.
    cbn. f_equal. subst filled. cbn.
    apply list_fmap_ext. intros _ t _. apply list_fmap_ext. intros n' i Hi.
    apply lookup_seq in Hi as [Hi Hlt]. cbn in Hi. subst n'.
    repeat case_decide; try done; lia.
  - unfold range.
    replace (Z.to_nat (Z.of_nat k - Z.of_nat j)) with (S (k - S j)) by lia.
    cbn [seq fmap list_fmap trend_powers]. rewrite Z.add_0_r.
    assert (getcolumn (filled j) (Z.of_nat j - 1)
            = Ok ((λ t, (IZR (Z.of_nat t + 1) ^ (j - 1))%R) <$> seq 0 nobs))
      as ->.
    { unfold getcolumn, filled. apply mapM_result_fmap. intros t _.
      replace (Z.of_nat j - 1)%Z with (Z.of_nat (j - 1)) by lia.
      rewrite getitem_fmap_seq by lia. by rewrite decide_True by lia. }
    cbn [mbind result_bind].
    assert (getcolumn (filled j) 1
            = Ok ((λ t, IZR (Z.of_nat t + 1)) <$> seq 0 nobs)) as ->.
    { unfold getcolumn, filled. apply mapM_result_fmap. intros t _.
      rewrite (getitem_fmap_seq _ k 1) by lia.
      rewrite decide_True by lia. f_equal. lra. }
    cbn [mbind result_bind].
    assert (setcolumn (filled j) (Z.of_nat j)
              (zip_with Rmult
                 ((λ t, (IZR (Z.of_nat t + 1) ^ (j - 1))%R) <$> seq 0 nobs)
                 ((λ t, IZR (Z.of_nat t + 1)) <$> seq 0 nobs))
            = Ok (filled (S j))) as ->.
    { rewrite zip_with_fmap_l, zip_with_fmap_r, zip_with_diag.
      unfold setcolumn, filled.
      rewrite !length_fmap, !length_seq.
      destruct (decide (nobs = nobs)); [|done].
      rewrite zip_with_fmap_l, zip_with_fmap_r, zip_with_diag.
      apply mapM_result_fmap. intros t _. cbn [fst snd].
      rewrite setitem_fmap_seq by lia. f_equal.
      apply list_fmap_ext. intros n' i Hi.
      apply lookup_seq in Hi as [Hi Hlt]. cbn in Hi. subst n'.
      repeat case_decide; try done; try lia.
      assert (i = S (j - 1)) as -> by lia. cbn [pow]. lra. }
    cbn [mbind result_bind].
    specialize (IH (S j) ltac:(lia) ltac:(lia)).
    unfold range in IH.
    replace (Z.to_nat (Z.of_nat k - Z.of_nat (S j))) with (k - S j) in IH
      by lia.
    rewrite <- IH. f_equal.
    rewrite <- seq_shift, <- list_fmap_compose.
    apply list_fmap_ext. intros _ i _. cbn. lia.
Qed.

Lemma replicate_fmap_seq {A} n (x : A) : replicate n x = (λ _, x) <$> seq 0 n.
Proof.
  generalize 0. induction n as [|n IH]; intros s; [done|].
  cbn. f_equal. apply IH.
Qed.

(** X24: the trend data [initialize] caches holds the powers of the
    time index: row [t] (counting from 0) is [1, t+1, (t+1)^2, ...], one
    entry per trend coefficient. *)
Theorem initialize_trend_data_powers m nobs :
  (0 ≤ k_trend m)%Z →
  initialize_trend_data m nobs
  = Ok ((λ t, (λ i, (IZR (Z.of_nat t + 1) ^ i)%R)
                <$> seq 0 (Z.to_nat (k_trend m)))
          <$> seq 0 nobs).
Proof.
  intros Hk. unfold initialize_trend_data.
  destruct (Z.ltb_spec (k_trend m) 0); [lia|].
  set (k := Z.to_nat (k_trend m)).
  assert (k_trend m = Z.of_nat k) as Hkt by lia. rewrite Hkt.
  assert (∀ j, k ≤ j →
            (λ t, (λ i, if decide (i < j)
                        then (IZR (Z.of_nat t + 1) ^ i)%R else 1%R)
                    <$> seq 0 k) <$> seq 0 nobs
            = (λ t, (λ i, (IZR (Z.of_nat t + 1) ^ i)%R) <$> seq 0 k)
                <$> seq 0 nobs) as Hfull.
  { intros j Hj. apply list_fmap_ext. intros _ t _.
    apply list_fmap_ext. intros n' i Hi.
    apply lookup_seq in Hi as [Hi Hlt]. cbn in Hi. subst n'.
    by rewrite decide_True by lia. }
  assert (replicate nobs (replicate k 1%R)
          = (λ t, (λ i, if decide (i < 1)
                        then (IZR (Z.of_nat t + 1) ^ i)%R else 1%R)
                    <$> seq 0 k) <$> seq 0 nobs) as ->.
  { rewrite replicate_fmap_seq. apply list_fmap_ext. intros _ t _.
    rewrite replicate_fmap_seq. apply list_fmap_ext. intros _ i _.
    case_decide; [|done]. assert (i = 0) as -> by lia. done. }
  destruct (Z.ltb_spec 1 (Z.of_nat k)) as [H1|H1].
  - assert (setcolumn
              ((λ t, (λ i, if decide (i < 1)
                           then (IZR (Z.of_nat t + 1) ^ i)%R else 1%R)
                       <$> seq 0 k) <$> seq 0 nobs) 1
              (np_arange 1 (Z.of_nat nobs + 1))
            = Ok ((λ t, (λ i, if decide (i < 2)
                              then (IZR (Z.of_nat t + 1) ^ i)%R else 1%R)
                          <$> seq 0 k) <$> seq 0 nobs)) as ->.
    { unfold setcolumn, np_arange, range.
      replace (Z.to_nat (Z.of_nat nobs + 1 - 1)) with nobs by lia.
      rewrite !length_fmap, !length_seq.
      destruct (decide (nobs = nobs)); [|done].
      rewrite <- list_fmap_compose.
      rewrite zip_with_fmap_l, zip_with_fmap_r, zip_with_diag.
      apply mapM_result_fmap. intros t _. cbn [fst snd compose].
      rewrite (setitem_fmap_seq _ k 1) by lia. f_equal.
      apply list_fmap_ext. intros n' i Hi.
      apply lookup_seq in Hi as [Hi Hlt]. cbn in Hi. subst n'.
      repeat case_decide; try done; try lia.
      subst i. cbn [pow]. rewrite Z.add_comm. lra. }
    cbn [mbind result_bind].
    destruct (Z.ltb_spec 2 (Z.of_nat k)) as [H2|H2].
    + pose proof (trend_data_filled k nobs 2 ltac:(lia)) as Hf.
      cbv zeta in Hf. change (Z.of_nat 2) with 2%Z in Hf.
      rewrite Hf. f_equal. by apply Hfull.
    + f_equal. apply Hfull. lia.
  - cbn [mbind result_bind].
    destruct (Z.ltb_spec 2 (Z.of_nat k)); [lia|].
    f_equal. apply Hfull. lia.
Qed.

Lemma initialize_trend_data_powers_witness :
  initialize_trend_data Examples.ar1_with_drift_model 3
  = Ok [[1%R; 1%R]; [1%R; 2%R]; [1%R; 3%R]].
Proof.
  rewrite (initialize_trend_data_powers Examples.ar1_with_drift_model 3)
    by (cbn; lia).
  cbn. change (Z.to_nat 2) with 2. cbn. apply f_equal.
  repeat match goal with
         | |- _ :: _ = _ :: _ => apply f_equal2
         end; try reflexivity; rewrite Rmult_1_r; reflexivity.
Defined.

(** ** Parameter names *)

Lemma model_orders_lookup self :
  model_orders self !! "trend" = Some (k_trend self)
  ∧ model_orders self !! "exog" = Some (k_exog self)
  ∧ model_orders self !! "ar" = Some (k_ar self)
  ∧ model_orders self !! "ma" = Some (k_ma self)
  ∧ model_orders self !! "seasonal_ar" = Some (k_seasonal_ar self)
  ∧ model_orders self !! "seasonal_ma" = Some (k_seasonal_ma self)
  ∧ model_orders self !! "exog_variance"
    = Some (if state_regression self && time_varying_regression self
            then k_exog self else 0%Z)
  ∧ model_orders self !! "measurement_variance"
    = Some (Z.b2z (measurement_error self))
  ∧ model_orders self !! "variance" = Some (Z.b2z (state_error self)).
Proof.
  unfold model_orders.
  split_and!; repeat (rewrite lookup_insert_ne by done);
    by rewrite lookup_insert_eq.
Qed.

(** The kinds with a positive order, in the order of [params_complete]. *)
Lemma positive_orders_complete self :
  positive_orders (model_orders self) params_complete
  = Ok ((if (0 <? k_trend self)%Z then ["trend"] else [])
        ++ (if (0 <? k_exog self)%Z then ["exog"] else [])
        ++ (if (0 <? k_ar self)%Z then ["ar"] else [])
        ++ (if (0 <? k_ma self)%Z then ["ma"] else [])
        ++ (if (0 <? k_seasonal_ar self)%Z then ["seasonal_ar"] else [])
        ++ (if (0 <? k_seasonal_ma self)%Z then ["seasonal_ma"] else [])
        ++ (if (state_regression self && time_varying_regression self)
               && (0 <? k_exog self)%Z
            then ["exog_variance"] else [])
        ++ (if measurement_error self then ["measurement_variance"] else [])
        ++ (if state_error self then ["variance"] else [])).
Proof.
  destruct (model_orders_lookup self)
    as (H1 & H2 & H3 & H4 & H5 & H6 & H7 & H8 & H9).
  unfold params_complete. cbn [positive_orders]. unfold dict_getitem.
  rewrite H1, H2, H3, H4, H5, H6, H7, H8, H9.
  cbn [mbind result_bind]. f_equal.
  destruct (state_regression self && time_varying_regression self),
    (0 <? k_trend self)%Z, (0 <? k_exog self)%Z, (0 <? k_ar self)%Z,
    (0 <? k_ma self)%Z, (0 <? k_seasonal_ar self)%Z,
    (0 <? k_seasonal_ma self)%Z,
    (measurement_error self), (state_error self);
    reflexivity.
Qed.

(** The kinds [params_included] returns. *)
Lemma params_included_as_list self :
  params_included self
  = Ok ((if (0 <? k_trend self)%Z then ["trend"] else [])
        ++ (if (0 <? k_exog self)%Z && mle_regression self
            then ["exog"] else [])
        ++ (if (0 <? k_ar self)%Z then ["ar"] else [])
        ++ (if (0 <? k_ma self)%Z then ["ma"] else [])
        ++ (if (0 <? k_seasonal_ar self)%Z then ["seasonal_ar"] else [])
        ++ (if (0 <? k_seasonal_ma self)%Z then ["seasonal_ma"] else [])
        ++ (if (state_regression self && time_varying_regression self)
               && (0 <? k_exog self)%Z
            then ["exog_variance"] else [])
        ++ (if measurement_error self then ["measurement_variance"] else [])
        ++ (if state_error self then ["variance"] else [])).
Proof.
  unfold params_included. rewrite positive_orders_complete.
  cbn [mbind result_bind]. f_equal.
  set (rest := (if (0 <? k_ar self)%Z then ["ar"] else []) ++ _).
  assert ("exog" ∉ rest) as Hrest.
  { subst rest. repeat case_match; cbn [app]; intros Hin;
      repeat (apply elem_of_cons in Hin as [Hin|Hin]; [discriminate Hin|]);
      by apply elem_of_nil in Hin. }
  destruct (0 <? k_trend self)%Z, (0 <? k_exog self)%Z; cbn [app andb].
  - rewrite bool_decide_eq_true_2 by (right; left).
    by destruct (mle_regression self).
  - rewrite bool_decide_eq_false_2; [done|].
    by intros [?|?]%elem_of_cons.
  - rewrite bool_decide_eq_true_2 by left.
    by destruct (mle_regression self).
  - by rewrite bool_decide_eq_false_2.
Qed.

Lemma sublist_pick {A} (c : bool) (x : A) l l' :
  sublist l l' → sublist ((if c then [x] else []) ++ l) (x :: l').
Proof.
  intros H. destruct c; cbn [app]; [by apply sublist_skip|by apply sublist_cons].
Qed.

(** X25: [params_included] never fails; its kinds come in the order
    of [params_complete], never a reduced-form kind, and the regression
    coefficients are among them exactly when regressors are present and
    estimated by maximum likelihood. *)
Theorem params_included_kinds self :
  ∃ params,
    params_included self = Ok params
    ∧ sublist params params_complete
    ∧ ("exog" ∈ params ↔ (0 < k_exog self)%Z ∧ mle_regression self = true)
    ∧ ("variance" ∈ params ↔ state_error self = true).
Proof.
  eexists. split; [apply params_included_as_list|]. split_and!.
  - unfold params_complete. rewrite <- (app_nil_r (if state_error self then _ else _)).
    repeat apply sublist_pick. constructor.
  - destruct (Z.ltb_spec 0 (k_exog self)), (mle_regression self);
      cbn [andb]; (split; [intros Hin|intros [? ?]; try done; try lia]);
      try (apply elem_of_app; right; apply elem_of_app; left; by left);
      try (split; [lia|done]); exfalso; revert Hin;
      repeat case_match; cbn [app]; intros Hin;
      repeat (apply elem_of_cons in Hin as [Hin|Hin]; [discriminate Hin|]);
      by apply elem_of_nil in Hin.
  - destruct (state_error self);
      (split; [intros Hin|intros ?; try done]).
    + done.
    + rewrite !elem_of_app. do 8 right. by left.
    + exfalso; revert Hin;
      repeat case_match; cbn [app]; intros Hin;
      repeat (apply elem_of_cons in Hin as [Hin|Hin]; [discriminate Hin|]);
      by apply elem_of_nil in Hin.
Qed.

Lemma lookup_assign_if_ne {V} (c : bool) (d : gmap string V) k v key :
  k ≠ key → assign_if c k v d !! key = d !! key.
Proof. intros Hne. destruct c; [by apply lookup_insert_ne|done]. Qed.

Lemma lookup_assign_if_eq {V} (c : bool) (d : gmap string (option V)) k v :
  d !! k = Some None →
  assign_if c k (Some v) d !! k = Some (if c then Some v else None).
Proof. intros Hd. destruct c; [by apply lookup_insert_eq|done]. Qed.

Section names_facts.
Variable exog_names : list string.
Variable np_polymul : list Z → list Z → list Z.

Local Ltac lookup_names :=
  unfold model_names; cbv zeta;
  repeat first
    [ rewrite lookup_assign_if_ne by discriminate
    | rewrite lookup_insert_ne by discriminate
    | apply lookup_insert_eq
    | apply lookup_assign_if_eq ].

Lemma model_names_lookup self :
  let names := model_names exog_names np_polymul self in
  names !! "trend"
  = Some (if (0 <? k_trend self)%Z
          then Some ((λ i, if (i =? 0)%Z then "intercept"
                           else if (i =? 1)%Z then "drift"
                           else "trend." +:+ pretty i)
                       <$> nonzero (polynomial_trend self))
          else None)
  ∧ names !! "exog"
    = Some (if (0 <? k_exog self)%Z then Some exog_names else None)
  ∧ names !! "ar"
    = Some (if (0 <? k_ar self)%Z
            then Some (lag_names "ar.L" (_polynomial_ar_idx self))
            else None)
  ∧ names !! "ma"
    = Some (if (0 <? k_ma self)%Z
            then Some (lag_names "ma.L" (_polynomial_ma_idx self))
            else None)
  ∧ names !! "seasonal_ar"
    = Some (if (0 <? k_seasonal_ar self)%Z
            then Some (lag_names "ar.S.L" (_polynomial_seasonal_ar_idx self))
            else None)
  ∧ names !! "seasonal_ma"
    = Some (if (0 <? k_seasonal_ma self)%Z
            then Some (lag_names "ma.S.L" (_polynomial_seasonal_ma_idx self))
            else None)
  ∧ names !! "exog_variance"
    = Some (if state_regression self && time_varying_regression self
            then Some ((λ exog_name, "var." +:+ exog_name) <$> exog_names)
            else None)
  ∧ names !! "measurement_variance"
    = Some (if measurement_error self then Some ["var.measurment_error"]
            else None)
  ∧ names !! "variance"
    = Some (if state_error self then Some ["sigma2"] else None).
Proof.
  cbv zeta. split_and!; lookup_names.
Qed.
Lemma mapM_result_app {A B} (f : A → result B) l1 l2 :
  mapM f (l1 ++ l2)
  = (a ← mapM f l1; b ← mapM f l2; Ok (a ++ b)).
Proof.
  induction l1 as [|x l1 IH]; cbn.
  - by destruct (mapM f l2).
  - destruct (f x); [|done]. cbn [mbind result_bind]. rewrite IH.
    destruct (mapM f l1); [|done]. cbn [mbind result_bind].
    by destruct (mapM f l2).
Qed.

(** One kind of [params_names]: included under [c], named under [c']. *)
Lemma names_of_kind (names : gmap string (option (list string)))
    (c c' : bool) key (l : list string) :
  names !! key = Some (if c' then Some l else None) →
  (c = true → c' = true) →
  mapM (λ param, names ← dict_getitem names param; iterate names)
    (if c then [key] else [])
  = Ok (if c then [l] else []).
Proof.
  intros Hkey Hc. destruct c; [|done].
  cbn. unfold dict_getitem. rewrite Hkey, (Hc eq_refl). done.
Qed.

(** The names [params_names] returns, kind by kind. *)
Lemma params_names_as_list self :
  params_names exog_names np_polymul self
  = Ok ((if (0 <? k_trend self)%Z
         then (λ i, if (i =? 0)%Z then "intercept"
                    else if (i =? 1)%Z then "drift"
                    else "trend." +:+ pretty i)
                <$> nonzero (polynomial_trend self)
         else [])
        ++ (if (0 <? k_exog self)%Z && mle_regression self
            then exog_names else [])
        ++ (if (0 <? k_ar self)%Z
            then lag_names "ar.L" (_polynomial_ar_idx self) else [])
        ++ (if (0 <? k_ma self)%Z
            then lag_names "ma.L" (_polynomial_ma_idx self) else [])
        ++ (if (0 <? k_seasonal_ar self)%Z
            then lag_names "ar.S.L" (_polynomial_seasonal_ar_idx self)
            else [])
        ++ (if (0 <? k_seasonal_ma self)%Z
            then lag_names "ma.S.L" (_polynomial_seasonal_ma_idx self)
            else [])
        ++ (if (state_regression self && time_varying_regression self)
               && (0 <? k_exog self)%Z
            then (λ exog_name, "var." +:+ exog_name) <$> exog_names else [])
        ++ (if measurement_error self then ["var.measurment_error"] else [])
        ++ (if state_error self then ["sigma2"] else [])).
Proof.
  unfold params_names. rewrite params_included_as_list.
  cbn [mbind result_bind].
  destruct (model_names_lookup self)
    as (H1 & H2 & H3 & H4 & H5 & H6 & H7 & H8 & H9).
  rewrite !mapM_result_app.
  rewrite (names_of_kind _ _ _ _ _ H1) by done.
  rewrite (names_of_kind _ _ _ _ _ H2) by (by intros [? _]%andb_true_iff).
  rewrite (names_of_kind _ _ _ _ _ H3) by done.
  rewrite (names_of_kind _ _ _ _ _ H4) by done.
  rewrite (names_of_kind _ _ _ _ _ H5) by done.
  rewrite (names_of_kind _ _ _ _ _ H6) by done.
  rewrite (names_of_kind _ _ _ _ _ H7) by (by intros [? _]%andb_true_iff).
  rewrite (names_of_kind _ _ _ _ _ H8) by done.
  rewrite (names_of_kind _ _ _ _ _ H9) by done.
  cbn [mbind result_bind fmap result_fmap]. f_equal.
  rewrite !join_app.
  assert (∀ (c : bool) (l : list string),
            mjoin (if c then [l] else []) = if c then l else []) as Hpick
    by (intros [] l; cbn; by rewrite ?app_nil_r).
  by rewrite !Hpick.
Qed.

(** X26: [params_names] never fails, whatever the model: every kind
    that [params_included] lists has its names set.  It returns one name
    per cached polynomial index, per regressor and per variance. *)
Theorem params_names_total self :
  ∃ names,
    params_names exog_names np_polymul self = Ok names
    ∧ length names
      = (if (0 <? k_trend self)%Z
         then length (nonzero (polynomial_trend self)) else 0)
        + (if (0 <? k_exog self)%Z && mle_regression self
           then length exog_names else 0)
        + (if (0 <? k_ar self)%Z
           then length (_polynomial_ar_idx self) else 0)
        + (if (0 <? k_ma self)%Z
           then length (_polynomial_ma_idx self) else 0)
        + (if (0 <? k_seasonal_ar self)%Z
           then length (_polynomial_seasonal_ar_idx self) else 0)
        + (if (0 <? k_seasonal_ma self)%Z
           then length (_polynomial_seasonal_ma_idx self) else 0)
        + (if (state_regression self && time_varying_regression self)
              && (0 <? k_exog self)%Z
           then length exog_names else 0)
        + (if measurement_error self then 1 else 0)
        + (if state_error self then 1 else 0).
Proof.
  eexists. split; [apply params_names_as_list|].
  rewrite !length_app.
  repeat match goal with
         | |- context [length (if ?c then ?l else [])] =>
             replace (length (if c then l else []))
               with (if c then length l else 0) by (by destruct c)
         end.
  unfold lag_names. rewrite !length_fmap. cbn [length]. lia.
Qed.
End names_facts.

(** Orders and coefficient counts of a constructed model, by polynomial. *)
Lemma polynomial_counts a m :
  __init__ a = Ok m →
  (k_ar m = Z.of_nat (length (polynomial_ar m)) - 1
   ∧ k_ar_params m = np_sum (polynomial_ar m) - 1
   ∧ k_ma m = Z.of_nat (length (polynomial_ma m)) - 1
   ∧ k_ma_params m = np_sum (polynomial_ma m) - 1
   ∧ k_seasonal_ar m = Z.of_nat (length (polynomial_seasonal_ar m)) - 1
   ∧ k_seasonal_ar_params m = np_sum (polynomial_seasonal_ar m) - 1
   ∧ k_seasonal_ma m = Z.of_nat (length (polynomial_seasonal_ma m)) - 1
   ∧ k_seasonal_ma_params m = np_sum (polynomial_seasonal_ma m) - 1
   ∧ k_trend m = np_sum (polynomial_trend m))%Z
  ∧ polynomial_trend m = trend_polynomial (arg_trend a).
Proof. intros H. init_inv H. by subst m. Qed.

Lemma trend_polynomial_boolean t :
  Forall (λ f, f = 0%Z ∨ f = 1%Z) (trend_polynomial t).
Proof.
  destruct t as [| | | | |coefs]; cbn [trend_polynomial];
    [by repeat constructor; auto..|].
  apply Forall_fmap, Forall_forall. intros c _. cbn. case_match; auto.
Qed.

(** The index list of a polynomial of inclusion flags, by its guard. *)
Lemma guarded_idx_count poly :
  boolean_polynomial poly →
  Z.of_nat (if (0 <? Z.of_nat (length poly) - 1)%Z
            then length (getslice (nonzero poly) (Some 1%Z) None) else 0)
  = (np_sum poly - 1)%Z.
Proof.
  intros Hb. destruct (polynomial_idx_boolean poly Hb) as [Hlen Hin].
  destruct (Z.ltb_spec 0 (Z.of_nat (length poly) - 1)); [done|].
  destruct (getslice (nonzero poly) (Some 1%Z) None) as [|j idx]; [done|].
  apply Forall_cons in Hin as [? _]. lia.
Qed.

(** X27: for a constructed model whose lag polynomials consist of
    inclusion flags and whose data names one regressor per column,
    [params_names] returns exactly as many names as the transforms and
    [update] read parameters: one per entry of the nine segments. *)
Theorem params_names_match_layout exog_names np_polymul a m names :
  __init__ a = Ok m →
  boolean_polynomial (polynomial_ar m) →
  boolean_polynomial (polynomial_ma m) →
  boolean_polynomial (polynomial_seasonal_ar m) →
  boolean_polynomial (polynomial_seasonal_ma m) →
  Z.of_nat (length exog_names) = k_exog m →
  params_names exog_names np_polymul m = Ok names →
  Z.of_nat (length names)
  = (len_trend m + len_exog m + len_ar m + len_ma m + len_seasonal_ar m
     + len_seasonal_ma m + len_exog_variance m + len_measurement_variance m
     + len_variance m)%Z.
Proof.
  intros H Bar Bma Bsar Bsma Hexog Hnames.
  rewrite params_names_as_list in Hnames. injection Hnames as <-.
  destruct (polynomial_counts a m H)
    as ((Kar & Par & Kma & Pma & Ksar & Psar & Ksma & Psma & Ktrend) & Htrend).
  destruct (regression_as_set a m H) as (_ & Hmle & _).
  pose proof (trend_polynomial_boolean (arg_trend a)) as Btrend.
  rewrite <- Htrend in Btrend.
  destruct (nonzero_from_boolean 0 _ Btrend) as [Ctrend _].
  fold (nonzero (polynomial_trend m)) in Ctrend.
  pose proof (guarded_idx_count _ Bar) as Car.
  pose proof (guarded_idx_count _ Bma) as Cma.
  pose proof (guarded_idx_count _ Bsma) as Csma.
  destruct (polynomial_idx_boolean _ Bsar) as [Csar _].
  rewrite <- Kar, <- Par in Car. rewrite <- Kma, <- Pma in Cma.
  rewrite <- Ksma, <- Psma in Csma. rewrite <- Psar in Csar.
  unfold len_trend, len_exog, len_ar, len_ma, len_seasonal_ar,
    len_seasonal_ma, len_exog_variance, len_measurement_variance,
    len_variance.
  rewrite (constructed_not_time_varying a m H), andb_false_r.
  rewrite !length_app. unfold lag_names.
  repeat match goal with
         | |- context [length (if ?c then ?l else [])] =>
             replace (length (if c then l else []))
               with (if c then length l else 0) by (by destruct c)
         end.
  rewrite !length_fmap. cbn [length].
  unfold _polynomial_ar_idx, _polynomial_ma_idx, _polynomial_seasonal_ar_idx,
    _polynomial_seasonal_ma_idx.
  rewrite !Nat2Z.inj_add, Car, Cma, Csma.
  assert (Z.of_nat (if (0 <? k_trend m)%Z
                    then length (nonzero (polynomial_trend m)) else 0)
          = k_trend m) as ->.
  { destruct (Z.ltb_spec 0 (k_trend m)); lia. }
  assert (Z.of_nat (if (0 <? k_exog m)%Z && mle_regression m
                    then length exog_names else 0)
          = (if mle_regression m then k_exog m else 0)%Z) as ->.
  { rewrite Hmle.
    destruct (arg_mle_regression a), (bool_decide (arg_exog a ≠ None)),
      (0 <? k_exog m)%Z; cbn; lia. }
  assert (Z.of_nat (if (0 <? k_seasonal_ar m)%Z
                    then length (getslice (nonzero (polynomial_seasonal_ar m))
                                   (Some 1%Z) None) else 0)
          = (if (0 <? k_seasonal_ar m)%Z then k_seasonal_ar_params m else 0)%Z)
    as ->.
  { destruct (0 <? k_seasonal_ar m)%Z; lia. }
  cbn [andb].
  destruct (measurement_error m), (state_error m), (mle_regression m),
    (0 <? k_seasonal_ar m)%Z; cbn [Z.b2z]; lia.
Qed.

Lemma params_names_match_layout_witness :
  Z.of_nat (length ["ar.L1"; "sigma2"])
  = (len_trend Examples.defaults_model + len_exog Examples.defaults_model
     + len_ar Examples.defaults_model + len_ma Examples.defaults_model
     + len_seasonal_ar Examples.defaults_model
     + len_seasonal_ma Examples.defaults_model
     + len_exog_variance Examples.defaults_model
     + len_measurement_variance Examples.defaults_model
     + len_variance Examples.defaults_model)%Z.
Proof.
  apply (params_names_match_layout [] (λ _ _, []) Examples.defaults
           Examples.defaults_model);
    [exact defaults_constructed
    |split; [reflexivity|repeat (apply Forall_cons_2; [by right|]); done]..
    |reflexivity
    |vm_compute; reflexivity].
Defined.

(** ** More on the starting parameters *)

Lemma getslice_take_drop {A} (l : list A) (a b : Z) :
  (0 ≤ a ≤ b)%Z →
  getslice l (Some a) (Some b) = take (Z.to_nat b - Z.to_nat a) (drop (Z.to_nat a) l).
Proof.
  intros Hab. unfold getslice, slice_bounds, clip.
  destruct (Z.ltb_spec a 0); [lia|]. destruct (Z.ltb_spec b 0); [lia|].
  set (n := Z.of_nat (length l)).
  destruct (Z.le_gt_cases a n).
  - rewrite (Z.min_l a n) by done.
    destruct (Z.le_gt_cases b n).
    + rewrite (Z.min_l b n) by done. f_equal. lia.
    + rewrite (Z.min_r b n) by lia.
      rewrite !take_ge; [done|rewrite length_drop; lia..].
  - rewrite (Z.min_r a n), (Z.min_r b n) by lia.
    rewrite !drop_ge by lia. by rewrite !take_nil.
Qed.

Lemma getslice_adjacent {A} (l : list A) (a b c : Z) :
  (0 ≤ a ≤ b)%Z → (b ≤ c)%Z →
  getslice l (Some a) (Some b) ++ getslice l (Some b) (Some c)
  = getslice l (Some a) (Some c).
Proof.
  intros Hab Hbc. rewrite !getslice_take_drop by lia.
  replace (Z.to_nat c - Z.to_nat a)
    with ((Z.to_nat b - Z.to_nat a) + (Z.to_nat c - Z.to_nat b)) by lia.
  rewrite <- take_take_drop, drop_drop. do 3 f_equal. lia.
Qed.

Section more_start_params_facts.
Variable ar_proxy_residuals : list R → Z → result (list R).
Variable css_regression :
  list R → Z → list Z → Z → list Z → Z → option matrix →
  option (list R) → result (list R * list R).

(** X28: what a conditional-sum-of-squares run with something to
    estimate returns, in terms of the regression it ran: the trend slot
    holds the first coefficient only, whatever [k_trend]; the AR and MA
    slots are the adjacent slices behind the [k_trend] trend coefficients;
    the variance is the mean squared residual. *)
Theorem css_slots_of_regression endog k_ar pa k_ma pm k_trend td t ar ma v :
  _conditional_sum_squares ar_proxy_residuals css_regression
    endog k_ar pa k_ma pm k_trend td = Ok (t, ar, ma, v) →
  (0 ≤ k_ar)%Z → (0 ≤ k_ma)%Z → (0 ≤ k_trend)%Z →
  (0 < k_ar + k_ma + k_trend)%Z →
  ∃ residuals params res,
    css_regression endog k_ar pa k_ma pm k_trend td residuals
    = Ok (params, res)
    ∧ (if (0 <? k_trend)%Z then ∃ x, t = Values [x] ∧ head params = Some x
       else t = Empty)
    ∧ np_r_ ar ++ np_r_ ma
      = getslice params (Some k_trend) (Some (k_trend + k_ar + k_ma)%Z)
    ∧ v = Values [np_mean (square <$> getslice res (Some k_ma) None)].
Proof.
  unfold _conditional_sum_squares. intros H Har Hma Htrend Hpos.
  destruct (Z.ltb_spec 0 (k_ar + k_ma + k_trend)); [|lia].
  destruct (if (0 <? k_ma)%Z
            then Some <$> ar_proxy_residuals endog (2 * k_ma)
            else Ok None) as [residuals|];
    cbn [mbind result_bind] in H; [|discriminate H].
  match type of H with
  | mbind _ (mbind _ ?r) = _ =>
      destruct r as [[]|]; cbn [mbind result_bind] in H; [|discriminate H]
  end.
  destruct (css_regression endog k_ar pa k_ma pm k_trend td residuals)
    as [[params res]|] eqn:Hreg;
    cbn [mbind result_bind fmap result_fmap fst snd] in H; [|discriminate H].
  exists residuals, params, res. split; [done|].
  assert (∃ t', (if (0 <? k_trend)%Z
                 then x ← getitem params 0;
                      Ok (Values [x], (0 + k_trend)%Z)
                 else Ok (Empty, 0%Z)) = Ok (t', k_trend)
                ∧ (if (0 <? k_trend)%Z
                   then ∃ x, t' = Values [x] ∧ head params = Some x
                   else t' = Empty)) as (t' & Ht & Ht').
  { destruct (Z.ltb_spec 0 k_trend).
    - destruct params as [|x params].
      + cbn in H. discriminate H.
      + exists (Values [x]). split; [done|]. eauto.
    - exists Empty. split; [do 2 f_equal; lia|done]. }
  rewrite Ht in H. cbn [mbind result_bind] in H.
  destruct (Z.ltb_spec 0 k_ar), (Z.ltb_spec 0 k_ma);
    cbn [mbind result_bind] in H; injection H as <- <- <- <-;
    (split; [done|]); (split; [|done]); cbn [np_r_ app];
    rewrite ?app_nil_r.
  - replace (k_ar + k_trend)%Z with (k_trend + k_ar)%Z by lia.
    replace (k_ma + (k_trend + k_ar))%Z with (k_trend + k_ar + k_ma)%Z by lia.
    apply getslice_adjacent; lia.
  - f_equal. f_equal. lia.
  - f_equal. f_equal. lia.
  - rewrite getslice_take_drop by lia.
    by replace (Z.to_nat (k_trend + k_ar + k_ma) - Z.to_nat k_trend)
         with 0 by lia.
Qed.
(** A run with something to estimate returns a variance. *)
Lemma css_variance_estimated endog k_ar pa k_ma pm k_trend td t ar ma v :
  _conditional_sum_squares ar_proxy_residuals css_regression
    endog k_ar pa k_ma pm k_trend td = Ok (t, ar, ma, v) →
  (0 < k_ar + k_ma + k_trend)%Z →
  is_empty v = false.
Proof.
  unfold _conditional_sum_squares. intros H Hpos.
  destruct (Z.ltb_spec 0 (k_ar + k_ma + k_trend)); [|lia].
  match type of H with
  | mbind _ ?r = _ =>
      destruct r as [fitted|] eqn:Hfit; cbn [mbind result_bind] in H;
      [|discriminate H]
  end.
  assert (∃ pr, fitted = Some pr) as [pr ->].
  { destruct (if (0 <? k_ma)%Z then _ else _) as [?|];
      cbn [mbind result_bind] in Hfit; [|discriminate Hfit].
    match type of Hfit with
    | mbind _ ?r = _ =>
        destruct r as [?|]; cbn [mbind result_bind] in Hfit;
        [|discriminate Hfit]
    end.
    destruct (css_regression _ _ _ _ _ _ _ _) as [pr|];
      cbn [fmap result_fmap] in Hfit; [|discriminate Hfit].
    injection Hfit as <-. eauto. }
  repeat match type of H with
         | mbind _ ?r = Ok _ =>
             destruct r as [[? ?]|]; cbn [mbind result_bind] in H;
             [|discriminate H]
         end.
  by injection H as <- <- <- <-.
Qed.

(** X29: for a constructed model with a state error the first
    conditional-sum-of-squares run of [start_params] always estimates a
    variance, so the fall-back values for a missing variance (the seasonal
    estimate, the sum of squares, 1) are never used. *)
Theorem state_error_has_css_variance a m endog td t ar ma v :
  __init__ a = Ok m →
  state_error m = true →
  _conditional_sum_squares ar_proxy_residuals css_regression endog
    (k_ar m) (polynomial_ar m) (k_ma m) (polynomial_ma m) (k_trend m) td
  = Ok (t, ar, ma, v) →
  is_empty v = false
  ∧ ∀ (seasonal_variance : estimate) (k_exog : Z) (endog' : list R),
      (if state_error m && is_empty v
       then (if negb (is_empty seasonal_variance) then seasonal_variance
             else if (0 <? k_exog)%Z then Values [inner endog' endog']
             else Values [1%R])
       else v) = v.
Proof.
  intros H Hse Hcss.
  assert (is_empty v = false) as Hv.
  { destruct (error_terms_as_set a m H) as (Hse' & _ & _).
    rewrite Hse in Hse'. symmetry in Hse'. apply Z.ltb_lt in Hse'.
    destruct (k_states_as_computed a m H) as [_ Hord].
    destruct (orders_nonnegative a m H) as (? & ? & _ & _).
    destruct (polynomial_counts a m H) as ((_ & _ & _ & _ & _ & _ & _ & _ & Ktrend) & Htrend).
    pose proof (trend_polynomial_boolean (arg_trend a)) as Btrend.
    rewrite <- Htrend in Btrend.
    destruct (nonzero_from_boolean 0 _ Btrend) as [Ctrend _].
    assert (0 < k_ar m + k_ma m)%Z.
    { destruct (Z.eqb_spec (k_ar m) (k_ma m)), (Z.eqb_spec (k_ma m) 0);
        cbn [andb] in Hord; lia. }
    apply (css_variance_estimated _ _ _ _ _ _ _ _ _ _ _ Hcss). lia. }
  split; [done|]. intros. by rewrite Hv, andb_false_r.
Qed.
End more_start_params_facts.

Lemma css_slots_of_regression_witness :
  ∃ residuals params res,
    Examples.explosive_regression [1%R; 2%R; 3%R] 1 [1%Z; 1%Z] 0 [1%Z] 0
      None residuals
    = Ok (params, res)
    ∧ [(3 / 2)%R] = getslice params (Some 0%Z) (Some 1%Z).
Proof.
  destruct (css_slots_of_regression Examples.no_proxy
              Examples.explosive_regression [1%R; 2%R; 3%R] 1 [1%Z; 1%Z]
              0 [1%Z] 0 None
              Empty (Values [(3 / 2)%R]) Empty
              (Values [np_mean (square <$> [1%R; 2%R; 3%R])]) eq_refl)
    as (residuals & params & res & Hreg & _ & Hslots & _); [lia..|].
  exists residuals, params, res. split; [exact Hreg|exact Hslots].
Defined.

Lemma state_error_has_css_variance_witness :
  is_empty (Values [np_mean (square <$> [1%R; 2%R; 3%R])]) = false.
Proof.
  apply (state_error_has_css_variance Examples.no_proxy
           Examples.explosive_regression Examples.defaults
           Examples.defaults_model [1%R; 2%R; 3%R] None
           Empty (Values [(3 / 2)%R]) Empty
           (Values [np_mean (square <$> [1%R; 2%R; 3%R])])
           defaults_constructed eq_refl eq_refl).
Defined.

(** ** The parameters of a fit, by kind *)

Lemma lookup_assign_if {V} (c : bool) (d : gmap string V) k v :
  assign_if c k v d !! k = if c then Some v else d !! k.
Proof. destruct c; [by apply lookup_insert_eq|done]. Qed.

Lemma distinguish_pick orders params (c : bool) name k rest s e attributes :
  orders !! name = Some k →
  SARIMAXResults.distinguish orders params
    ((if c then [name] else []) ++ rest) s e attributes
  = SARIMAXResults.distinguish orders params rest
      (if c then s + k else s)%Z (if c then e + k else e)%Z
      (assign_if c ("_params_" +:+ name)
         (getslice params (Some s) (Some (e + k)%Z)) attributes).
Proof.
  intros Hk. destruct c; [|done].
  cbn. unfold dict_getitem. by rewrite Hk.
Qed.

(** X30: the results of a fit tell the parameters apart by slicing
    the parameter vector by the model orders.  For a model without seasonal
    lags whose AR and MA orders equal its coefficient counts, [SARIMAXResults.arparams]
    and [SARIMAXResults.maparams] are the AR and MA segments of the layout of the
    transforms; a kind the model does not have is never set. *)
Theorem distinguished_arma_params (self : SARIMAXResults.t)
    (t x a b me sv : list R) :
  segmented (SARIMAXResults.model self) t x a b [] [] [] me sv →
  k_ar (SARIMAXResults.model self) = k_ar_params (SARIMAXResults.model self) →
  k_ma (SARIMAXResults.model self) = k_ma_params (SARIMAXResults.model self) →
  ∃ attributes,
    SARIMAXResults.distinguished self (t ++ x ++ a ++ b ++ me ++ sv) = Ok attributes
    ∧ SARIMAXResults.arparams attributes
      = (if (0 <? k_ar (SARIMAXResults.model self))%Z then Some a else None)
    ∧ SARIMAXResults.maparams attributes
      = (if (0 <? k_ma (SARIMAXResults.model self))%Z then Some b else None).
Proof.
  set (m := SARIMAXResults.model self).
  intros (Ht & Hx & Ha & Hb & Hsa & Hsb & Hev & Hme & Hsv) Kar Kma.
  unfold len_trend, len_exog, len_ar, len_ma, len_seasonal_ar,
    len_seasonal_ma, len_exog_variance, len_measurement_variance,
    len_variance in *.
  destruct (model_orders_lookup m)
    as (O1 & O2 & O3 & O4 & O5 & O6 & O7 & O8 & O9).
  unfold SARIMAXResults.distinguished. fold m. rewrite params_included_as_list.
  cbn [mbind result_bind].
  rewrite (distinguish_pick _ _ _ _ _ _ _ _ _ O1).
  rewrite (distinguish_pick _ _ _ _ _ _ _ _ _ O2).
  rewrite (distinguish_pick _ _ _ _ _ _ _ _ _ O3).
  rewrite (distinguish_pick _ _ _ _ _ _ _ _ _ O4).
  rewrite (distinguish_pick _ _ _ _ _ _ _ _ _ O5).
  rewrite (distinguish_pick _ _ _ _ _ _ _ _ _ O6).
  rewrite (distinguish_pick _ _ _ _ _ _ _ _ _ O7).
  rewrite (distinguish_pick _ _ _ _ _ _ _ _ _ O8).
  rewrite <- (app_nil_r (if state_error m then _ else _)).
  rewrite (distinguish_pick _ _ _ _ _ _ _ _ _ O9).
  cbn [SARIMAXResults.distinguish String.append].
  eexists. split; [reflexivity|].
  unfold SARIMAXResults.arparams, SARIMAXResults.maparams.
  set (s2 := (if (0 <? k_exog m)%Z && mle_regression m
              then (if (0 <? k_trend m)%Z then 0 + k_trend m else 0)
                   + k_exog m
              else if (0 <? k_trend m)%Z then 0 + k_trend m else 0)%Z).
  assert (s2 = Z.of_nat (length (t ++ x))) as Hs2.
  { subst s2. rewrite length_app.
    destruct (Z.ltb_spec 0 (k_trend m)), (Z.ltb_spec 0 (k_exog m)),
      (mle_regression m); cbn [andb]; lia. }
  split.
  - repeat (rewrite lookup_assign_if_ne by discriminate).
    rewrite lookup_assign_if.
    repeat (rewrite lookup_assign_if_ne by discriminate).
    rewrite lookup_empty, Hs2.
    destruct (0 <? k_ar m)%Z; [|done]. f_equal.
    rewrite (app_assoc t x). apply getslice_between; lia.
  - repeat (rewrite lookup_assign_if_ne by discriminate).
    rewrite lookup_assign_if.
    repeat (rewrite lookup_assign_if_ne by discriminate).
    rewrite lookup_empty, Hs2.
    destruct (Z.ltb_spec 0 (k_ma m)); [|done]. f_equal.
    rewrite (app_assoc t x), (app_assoc _ a).
    destruct (Z.ltb_spec 0 (k_ar m));
      apply getslice_between; rewrite ?length_app; lia.
Qed.

Lemma distinguished_arma_params_witness :
  ∃ attributes,
    SARIMAXResults.distinguished
      {| SARIMAXResults.model := Examples.ar1_unenforced_model;
         SARIMAXResults.nobs := 10 |} [(1 / 2)%R; 2%R]
    = Ok attributes
    ∧ SARIMAXResults.arparams attributes = Some [(1 / 2)%R].
Proof.
  destruct (distinguished_arma_params
              {| SARIMAXResults.model := Examples.ar1_unenforced_model;
                 SARIMAXResults.nobs := 10 |}
              [] [] [(1 / 2)%R] [] [] [2%R])
    as (attributes & Hd & Har & _);
    [unfold segmented; repeat split|reflexivity|reflexivity|].
  exists attributes. split; [exact Hd|exact Har].
Defined.
